(** * Integration-test orchestrator of the PaaS console front end

    A shallow embedding of the two pieces of the repository that carry
    control flow:

    - [BackendApiTester] (packages/testing/src/api-testing.ts): the HTTP
      probes and [runFullIntegrationTest];
    - [IntegrationTestRunner] (the runner script test-integration.js,
      which follows the Playwright suite in e2e/integration.spec.ts):
      process start-up, readiness polling, the phases, the report and
      the clean-up.

    JavaScript values are modelled by the inductive type [JS.value]; the
    effects of the code (requests sent, exceptions thrown, mutation of
    [this.authToken], the clock, the child processes) are threaded
    explicitly. *)

From Stdlib Require Import String Ascii List ZArith Bool Lia.
From Stdlib Require Import DecimalString.
From Stdlib Require DecimalPos DecimalZ.
Import ListNotations.

Local Open Scope string_scope.
Local Open Scope Z_scope.

(* ================================================================== *)
(** * JavaScript values *)
(* ================================================================== *)

Module JS.

(** The values that travel through the harness: what a JSON body can
    hold, plus [undefined].  Numbers are restricted to the integers. *)
#[warnings="-register-all"]
Inductive value : Type :=
| Undefined
| Null
| Bool (b : bool)
| Num (z : Z)
| Str (s : string)
| Arr (vs : list value)
| Obj (fields : list (string * value)).

(** [if (v)], [!v], [Boolean(v)] *)
Definition truthy (v : value) : bool :=
  match v with
  | Undefined | Null => false
  | Bool b => b
  | Num z => negb (z =? 0)
  | Str s => negb (s =? "")%string
  | Arr _ | Obj _ => true
  end.

Definition is_undefined (v : value) : bool :=
  match v with Undefined => true | _ => false end.

(** [a || b] *)
Definition or (a b : value) : value := if truthy a then a else b.

(** Own-property lookup in insertion-ordered fields. *)
Fixpoint lookup {A} (k : string) (fs : list (string * A)) : option A :=
  match fs with
  | [] => None
  | (k', v) :: fs' => if (k' =? k)%string then Some v else lookup k fs'
  end.

(** [o.k = v]: an existing key keeps its position, a new key goes last. *)
Fixpoint set {A} (k : string) (v : A) (fs : list (string * A)) : list (string * A) :=
  match fs with
  | [] => [(k, v)]
  | (k', v') :: fs' =>
      if (k' =? k)%string then (k', v) :: fs' else (k', v') :: set k v fs'
  end.

(** [Object.values(o)] *)
Definition values {A} (fs : list (string * A)) : list A := map snd fs.

(** [v.k]; [None] stands for the TypeError raised on [undefined] and [null]. *)
Definition get (v : value) (k : string) : option value :=
  match v with
  | Undefined | Null => None
  | Obj fs => Some (match lookup k fs with Some x => x | None => Undefined end)
  | _ => Some Undefined
  end.

(** [v?.k] *)
Definition get_opt (v : value) (k : string) : value :=
  match get v k with Some x => x | None => Undefined end.

(** [v?.[0]] *)
Definition first_opt (v : value) : value :=
  match v with
  | Arr (x :: _) => x
  | Str (String c _) => Str (String c "")
  | Obj fs => match lookup "0" fs with Some x => x | None => Undefined end
  | _ => Undefined
  end.

(** Template-literal conversion [`${v}`]. *)
Fixpoint toString (v : value) : string :=
  match v with
  | Undefined => "undefined"
  | Null => "null"
  | Bool true => "true"
  | Bool false => "false"
  | Num z => NilZero.string_of_int (Z.to_int z)
  | Str s => s
  | Arr vs =>
      String.concat ","
        (map (fun x => match x with
                       | Undefined | Null => ""
                       | _ => toString x
                       end) vs)
  | Obj _ => "[object Object]"
  end.

(** [s.includes(sub)] *)
Definition includes (s sub : string) : bool :=
  match String.index 0 sub s with Some _ => true | None => false end.

End JS.

(* ================================================================== *)
(** * JSON text: [JSON.stringify(v, null, 2)] and [JSON.parse] *)
(* ================================================================== *)

(** Strings are byte strings: a character above 255 and the surrogate
    escapes are outside the model.  Numbers are integers, written in
    plain decimal. *)
Module Json.
Import JS.

Local Open Scope char_scope.

Definition dquote : ascii := ascii_of_nat 34.
Definition backslash : ascii := ascii_of_nat 92.
Definition newline : ascii := ascii_of_nat 10.

Definition hexdigit (n : nat) : ascii :=
  match n with
  | 0%nat => "0" | 1%nat => "1" | 2%nat => "2" | 3%nat => "3"
  | 4%nat => "4" | 5%nat => "5" | 6%nat => "6" | 7%nat => "7"
  | 8%nat => "8" | 9%nat => "9" | 10%nat => "a" | 11%nat => "b"
  | 12%nat => "c" | 13%nat => "d" | 14%nat => "e" | _ => "f"
  end.

(** The escape of one character inside a string literal
    (QuoteJSONString): the two-character escapes, [\u00XX] for the other
    control characters, the character itself otherwise. *)
Definition escape (c : ascii) : string :=
  let n := nat_of_ascii c in
  if (n =? 34)%nat then String backslash (String dquote EmptyString)
  else if (n =? 92)%nat then String backslash (String backslash EmptyString)
  else if (n =? 8)%nat then String backslash "b"
  else if (n =? 12)%nat then String backslash "f"
  else if (n =? 10)%nat then String backslash "n"
  else if (n =? 13)%nat then String backslash "r"
  else if (n =? 9)%nat then String backslash "t"
  else if (n <? 32)%nat then
    String backslash
      (String "u" (String "0" (String "0"
         (String (hexdigit (n / 16)) (String (hexdigit (n mod 16)) EmptyString)))))
  else String c EmptyString.

Fixpoint escape_all (s : string) : string :=
  match s with
  | EmptyString => EmptyString
  | String c r => (escape c ++ escape_all r)%string
  end.

Definition quote (s : string) : string :=
  String dquote (escape_all s ++ String dquote EmptyString)%string.

Definition gap : string := "  "%string.
Definition nl : string := String newline EmptyString.

(** Members or elements joined by a comma, each on a line of its own. *)
Fixpoint join (sep : string) (l : list string) : string :=
  match l with
  | [] => EmptyString
  | [x] => x
  | x :: l' => (x ++ sep ++ join sep l')%string
  end.

Definition wrap (open close : string) (indent : string) (partial : list string) : string :=
  match partial with
  | [] => (open ++ close)%string
  | _ =>
      (open ++ nl ++ (indent ++ gap) ++
       join ("," ++ nl ++ (indent ++ gap)) partial ++
       nl ++ indent ++ close)%string
  end.

(** SerializeJSONProperty: [None] is the [undefined] result, which makes
    an object drop the member and an array print [null]. *)
Fixpoint serialize (indent : string) (v : value) : option string :=
  match v with
  | Undefined => None
  | Null => Some "null"%string
  | Bool true => Some "true"%string
  | Bool false => Some "false"%string
  | Num z => Some (NilZero.string_of_int (Z.to_int z))
  | Str s => Some (quote s)
  | Arr vs =>
      Some (wrap "[" "]" indent
              (map (fun x =>
                      match serialize (indent ++ gap) x with
                      | Some t => t
                      | None => "null"%string
                      end) vs))
  | Obj fs =>
      Some (wrap "{" "}" indent
              (flat_map (fun kv =>
                           match serialize (indent ++ gap) (snd kv) with
                           | Some t => [(quote (fst kv) ++ ": " ++ t)%string]
                           | None => []
                           end) fs))
  end.

(** [JSON.stringify(v, null, 2)] *)
Definition stringify (v : value) : option string := serialize EmptyString v.

(** ** Parsing *)

Definition is_ws (c : ascii) : bool :=
  let n := nat_of_ascii c in
  ((n =? 32) || (n =? 10) || (n =? 13) || (n =? 9))%nat.

Fixpoint skip_ws (s : string) : string :=
  match s with
  | EmptyString => EmptyString
  | String c r => if is_ws c then skip_ws r else s
  end.

Definition is_digit (c : ascii) : bool :=
  let n := nat_of_ascii c in ((48 <=? n) && (n <=? 57))%nat.

Definition hexval (c : ascii) : option nat :=
  let n := nat_of_ascii c in
  if ((48 <=? n) && (n <=? 57))%nat then Some (n - 48)%nat
  else if ((97 <=? n) && (n <=? 102))%nat then Some (n - 87)%nat
  else if ((65 <=? n) && (n <=? 70))%nat then Some (n - 55)%nat
  else None.

(** The character denoted by [\uh1h2h3h4]; strings are byte strings
    here, so a code above 255 is not accepted. *)
Definition hex4 (h1 h2 h3 h4 : ascii) : option ascii :=
  match hexval h1, hexval h2, hexval h3, hexval h4 with
  | Some 0%nat, Some 0%nat, Some a, Some b => Some (ascii_of_nat (16 * a + b))
  | _, _, _, _ => None
  end.

Definition unescape (c : ascii) : option ascii :=
  let n := nat_of_ascii c in
  if (n =? 34)%nat then Some dquote
  else if (n =? 92)%nat then Some backslash
  else if (n =? 47)%nat then Some "/"
  else if (n =? 98)%nat then Some (ascii_of_nat 8)
  else if (n =? 102)%nat then Some (ascii_of_nat 12)
  else if (n =? 110)%nat then Some (ascii_of_nat 10)
  else if (n =? 114)%nat then Some (ascii_of_nat 13)
  else if (n =? 116)%nat then Some (ascii_of_nat 9)
  else None.

Definition cons_char (c : ascii) (r : option (string * string)) : option (string * string) :=
  match r with
  | Some (s, rest) => Some (String c s, rest)
  | None => None
  end.

(** The characters of a string literal after its opening quote, up to
    and including the closing quote. *)
Fixpoint parse_chars (s : string) : option (string * string) :=
  match s with
  | EmptyString => None
  | String c r =>
      if Ascii.eqb c dquote then Some (EmptyString, r)
      else if Ascii.eqb c backslash then
        match r with
        | EmptyString => None
        | String e r1 =>
            if Ascii.eqb e "u" then
              match r1 with
              | String h1 (String h2 (String h3 (String h4 r2))) =>
                  match hex4 h1 h2 h3 h4 with
                  | Some a => cons_char a (parse_chars r2)
                  | None => None
                  end
              | _ => None
              end
            else
              match unescape e with
              | Some a => cons_char a (parse_chars r1)
              | None => None
              end
        end
      else if (nat_of_ascii c <? 32)%nat then None
      else cons_char c (parse_chars r)
  end.

(** The longest prefix of digits. *)
Fixpoint span_digits (s : string) : string * string :=
  match s with
  | String c r =>
      if is_digit c then let (d, rest) := span_digits r in (String c d, rest)
      else (EmptyString, s)
  | EmptyString => (EmptyString, EmptyString)
  end.

(** An integer literal: it is accepted when it is the decimal form
    that printing the number gives back. *)
Definition parse_number (s : string) : option (value * string) :=
  let (lit, rest) :=
    match s with
    | String "-" r => let (d, rest) := span_digits r in (String "-" d, rest)
    | _ => span_digits s
    end in
  match NilZero.int_of_string lit with
  | Some i =>
      if (NilZero.string_of_int (Z.to_int (Z.of_int i)) =? lit)%string
      then Some (Num (Z.of_int i), rest)
      else None
  | None => None
  end.

Definition parse_literal (s : string) : option (value * string) :=
  match s with
  | String "t" (String "r" (String "u" (String "e" r))) => Some (Bool true, r)
  | String "f" (String "a" (String "l" (String "s" (String "e" r)))) => Some (Bool false, r)
  | String "n" (String "u" (String "l" (String "l" r))) => Some (Null, r)
  | _ => None
  end.

(** Recursive descent; [fuel] bounds the number of values and members
    read.  A member whose key is already present replaces the earlier
    value ([JS.set]). *)
Fixpoint parse_value (fuel : nat) (s : string) : option (value * string) :=
  match fuel with
  | O => None
  | S f =>
      match skip_ws s with
      | EmptyString => None
      | String c r =>
          if is_digit c || Ascii.eqb c "-" then parse_number (String c r)
          else if Ascii.eqb c "{" then
            match skip_ws r with
            | String "}" r1 => Some (Obj [], r1)
            | _ => parse_members f [] r
            end
          else if Ascii.eqb c "[" then
            match skip_ws r with
            | String "]" r1 => Some (Arr [], r1)
            | _ => parse_elements f [] r
            end
          else if Ascii.eqb c dquote then
            match parse_chars r with
            | Some (str, r1) => Some (Str str, r1)
            | None => None
            end
          else parse_literal (String c r)
      end
  end

with parse_members (fuel : nat) (acc : list (string * value)) (s : string)
    : option (value * string) :=
  match fuel with
  | O => None
  | S f =>
      match skip_ws s with
      | EmptyString => None
      | String c r =>
          if Ascii.eqb c dquote then
            match parse_chars r with
            | None => None
            | Some (k, r1) =>
                match skip_ws r1 with
                | String ":" r2 =>
                    match parse_value f r2 with
                    | None => None
                    | Some (v, r3) =>
                        match skip_ws r3 with
                        | String "," r4 => parse_members f (JS.set k v acc) r4
                        | String "}" r4 => Some (Obj (JS.set k v acc), r4)
                        | _ => None
                        end
                    end
                | _ => None
                end
            end
          else None
      end
  end

with parse_elements (fuel : nat) (acc : list value) (s : string)
    : option (value * string) :=
  match fuel with
  | O => None
  | S f =>
      match parse_value f s with
      | None => None
      | Some (v, r1) =>
          match skip_ws r1 with
          | String "," r2 => parse_elements f (acc ++ [v]) r2
          | String "]" r2 => Some (Arr (acc ++ [v]), r2)
          | _ => None
          end
      end
  end.

(** [JSON.parse(text)] *)
Definition parse (text : string) : option value :=
  match parse_value (S (String.length text)) text with
  | Some (v, rest) =>
      match skip_ws rest with
      | EmptyString => Some v
      | _ => None
      end
  | None => None
  end.

(** What a value reads back as: members holding [undefined] are gone,
    [undefined] elements are [null], members are entered one by one. *)
Fixpoint canon (v : value) : value :=
  match v with
  | Undefined => Null
  | Arr vs => Arr (map canon vs)
  | Obj fs =>
      Obj (fold_left
             (fun acc kv =>
                if is_undefined (snd kv) then acc
                else JS.set (fst kv) (canon (snd kv)) acc) fs [])
  | _ => v
  end.

End Json.

(* ================================================================== *)
(** * BackendApiTester (api-testing.ts) *)
(* ================================================================== *)

(** The probes are modelled with the requests they send, the results
    they return and the token they store; what they print with
    [console.log] and [console.error] is left out. *)
Module BackendApiTester.
Import JS.

Inductive Method := GET | POST | PUT | DELETE.

(** A request as it leaves the interceptor.  [authorization = Some t]
    stands for the header [Authorization: Bearer ${t}]. *)
Record Request := mkRequest {
  method : Method;
  url : string;
  body : value;
  authorization : option value;
}.

Record Response := mkResponse {
  status : Z;
  data : value;
}.

(** What a [catch] clause receives: [error.message] and
    [error.response]. *)
Record Error := mkError {
  message : string;
  response : option Response;
}.

(** Outcome of awaiting [this.client.get/post/put/delete]. *)
Inductive Reply :=
| Resolved (r : Response)
| Rejected (e : Error).

(** The instance state: [this.authToken] and, for the proofs, the log
    of the requests sent so far (latest first). *)
Record Tester := mkTester {
  authToken : value;
  sent : list Request;
}.

(** [new BackendApiTester(baseUrl)] *)
Definition create : Tester := mkTester Undefined [].

(** Computations of the class: they read and write the instance and may
    throw. *)
Inductive Result (A : Type) :=
| Ok (a : A)
| Throw (e : Error).
Arguments Ok {A} a.
Arguments Throw {A} e.

Definition M (A : Type) : Type := Tester -> Result A * Tester.

Definition ret {A} (a : A) : M A := fun st => (Ok a, st).

Definition bind {A B} (m : M A) (k : A -> M B) : M B :=
  fun st =>
    match m st with
    | (Ok a, st') => k a st'
    | (Throw e, st') => (Throw e, st')
    end.

Definition throw {A} (e : Error) : M A := fun st => (Throw e, st).

(** [try { m } catch (error) { h error }] *)
Definition try_catch {A} (m : M A) (h : Error -> M A) : M A :=
  fun st =>
    match m st with
    | (Ok a, st') => (Ok a, st')
    | (Throw e, st') => h e st'
    end.

Notation "x <- m ;; k" := (bind m (fun x => k))
  (at level 61, m at next level, right associativity).
Notation "m ;;; k" := (bind m (fun _ => k))
  (at level 61, right associativity).

(** Property access that raises a TypeError on [undefined]/[null]. *)
Definition prop (v : value) (k : string) : M value :=
  match get v k with
  | Some x => ret x
  | None =>
      throw (mkError ("Cannot read properties of " ++ toString v ++
                      " (reading '" ++ k ++ "')") None)
  end.

Definition setAuthToken (t : value) : M unit :=
  fun st => (Ok tt, mkTester t (sent st)).

Section Client.

(** The backend (seen through axios): the earlier requests and the
    current one determine what the awaited call yields. *)
Variable backend : list Request -> Request -> Reply.

(** The request interceptor of the constructor. *)
Definition interceptor (st : Tester) (m : Method) (u : string) (b : value) : Request :=
  mkRequest m u b (if truthy (authToken st) then Some (authToken st) else None).

Definition request (m : Method) (u : string) (b : value) : M Response :=
  fun st =>
    let req := interceptor st m u b in
    let st' := mkTester (authToken st) (req :: sent st) in
    match backend (sent st) req with
    | Resolved r => (Ok r, st')
    | Rejected e => (Throw e, st')
    end.

Definition client_get (u : string) : M Response := request GET u Undefined.
Definition client_post (u : string) (b : value) : M Response := request POST u b.
Definition client_put (u : string) (b : value) : M Response := request PUT u b.
Definition client_delete (u : string) : M Response := request DELETE u Undefined.

(** ** testConnectivity *)
Definition testConnectivity : M bool :=
  try_catch
    (response <- client_get "/health" ;;
     ret (status response =? 200))
    (fun _ => ret false).

(** ** testAuthentication *)
Record AuthResult := mkAuthResult {
  auth_success : bool;
  auth_token : value;   (* [Undefined] when the property is absent *)
  auth_error : value;
}.

Definition error_response_data_message (e : Error) : value :=
  match response e with
  | None => Undefined
  | Some r =>
      match data r with
      | Undefined | Null => Undefined
      | d => get_opt d "message"
      end
  end.

Definition testAuthentication (credentials : value) : M AuthResult :=
  try_catch
    (response <- client_post "/auth/login" credentials ;;
     token <- prop (data response) "access_token" ;;
     if truthy token then
       setAuthToken token ;;;
       ret (mkAuthResult true token Undefined)
     else
       ret (mkAuthResult false Undefined (Str "No token received")))
    (fun error =>
       ret (mkAuthResult false Undefined
              (JS.or (error_response_data_message error) (Str (message error))))).

(** ** The endpoint groups *)
Record EndpointsResult := mkEndpointsResult {
  ep_success : bool;
  ep_results : list (string * bool);
  ep_errors : list string;
}.

(** The two locals [results] and [errors] of an endpoint probe. *)
Definition Locals : Type := (list (string * bool) * list string)%type.

(** One [try { r = await call; results[key] = r.status === expected }
    catch (error) { results[key] = false; errors.push(label + error.message) }]. *)
Definition check (call : M Response) (key : string) (expected : Z) (label : string)
    (l : Locals) : M Locals :=
  try_catch
    (r <- call ;;
     ret (JS.set key (status r =? expected) (fst l), snd l))
    (fun error =>
       ret (JS.set key false (fst l),
            (snd l ++ [(label ++ " failed: " ++ message error)%string])%list)).

Definition finish (l : Locals) : EndpointsResult :=
  mkEndpointsResult (forallb (fun b => b) (JS.values (fst l))) (fst l) (snd l).

Definition createData : value :=
  Obj [("name", Str "test-app");
       ("description", Str "Test application for integration testing");
       ("repository",
        Obj [("url", Str "https://github.com/test/test-app");
             ("branch", Str "main");
             ("provider", Str "github")])].

Definition updateData : value :=
  Obj [("description", Str "Updated description")].

(** The body of the second [try] of [testApplicationEndpoints]; the
    locals are passed on also when it throws, as the assignments made
    before the exception stay. *)
Definition createBlock (l : Locals) : Tester -> Result unit * Locals * Tester :=
  fun st =>
    match client_post "/api/v1/applications" createData st with
    | (Throw e, st1) => (Throw e, l, st1)
    | (Ok createResponse, st1) =>
        let l1 := (JS.set "createApplication" (status createResponse =? 201) (fst l), snd l) in
        match prop (data createResponse) "data" st1 with
        | (Throw e, st2) => (Throw e, l1, st2)
        | (Ok d, st2) =>
            let appId := get_opt d "id" in
            if truthy appId then
              let path := "/api/v1/applications/" ++ toString appId in
              match check (client_get path) "getApplication" 200 "Get application" l1 st2 with
              | (Throw e, st3) => (Throw e, l1, st3)
              | (Ok l2, st3) =>
                  match check (client_put path updateData) "updateApplication" 200
                          "Update application" l2 st3 with
                  | (Throw e, st4) => (Throw e, l2, st4)
                  | (Ok l3, st4) =>
                      match check (client_delete path) "deleteApplication" 200
                              "Delete application" l3 st4 with
                      | (Throw e, st5) => (Throw e, l3, st5)
                      | (Ok l4, st5) => (Ok tt, l4, st5)
                      end
                  end
              end
            else (Ok tt, l1, st2)
        end
    end.

Definition testApplicationEndpoints : M EndpointsResult :=
  l1 <- check (client_get "/api/v1/applications") "listApplications" 200
          "List applications" ([], []) ;;
  fun st =>
    match createBlock l1 st with
    | (Ok _, l2, st') => (Ok (finish l2), st')
    | (Throw error, l2, st') =>
        (Ok (finish (JS.set "createApplication" false (fst l2),
                     (snd l2 ++ [("Create application failed: " ++ message error)%string])%list)),
         st')
    end.

Definition testDeploymentEndpoints : M EndpointsResult :=
  l1 <- check (client_get "/api/v1/deployments") "listDeployments" 200
          "List deployments" ([], []) ;;
  ret (finish l1).

Definition testAIEndpoints : M EndpointsResult :=
  l1 <- check (client_get "/api/v1/ai/insights") "getInsights" 200
          "Get AI insights" ([], []) ;;
  l2 <- check (client_get "/api/v1/ai/recommendations") "getRecommendations" 200
          "Get AI recommendations" l1 ;;
  ret (finish l2).

(** ** testGraphQLEndpoint *)
Record GraphQLResult := mkGraphQLResult {
  gql_success : bool;
  gql_error : value;
}.

(** [{ query }], the query being the template literal of the source
    with its line breaks and indentation. *)
Definition graphqlQuery : value :=
  Obj [("query", Str "
        query {
          applications {
            id
            name
            status
          }
        }
      ")].

Definition testGraphQLEndpoint : M GraphQLResult :=
  try_catch
    (response <- client_post "/graphql" graphqlQuery ;;
     success <- (if status response =? 200
                 then errs <- prop (data response) "errors" ;; ret (negb (truthy errs))
                 else ret false) ;;
     errs <- prop (data response) "errors" ;;
     ret (mkGraphQLResult success (get_opt (first_opt errs) "message")))
    (fun error => ret (mkGraphQLResult false (Str (message error)))).

(** ** runFullIntegrationTest *)

(** The [results] record; a category that was never assigned is [None]. *)
Record Results := mkResults {
  connectivity : bool;
  authentication : option AuthResult;
  applications : option EndpointsResult;
  deployments : option EndpointsResult;
  ai : option EndpointsResult;
  graphql : option GraphQLResult;
}.

Record FullResult := mkFullResult {
  success : bool;
  results : Results;
  summary : string;
}.

Definition defaultCredentials : value :=
  Obj [("username", Str "admin"); ("password", Str "admin123")].

(** The three summaries.  The literals of the second and third start
    with a pictograph and a blank in the source; they are left out here,
    as characters above 255 are outside the string model. *)
Definition summary_unreachable : string :=
  "Backend is not accessible. Please ensure ultimate-paas-base is running.".
Definition summary_pass : string :=
  "All integration tests passed! Frontend is ready to connect to backend.".
Definition summary_fail : string :=
  "Some integration tests failed. Please check the backend configuration.".

Definition runFullIntegrationTest : M FullResult :=
  conn <- testConnectivity ;;
  if negb conn then
    ret (mkFullResult false (mkResults conn None None None None None)
           summary_unreachable)
  else
    auth <- testAuthentication defaultCredentials ;;
    apps <- testApplicationEndpoints ;;
    deps <- testDeploymentEndpoints ;;
    aiR <- testAIEndpoints ;;
    gql <- testGraphQLEndpoint ;;
    let overallSuccess :=
      conn && auth_success auth && ep_success apps && ep_success deps in
    ret (mkFullResult overallSuccess
           (mkResults conn (Some auth) (Some apps) (Some deps) (Some aiR) (Some gql))
           (if overallSuccess then summary_pass else summary_fail)).

End Client.

(** ** The results as the JavaScript objects the runner stores

    A property holding [undefined] and an absent property are not told
    apart: neither is serialised. *)
Definition AuthResult_toJS (a : AuthResult) : value :=
  Obj [("success", Bool (auth_success a));
       ("token", auth_token a);
       ("error", auth_error a)].

Definition EndpointsResult_toJS (e : EndpointsResult) : value :=
  Obj [("success", Bool (ep_success e));
       ("results", Obj (map (fun kv => (fst kv, Bool (snd kv))) (ep_results e)));
       ("errors", Arr (map Str (ep_errors e)))].

Definition GraphQLResult_toJS (g : GraphQLResult) : value :=
  Obj [("success", Bool (gql_success g)); ("error", gql_error g)].

Definition option_toJS {A} (f : A -> value) (o : option A) : value :=
  match o with Some a => f a | None => Undefined end.

Definition Results_toJS (r : Results) : value :=
  Obj [("connectivity", Bool (connectivity r));
       ("authentication", option_toJS AuthResult_toJS (authentication r));
       ("applications", option_toJS EndpointsResult_toJS (applications r));
       ("deployments", option_toJS EndpointsResult_toJS (deployments r));
       ("ai", option_toJS EndpointsResult_toJS (ai r));
       ("graphql", option_toJS GraphQLResult_toJS (graphql r))].

Definition FullResult_fields (r : FullResult) : list (string * value) :=
  [("success", Bool (success r));
   ("results", Results_toJS (results r));
   ("summary", Str (summary r))].

End BackendApiTester.

(* ================================================================== *)
(** * IntegrationTestRunner (test-integration.js, in e2e/integration.spec.ts) *)
(* ================================================================== *)

Module IntegrationTestRunner.
Import JS.

(** ** Child processes and the start-up promises *)

(** What a spawned child can deliver to the handlers registered on it. *)
Inductive ChildEvent :=
| Stdout (chunk : string)
| Stderr (chunk : string)
| ErrorEvent (msg : string).

Inductive Promise :=
| Pending
| Fulfilled
| Rejected (reason : string).

(** [resolve()] and [reject(e)] act on a pending promise only. *)
Definition settle (p new : Promise) : Promise :=
  match p with Pending => new | _ => p end.

(** The closure state of a start-up: the local [output] and the promise. *)
Record Startup := mkStartup {
  output : string;
  promise : Promise;
}.

Definition startup_init : Startup := mkStartup EmptyString Pending.

(** What a child does: its events in the order the event loop
    dispatches them, each with the time in milliseconds since the
    spawn. *)
Definition Child : Type := list (Z * ChildEvent).

(** The events dispatched before the timer of [ms] milliseconds fires,
    and those dispatched afterwards. *)
Definition before_timeout (ms : Z) (c : Child) : list ChildEvent :=
  map snd (filter (fun te => fst te <? ms) c).

Definition after_timeout (ms : Z) (c : Child) : list ChildEvent :=
  map snd (filter (fun te => ms <=? fst te) c).

Definition backend_banner : string := "Uvicorn running on".
Definition frontend_banner : string := "Ready in".
Definition frontend_port : string := "3000".
Definition backend_timeout_ms : Z := 30000.
Definition frontend_timeout_ms : Z := 60000.

Definition backend_on_event (s : Startup) (e : ChildEvent) : Startup :=
  match e with
  | Stdout d =>
      let out := (output s ++ d)%string in
      mkStartup out
        (if includes out backend_banner then settle (promise s) Fulfilled
         else promise s)
  | Stderr _ => s
  | ErrorEvent m =>
      mkStartup (output s)
        (settle (promise s) (Rejected ("Failed to start backend: " ++ m)))
  end.

Definition backend_on_timeout (s : Startup) : Startup :=
  if negb (includes (output s) backend_banner) then
    mkStartup (output s)
      (settle (promise s) (Rejected "Backend failed to start within 30 seconds"))
  else s.

Definition frontend_on_event (s : Startup) (e : ChildEvent) : Startup :=
  match e with
  | Stdout d =>
      let out := (output s ++ d)%string in
      mkStartup out
        (if includes out frontend_banner && includes out frontend_port
         then settle (promise s) Fulfilled
         else promise s)
  | Stderr _ => s
  | ErrorEvent m =>
      mkStartup (output s)
        (settle (promise s) (Rejected ("Failed to start frontend: " ++ m)))
  end.

Definition frontend_on_timeout (s : Startup) : Startup :=
  if negb (includes (output s) frontend_banner) then
    mkStartup (output s)
      (settle (promise s) (Rejected "Frontend failed to start within 60 seconds"))
  else s.

(** The start-up after every event of the child has been handled; the
    callback of [setTimeout(..., ms)] runs in between. *)
Definition startup_run (on_event : Startup -> ChildEvent -> Startup)
    (on_timeout : Startup -> Startup) (ms : Z) (c : Child) : Startup :=
  fold_left on_event (after_timeout ms c)
    (on_timeout (fold_left on_event (before_timeout ms c) startup_init)).

Definition startBackend_promise (c : Child) : Promise :=
  promise (startup_run backend_on_event backend_on_timeout backend_timeout_ms c).

Definition startFrontend_promise (c : Child) : Promise :=
  promise (startup_run frontend_on_event frontend_on_timeout frontend_timeout_ms c).

(** ** waitForUrl *)

(** One iteration of the polling loop as the environment shapes it: how
    the target answers the GET (with a 2xx status or not, and after how
    many milliseconds), and by how many milliseconds the two timers of
    the iteration fire late, the request timeout of axios and the
    [setTimeout] of the pause.  A timer never fires early. *)
Record Attempt := mkAttempt {
  responds_2xx : bool;
  latency : N;
  timeout_lag : N;
  pause_lag : N;
}.

Definition request_timeout_ms : Z := 5000.
Definition poll_interval_ms : Z := 1000.

(** [axios.get(url, { timeout: 5000 })]: whether it resolves, and the
    time it takes.  The request is aborted when its timer fires, 5000 ms
    after the start or later. *)
Definition axios_get (a : Attempt) : bool * Z :=
  let limit := request_timeout_ms + Z.of_N (timeout_lag a) in
  if Z.of_N (latency a) <? limit
  then (responds_2xx a, Z.of_N (latency a))
  else (false, limit).

(** [await new Promise(resolve => setTimeout(resolve, 1000))]: the time
    it takes. *)
Definition pause (a : Attempt) : Z := poll_interval_ms + Z.of_N (pause_lag a).

Inductive WaitResult :=
| Ready
| NotReady (message : string).

(** The [while] loop; [now] is the reading of [Date.now()], [i] counts
    the attempts made. *)
Fixpoint waitForUrl_loop (fuel : nat) (polls : nat -> Attempt) (url : string)
    (timeout start now : Z) (i : nat) : option (WaitResult * Z) :=
  match fuel with
  | O => None
  | S fuel' =>
      if now - start <? timeout then
        let (ok, d) := axios_get (polls i) in
        if ok then Some (Ready, now + d)
        else waitForUrl_loop fuel' polls url timeout start
               (now + d + pause (polls i)) (S i)
      else
        Some (NotReady ("Service at " ++ url ++ " not ready within " ++
                        NilZero.string_of_int (Z.to_int timeout) ++ "ms"), now)
  end.

(** [waitForUrl(url, timeout)] called at time [now]: the result and the
    time at which it is delivered.  The fuel covers every iteration the
    loop can make, each taking a poll interval at least. *)
Definition waitForUrl (polls : nat -> Attempt) (url : string) (timeout now : Z)
    : option (WaitResult * Z) :=
  waitForUrl_loop (Z.to_nat (timeout / poll_interval_ms) + 2) polls url
    timeout now now 0.

(** ** The runner *)

Inductive Proc := BackendProc | FrontendProc.

Record TestResults := mkTestResults {
  backend : list (string * value);
  frontend : list (string * value);
  integration : list (string * value);
  e2e : list (string * value);
}.

Definition TestResults_toJS (t : TestResults) : value :=
  Obj [("backend", Obj (backend t));
       ("frontend", Obj (frontend t));
       ("integration", Obj (integration t));
       ("e2e", Obj (e2e t))].

(** The instance fields, followed by what the run does to the outside:
    the processes spawned and killed, the calls of [cleanup], the
    summary lines printed by [generateReport], the report file. *)
Record Runner := mkRunner {
  backendProcess : option Proc;
  frontendProcess : option Proc;
  testResults : TestResults;
  spawned : list Proc;
  killed : list Proc;
  cleanups : nat;
  console : list string;
  reportFile : option string;
}.

(** [new IntegrationTestRunner()] *)
Definition create : Runner :=
  mkRunner None None (mkTestResults [] [] [] []) [] [] 0 [] None.

Inductive CmdResult :=
| CmdOk (stdout : string)
| CmdError (message : string).

(** Everything outside the runner that a run depends on. *)
Record Env := mkEnv {
  backendDirExists : bool;
  requirementsExists : bool;
  nodeModulesExists : bool;
  npmInstall : CmdResult;
  backendChild : Child;
  frontendChild : Child;
  (** [require('./packages/testing/src/api-testing')]: the message of
      the error it throws, or the backend the tester talks to *)
  apiTesting : string + (list BackendApiTester.Request ->
                         BackendApiTester.Request -> BackendApiTester.Reply);
  npmTest : CmdResult;
  clockAtWait : Z;
  healthPolls : nat -> Attempt;
  frontendPolls : nat -> Attempt;
  playwright : CmdResult;
  (** the message of the error [fs.writeFileSync] throws, if it does *)
  writeError : option string;
}.

(** A computation of the runner: it completes, throws, ends the process
    ([process.exit]) or waits for ever on a promise that never settles. *)
Inductive Outcome (A : Type) :=
| Done (a : A)
| Thrown (message : string)
| Exited (code : Z)
| Hung.
Arguments Done {A} a.
Arguments Thrown {A} message.
Arguments Exited {A} code.
Arguments Hung {A}.

Definition R (A : Type) : Type := Runner -> Outcome A * Runner.

Definition ret {A} (a : A) : R A := fun st => (Done a, st).

Definition bind {A B} (m : R A) (k : A -> R B) : R B :=
  fun st =>
    match m st with
    | (Done a, st') => k a st'
    | (Thrown e, st') => (Thrown e, st')
    | (Exited c, st') => (Exited c, st')
    | (Hung, st') => (Hung, st')
    end.

Notation "x <- m ;; k" := (bind m (fun x => k))
  (at level 61, m at next level, right associativity).
Notation "m ;;; k" := (bind m (fun _ => k))
  (at level 61, right associativity).

Definition throw {A} (msg : string) : R A := fun st => (Thrown msg, st).

(** [process.exit(code)] ends the process on the spot: nothing of the
    program runs after it, pending [finally] blocks included. *)
Definition process_exit {A} (code : Z) : R A := fun st => (Exited code, st).

(** [await p] *)
Definition await (p : Promise) : R unit :=
  match p with
  | Fulfilled => ret tt
  | Rejected reason => throw reason
  | Pending => fun st => (Hung, st)
  end.

(** [try { m } catch (error) { h error.message }] *)
Definition try_catch {A} (m : R A) (h : string -> R A) : R A :=
  fun st =>
    match m st with
    | (Thrown e, st') => h e st'
    | r => r
    end.

(** [try { m } catch (error) { h error.message } finally { f }] *)
Definition try_catch_finally (m : R unit) (h : string -> R unit) (f : R unit) : R unit :=
  fun st =>
    match try_catch m h st with
    | (Done a, st') => f st'
    | (Thrown e, st') =>
        match f st' with
        | (Done _, st'') => (Thrown e, st'')
        | r => r
        end
    | (Exited c, st') => (Exited c, st')
    | (Hung, st') => (Hung, st')
    end.

Definition modify (g : Runner -> Runner) : R unit := fun st => (Done tt, g st).

Definition set_testResults (g : TestResults -> TestResults) (st : Runner) : Runner :=
  mkRunner (backendProcess st) (frontendProcess st) (g (testResults st))
    (spawned st) (killed st) (cleanups st) (console st) (reportFile st).

Definition log (line : string) : R unit :=
  modify (fun st =>
    mkRunner (backendProcess st) (frontendProcess st) (testResults st)
      (spawned st) (killed st) (cleanups st) (console st ++ [line]) (reportFile st)).

(** [proc.kill()] *)
Definition kill (p : Proc) : R unit :=
  modify (fun st =>
    mkRunner (backendProcess st) (frontendProcess st) (testResults st)
      (spawned st) (killed st ++ [p]) (cleanups st) (console st) (reportFile st)).

(** [execCommand(command)] *)
Definition execCommand (r : CmdResult) : R string :=
  match r with
  | CmdOk out => ret out
  | CmdError msg => throw msg
  end.

Section Run.

Variable env : Env.

Definition checkPrerequisites : R unit :=
  if negb (backendDirExists env) then
    throw "Backend directory not found. Please ensure ultimate-paas-base exists in parent directory."
  else if negb (requirementsExists env) then
    throw "Backend requirements.txt not found. Please ensure backend is properly set up."
  else if negb (nodeModulesExists env) then
    execCommand (npmInstall env) ;;; ret tt
  else ret tt.

Definition startBackend : R unit :=
  modify (fun st =>
    mkRunner (Some BackendProc) (frontendProcess st) (testResults st)
      (spawned st ++ [BackendProc]) (killed st) (cleanups st) (console st)
      (reportFile st)) ;;;
  await (startBackend_promise (backendChild env)).

Definition startFrontend : R unit :=
  modify (fun st =>
    mkRunner (backendProcess st) (Some FrontendProc) (testResults st)
      (spawned st ++ [FrontendProc]) (killed st) (cleanups st) (console st)
      (reportFile st)) ;;;
  await (startFrontend_promise (frontendChild env)).

Definition failure (msg : string) : list (string * value) :=
  [("success", Bool false); ("error", Str msg)].

Definition set_integration (o : list (string * value)) : R unit :=
  modify (set_testResults (fun t =>
    mkTestResults (backend t) (frontend t) o (e2e t))).

Definition set_frontend (o : list (string * value)) : R unit :=
  modify (set_testResults (fun t =>
    mkTestResults (backend t) o (integration t) (e2e t))).

Definition set_e2e (o : list (string * value)) : R unit :=
  modify (set_testResults (fun t =>
    mkTestResults (backend t) (frontend t) (integration t) o)).

Definition runApiTests : R unit :=
  try_catch
    (match apiTesting env with
     | inl msg => throw msg
     | inr server =>
         match BackendApiTester.runFullIntegrationTest server BackendApiTester.create with
         | (BackendApiTester.Ok r, _) =>
             set_integration (BackendApiTester.FullResult_fields r)
         | (BackendApiTester.Throw e, _) => throw (BackendApiTester.message e)
         end
     end)
    (fun msg => set_integration (failure msg)).

Definition runFrontendTests : R unit :=
  try_catch
    (execCommand (npmTest env) ;;;
     modify (set_testResults (fun t =>
       mkTestResults (backend t) (JS.set "success" (Bool true) (frontend t))
         (integration t) (e2e t))))
    (fun msg => set_frontend (failure msg)).

Definition backendUrl : string := "http://localhost:8000".
Definition frontendUrl : string := "http://localhost:3000".
Definition default_timeout : Z := 30000.

(** [await this.waitForUrl(url)] started at time [now]; yields the time
    at which it returns. *)
Definition awaitUrl (polls : nat -> Attempt) (url : string) (now : Z) : R Z :=
  match waitForUrl polls url default_timeout now with
  | Some (Ready, t) => ret t
  | Some (NotReady msg, _) => throw msg
  | None => fun st => (Hung, st)
  end.

Definition waitForServices : R unit :=
  t <- awaitUrl (healthPolls env) (backendUrl ++ "/health") (clockAtWait env) ;;
  awaitUrl (frontendPolls env) frontendUrl t ;;;
  ret tt.

Definition runE2ETests : R unit :=
  try_catch
    (waitForServices ;;;
     execCommand (playwright env) ;;;
     modify (set_testResults (fun t =>
       mkTestResults (backend t) (frontend t) (integration t)
         (JS.set "success" (Bool true) (e2e t)))))
    (fun msg => set_e2e (failure msg)).

(** [result.success], [result.error] *)
Definition field (k : string) (o : list (string * value)) : value :=
  match JS.lookup k o with Some v => v | None => Undefined end.

(** The [results] array of [generateReport]. *)
Definition phases (t : TestResults) : list (string * list (string * value)) :=
  [("API Integration", integration t);
   ("Frontend Tests", frontend t);
   ("E2E Tests", e2e t)].

Definition status_line (r : string * list (string * value)) : string :=
  (fst r ++ ": " ++ (if truthy (field "success" (snd r)) then "PASS" else "FAIL"))%string.

Definition summary_lines (r : string * list (string * value)) : list string :=
  status_line r ::
  (if negb (truthy (field "success" (snd r))) && truthy (field "error" (snd r))
   then [("  Error: " ++ toString (field "error" (snd r)))%string]
   else []).

(** [results.every(r => r.result.success)] *)
Definition overallSuccess (t : TestResults) : bool :=
  forallb (fun r => truthy (field "success" (snd r))) (phases t).

(** Of the console output the model keeps the PASS/FAIL line of each
    phase, its error line and the line with the verdict, without the
    emoji that decorate them. *)
Definition all_passed_line : string := "All integration tests passed!".
Definition some_failed_line : string :=
  "Some tests failed. Please review the results above.".

Definition writeFileSync (content : option string) : R unit :=
  match writeError env, content with
  | Some msg, _ => throw msg
  | None, None => throw "The data argument must be of type string"
  | None, Some text =>
      modify (fun st =>
        mkRunner (backendProcess st) (frontendProcess st) (testResults st)
          (spawned st) (killed st) (cleanups st) (console st) (Some text))
  end.

Fixpoint log_all (lines : list string) : R unit :=
  match lines with
  | [] => ret tt
  | l :: ls => log l ;;; log_all ls
  end.

Definition generateReport : R unit :=
  fun st =>
    let t := testResults st in
    (log_all (flat_map summary_lines (phases t)) ;;;
     (if overallSuccess t then log all_passed_line else log some_failed_line) ;;;
     writeFileSync (Json.stringify (TestResults_toJS t))) st.

Definition cleanup : R unit :=
  fun st =>
    (modify (fun s =>
       mkRunner (backendProcess s) (frontendProcess s) (testResults s)
         (spawned s) (killed s) (S (cleanups s)) (console s) (reportFile s)) ;;;
     (match backendProcess st with Some p => kill p | None => ret tt end) ;;;
     (match frontendProcess st with Some p => kill p | None => ret tt end)) st.

Definition run : R unit :=
  try_catch_finally
    (checkPrerequisites ;;;
     startBackend ;;;
     startFrontend ;;;
     runApiTests ;;;
     runFrontendTests ;;;
     runE2ETests ;;;
     generateReport)
    (fun _ => process_exit 1)
    cleanup.

End Run.

End IntegrationTestRunner.

(* ================================================================== *)
(** * Properties of the API probes *)
(* ================================================================== *)

Local Open Scope list_scope.

Section ApiFacts.
Import JS BackendApiTester.

Variable server : list Request -> Request -> Reply.

(** The [Authorization] header that goes with a stored token. *)
Definition header_for (token : value) : option value :=
  if is_undefined token then None else Some token.

(** The stored token is either absent or a truthy value. *)
Definition token_ok (st : Tester) : Prop :=
  authToken st = Undefined \/ truthy (authToken st) = true.

(** A computation that only sends requests: the token stays, the log
    grows by requests that carry the interceptor's header. *)
Definition quiet {A} (m : M A) : Prop :=
  forall st, exists new,
    snd (m st) = mkTester (authToken st) (new ++ sent st) /\
    Forall (fun q => authorization q = authorization (interceptor st GET EmptyString Undefined)) new.

Lemma tester_eta st : mkTester (authToken st) (sent st) = st.
Proof. destruct st; reflexivity. Qed.

Lemma quiet_ret {A} (a : A) : quiet (ret a).
Proof. intro st; exists []; simpl; rewrite tester_eta; auto. Qed.

Lemma quiet_throw {A} e : quiet (@throw A e).
Proof. intro st; exists []; simpl; rewrite tester_eta; auto. Qed.

Lemma quiet_prop v k : quiet (prop v k).
Proof. unfold prop; destruct (get v k); [apply quiet_ret | apply quiet_throw]. Qed.

Lemma quiet_request m u b : quiet (request server m u b).
Proof.
  intro st; exists [interceptor st m u b]; unfold request.
  destruct (server _ _); simpl; split; auto.
Qed.

Lemma quiet_compose st new1 new2 st1 st2 :
  st1 = mkTester (authToken st) (new1 ++ sent st) ->
  Forall (fun q => authorization q = authorization (interceptor st GET EmptyString Undefined)) new1 ->
  st2 = mkTester (authToken st1) (new2 ++ sent st1) ->
  Forall (fun q => authorization q = authorization (interceptor st1 GET EmptyString Undefined)) new2 ->
  st2 = mkTester (authToken st) ((new2 ++ new1) ++ sent st) /\
  Forall (fun q => authorization q = authorization (interceptor st GET EmptyString Undefined)) (new2 ++ new1).
Proof.
  intros -> H1 -> H2; simpl in *; rewrite <- app_assoc; split; auto.
  apply Forall_app; split; auto.
Qed.

Lemma quiet_bind {A B} (m : M A) (k : A -> M B) :
  quiet m -> (forall a, quiet (k a)) -> quiet (bind m k).
Proof.
  intros Hm Hk st; unfold bind.
  destruct (Hm st) as (new1 & E1 & F1).
  destruct (m st) as [[a | e] st1]; simpl in E1.
  - destruct (Hk a st1) as (new2 & E2 & F2).
    exists (new2 ++ new1); eapply quiet_compose; eauto.
  - exists new1; simpl; auto.
Qed.

Lemma quiet_try_catch {A} (m : M A) (h : Error -> M A) :
  quiet m -> (forall e, quiet (h e)) -> quiet (try_catch m h).
Proof.
  intros Hm Hh st; unfold try_catch.
  destruct (Hm st) as (new1 & E1 & F1).
  destruct (m st) as [[a | e] st1]; simpl in E1.
  - exists new1; simpl; auto.
  - destruct (Hh e st1) as (new2 & E2 & F2).
    exists (new2 ++ new1); eapply quiet_compose; eauto.
Qed.

Lemma quiet_check call key expected label l :
  quiet call -> quiet (check call key expected label l).
Proof.
  intro H; unfold check; apply quiet_try_catch.
  - apply quiet_bind; auto; intro; apply quiet_ret.
  - intro; apply quiet_ret.
Qed.

(** A computation that cannot throw. *)
Definition total {A} (m : M A) : Prop :=
  forall st, exists a, fst (m st) = Ok a.

Lemma total_check call key expected label l :
  total (check call key expected label l).
Proof.
  intro st; unfold check, try_catch, bind, ret.
  destruct (call st) as [[r | e] st1]; simpl; eauto.
Qed.

Lemma total_testConnectivity : total (testConnectivity server).
Proof.
  intro st; unfold testConnectivity, try_catch, bind, ret, client_get, request.
  destruct (server _ _); simpl; eauto.
Qed.

Lemma total_testAuthentication credentials :
  total (testAuthentication server credentials).
Proof.
  intro st.
  unfold testAuthentication, try_catch, bind, ret, client_post, request, prop, throw,
    setAuthToken.
  destruct (server _ _) as [r | e]; simpl; eauto.
  destruct (get (data r) _) as [tok | ]; simpl; eauto.
  destruct (truthy tok); simpl; eauto.
Qed.

Lemma total_testApplicationEndpoints : total (testApplicationEndpoints server).
Proof.
  intro st; unfold testApplicationEndpoints, bind.
  destruct (total_check (client_get server "/api/v1/applications")
              "listApplications" 200 "List applications" ([], []) st) as (l1 & E).
  destruct (check _ _ _ _ _ st) as [r1 st1]; simpl in E; subst r1.
  destruct (createBlock server l1 st1) as [[[u | e] l2] st2]; simpl; eauto.
Qed.

Lemma total_testDeploymentEndpoints : total (testDeploymentEndpoints server).
Proof.
  intro st; unfold testDeploymentEndpoints, bind, ret.
  destruct (total_check (client_get server "/api/v1/deployments")
              "listDeployments" 200 "List deployments" ([], []) st) as (l1 & E).
  destruct (check _ _ _ _ _ st) as [r1 st1]; simpl in E; subst r1; simpl; eauto.
Qed.

Lemma total_testAIEndpoints : total (testAIEndpoints server).
Proof.
  intro st; unfold testAIEndpoints, bind, ret.
  destruct (total_check (client_get server "/api/v1/ai/insights")
              "getInsights" 200 "Get AI insights" ([], []) st) as (l1 & E).
  destruct (check _ _ _ _ _ st) as [r1 st1]; simpl in E; subst r1.
  destruct (total_check (client_get server "/api/v1/ai/recommendations")
              "getRecommendations" 200 "Get AI recommendations" l1 st1) as (l2 & E).
  destruct (check _ _ _ _ _ st1) as [r2 st2]; simpl in E; subst r2; simpl; eauto.
Qed.

Lemma total_testGraphQLEndpoint : total (testGraphQLEndpoint server).
Proof.
  intro st.
  unfold testGraphQLEndpoint, try_catch, bind, ret, client_post, request, prop, throw.
  destruct (server _ _) as [r | e]; simpl; eauto.
  destruct (status r =? 200); destruct (get (data r) _) as [errs | ]; simpl; eauto.
Qed.

End ApiFacts.

Section ProbeResults.
Import JS BackendApiTester.

Variable server : list Request -> Request -> Reply.

(** What the backend answers to the first request a probe sends from
    state [st]. *)
Definition first_reply (st : Tester) (m : Method) (u : string) (b : value) : Reply :=
  server (sent st) (interceptor st m u b).

(** What the backend answers to the create request of
    [testApplicationEndpoints] started in state [st]. *)
Definition create_reply (st : Tester) : Reply :=
  first_reply (snd (client_get server "/api/v1/applications" st))
    POST "/api/v1/applications" createData.

(** [createResponse.data.data?.id] is there and truthy. *)
Definition carries_id (rep : Reply) : bool :=
  match rep with
  | Resolved r => truthy (get_opt (get_opt (data r) "data") "id")
  | Rejected _ => false
  end.

Definition method_url (q : Request) : Method * string := (method q, url q).

(** The tester once the request has been sent from [st]. *)
Definition after_request (st : Tester) (m : Method) (u : string) (b : value) : Tester :=
  snd (request server m u b st).

(** [createResponse.data.data?.id] *)
Definition created_id (rep : Reply) : value :=
  match rep with
  | Resolved r => get_opt (get_opt (data r) "data") "id"
  | Rejected _ => Undefined
  end.

(** The URL of the application the create request made. *)
Definition application_path (rep : Reply) : string :=
  ("/api/v1/applications/" ++ toString (created_id rep))%string.

(** What the backend answers to the get, update and delete requests of
    [testApplicationEndpoints] started in state [st]: each request goes
    to the created application, from the state its predecessor left. *)
Definition get_state (st : Tester) : Tester :=
  after_request (after_request st GET "/api/v1/applications" Undefined)
    POST "/api/v1/applications" createData.

Definition get_reply (st : Tester) : Reply :=
  first_reply (get_state st) GET (application_path (create_reply st)) Undefined.

Definition update_state (st : Tester) : Tester :=
  after_request (get_state st) GET (application_path (create_reply st)) Undefined.

Definition update_reply (st : Tester) : Reply :=
  first_reply (update_state st) PUT (application_path (create_reply st)) updateData.

Definition delete_state (st : Tester) : Tester :=
  after_request (update_state st) PUT (application_path (create_reply st)) updateData.

Definition delete_reply (st : Tester) : Reply :=
  first_reply (delete_state st) DELETE (application_path (create_reply st)) Undefined.

(** What the backend answers to the second request of
    [testAIEndpoints] started in state [st]. *)
Definition recommendations_reply (st : Tester) : Reply :=
  first_reply (after_request st GET "/api/v1/ai/insights" Undefined)
    GET "/api/v1/ai/recommendations" Undefined.

(** An endpoint probe recorded the failure of the request behind [key]:
    the probe returns, does not succeed, has [false] under [key] and the
    text of the error, after [label], among its errors. *)
Definition records_failure (out : Result EndpointsResult) (key label : string)
    (e : Error) : Prop :=
  exists r,
    out = Ok r /\
    ep_success r = false /\
    JS.lookup key (ep_results r) = Some false /\
    In (label ++ " failed: " ++ message e)%string (ep_errors r).

Ltac run_probe :=
  unfold create_reply, first_reply, carries_id,
    testConnectivity, testAuthentication, testApplicationEndpoints,
    testDeploymentEndpoints, testAIEndpoints, testGraphQLEndpoint, createBlock,
    check, finish, try_catch, bind, ret, throw, prop, setAuthToken, get_opt,
    client_get, client_post, client_put, client_delete, request;
  simpl.

Ltac split_reply :=
  match goal with
  | |- context [match server ?h ?q with _ => _ end] =>
      let r := fresh "r" in let e := fresh "e" in
      let E := fresh "E" in
      destruct (server h q) as [r | e] eqn:E; simpl
  | |- context [match get ?v ?k with _ => _ end] =>
      let E := fresh "E" in destruct (get v k) eqn:E; simpl
  | |- context [if truthy ?v then _ else _] =>
      let E := fresh "E" in destruct (truthy v) eqn:E; simpl
  end.

Ltac prefix_of l base :=
  match l with
  | base => constr:(@nil Request)
  | ?x :: ?l' => let p := prefix_of l' base in constr:(x :: p)
  end.

(** Reads the requests a probe added to the log off the final state. *)
Ltac new_requests :=
  match goal with
  | |- (_, mkTester _ ?l) = (_, mkTester _ (?n ++ ?base)) =>
      let p := prefix_of l base in unify n p; reflexivity
  end.

(** C6, first half: a transport error on a probe's request comes back
    as a failure result carrying the text of the error. *)
Lemma probes_report_transport_errors (st : Tester) (credentials : value) (e : Error) :
  (first_reply st GET "/health" Undefined = Rejected e ->
   fst (testConnectivity server st) = Ok false) /\
  (first_reply st POST "/auth/login" credentials = Rejected e ->
   fst (testAuthentication server credentials st) =
     Ok (mkAuthResult false Undefined
           (JS.or (error_response_data_message e) (Str (message e))))) /\
  (first_reply st GET "/api/v1/applications" Undefined = Rejected e ->
   exists r, fst (testApplicationEndpoints server st) = Ok r /\
     ep_success r = false /\
     JS.lookup "listApplications" (ep_results r) = Some false /\
     In ("List applications failed: " ++ message e)%string (ep_errors r)) /\
  (first_reply st GET "/api/v1/deployments" Undefined = Rejected e ->
   fst (testDeploymentEndpoints server st) =
     Ok (mkEndpointsResult false [("listDeployments", false)]
           [("List deployments failed: " ++ message e)%string])) /\
  (first_reply st GET "/api/v1/ai/insights" Undefined = Rejected e ->
   exists r, fst (testAIEndpoints server st) = Ok r /\
     ep_success r = false /\
     JS.lookup "getInsights" (ep_results r) = Some false /\
     In ("Get AI insights failed: " ++ message e)%string (ep_errors r)) /\
  (first_reply st POST "/graphql" graphqlQuery = Rejected e ->
   fst (testGraphQLEndpoint server st) = Ok (mkGraphQLResult false (Str (message e)))).
Proof.
  repeat split; run_probe; intros ->; simpl; try reflexivity.
  - repeat split_reply; eexists; repeat split; simpl; auto.
  - repeat split_reply; eexists; repeat split; simpl; auto.
Qed.

(** What one guarded request of an endpoint probe does to the locals
    [results] and [errors], given the reply to it. *)
Definition record (key : string) (expected : Z) (label : string) (rep : Reply)
    (l : Locals) : Locals :=
  match rep with
  | Resolved r => (JS.set key (status r =? expected) (fst l), snd l)
  | Rejected e =>
      (JS.set key false (fst l), snd l ++ [(label ++ " failed: " ++ message e)%string])
  end.

Lemma after_request_eq st m u b :
  after_request st m u b = mkTester (authToken st) (interceptor st m u b :: sent st).
Proof. unfold after_request, request; destruct (server _ _); reflexivity. Qed.

Lemma check_request m u b key expected label l st :
  check (request server m u b) key expected label l st =
    (Ok (record key expected label (first_reply st m u b) l), after_request st m u b).
Proof.
  rewrite after_request_eq.
  unfold check, try_catch, bind, ret, request, first_reply, record.
  destruct (server _ _); reflexivity.
Qed.

Lemma lookup_set_same {A} k (v : A) fs : JS.lookup k (JS.set k v fs) = Some v.
Proof.
  induction fs as [| [k' v'] fs IH]; cbn [JS.set JS.lookup].
  - rewrite String.eqb_refl; reflexivity.
  - destruct (k' =? k)%string eqn:E; cbn [JS.lookup]; rewrite E; auto.
Qed.

Lemma lookup_set_other {A} k k' (v : A) fs :
  (k' =? k)%string = false -> JS.lookup k (JS.set k' v fs) = JS.lookup k fs.
Proof.
  intro N; induction fs as [| [k0 v0] fs IH]; cbn [JS.set JS.lookup].
  - rewrite N; reflexivity.
  - destruct (k0 =? k')%string eqn:E; cbn [JS.lookup].
    + apply String.eqb_eq in E; subst k0; rewrite N; reflexivity.
    + destruct (k0 =? k)%string; auto.
Qed.

Lemma lookup_false_not_all k fs :
  JS.lookup k fs = Some false -> forallb (fun b : bool => b) (JS.values fs) = false.
Proof.
  unfold JS.values; induction fs as [| [k' v'] fs IH]; cbn [JS.lookup map forallb];
    [discriminate |].
  destruct (k' =? k)%string.
  - intros [= ->]; reflexivity.
  - intro H; rewrite (IH H); apply andb_false_r.
Qed.

Lemma record_rejected key expected label e l :
  JS.lookup key (fst (record key expected label (Rejected e) l)) = Some false /\
  In (label ++ " failed: " ++ message e)%string
    (snd (record key expected label (Rejected e) l)).
Proof.
  cbn [record fst snd]; split; [apply lookup_set_same |].
  apply in_or_app; right; left; reflexivity.
Qed.

Lemma record_keeps key key' expected label rep l msg :
  (key' =? key)%string = false ->
  JS.lookup key (fst l) = Some false /\ In msg (snd l) ->
  JS.lookup key (fst (record key' expected label rep l)) = Some false /\
  In msg (snd (record key' expected label rep l)).
Proof.
  intros N [H1 H2]; destruct rep; cbn [record fst snd];
    rewrite (lookup_set_other _ _ _ _ N); split; auto.
  apply in_or_app; left; exact H2.
Qed.

Lemma finish_records_failure l key label e :
  JS.lookup key (fst l) = Some false /\
  In (label ++ " failed: " ++ message e)%string (snd l) ->
  records_failure (Ok (finish l)) key label e.
Proof.
  intros [H1 H2]; exists (finish l); unfold finish; cbn [ep_success ep_results ep_errors].
  split; [reflexivity |]; split; [exact (lookup_false_not_all _ _ H1) |]; auto.
Qed.

(** The locals of [testApplicationEndpoints] after its first request. *)
Definition listed (st : Tester) : Locals :=
  record "listApplications" 200 "List applications"
    (first_reply st GET "/api/v1/applications" Undefined) ([], []).

Lemma request_eq m u b st :
  request server m u b st =
    (match first_reply st m u b with Resolved r => Ok r | Rejected e => Throw e end,
     after_request st m u b).
Proof.
  rewrite after_request_eq; unfold request, first_reply.
  destruct (server _ _); reflexivity.
Qed.

Lemma create_reply_eq st :
  first_reply (after_request st GET "/api/v1/applications" Undefined)
    POST "/api/v1/applications" createData = create_reply st.
Proof. reflexivity. Qed.

(** [testApplicationEndpoints] when the create request is rejected. *)
Lemma applications_create_rejected st e :
  create_reply st = Rejected e ->
  fst (testApplicationEndpoints server st) =
    Ok (finish (JS.set "createApplication" false (fst (listed st)),
                snd (listed st) ++ [("Create application failed: " ++ message e)%string])).
Proof.
  intro E; unfold testApplicationEndpoints, bind, client_get.
  rewrite check_request; fold (listed st).
  unfold createBlock, client_post.
  rewrite request_eq, create_reply_eq, E; reflexivity.
Qed.

(** [testApplicationEndpoints] when the create response carries an id:
    the three requests that follow are each recorded from their own
    reply. *)
Lemma applications_with_id st :
  carries_id (create_reply st) = true ->
  exists r,
    create_reply st = Resolved r /\
    fst (testApplicationEndpoints server st) =
      Ok (finish
            (record "deleteApplication" 200 "Delete application" (delete_reply st)
               (record "updateApplication" 200 "Update application" (update_reply st)
                  (record "getApplication" 200 "Get application" (get_reply st)
                     (JS.set "createApplication" (status r =? 201) (fst (listed st)),
                      snd (listed st)))))).
Proof.
  intro Hid; destruct (create_reply st) as [r | e] eqn:E; [| discriminate Hid].
  exists r; split; [reflexivity |].
  cbn [carries_id] in Hid.
  unfold testApplicationEndpoints, bind, client_get.
  rewrite check_request; fold (listed st).
  unfold createBlock, client_post.
  rewrite request_eq, create_reply_eq, E.
  fold (get_state st).
  unfold prop.
  destruct (get (data r) "data") as [d |] eqn:Ed;
    [| unfold get_opt at 2 in Hid; rewrite Ed in Hid; discriminate Hid].
  assert (Hd : get_opt (data r) "data" = d) by (unfold get_opt; rewrite Ed; reflexivity).
  rewrite Hd in Hid; cbn [ret]; rewrite Hid.
  assert (Hp : ("/api/v1/applications/" ++ toString (get_opt d "id"))%string =
               application_path (create_reply st))
    by (rewrite E; unfold application_path; cbn [created_id]; rewrite Hd; reflexivity).
  rewrite Hp.
  unfold client_get, client_put, client_delete.
  rewrite check_request; fold (get_reply st) (update_state st).
  rewrite check_request; fold (update_reply st) (delete_state st).
  rewrite check_request; fold (delete_reply st).
  reflexivity.
Qed.

(** [testAIEndpoints]: both requests are recorded from their replies. *)
Lemma ai_results st :
  fst (testAIEndpoints server st) =
    Ok (finish
          (record "getRecommendations" 200 "Get AI recommendations"
             (recommendations_reply st)
             (record "getInsights" 200 "Get AI insights"
                (first_reply st GET "/api/v1/ai/insights" Undefined) ([], [])))).
Proof.
  unfold testAIEndpoints, bind, client_get, recommendations_reply.
  rewrite !check_request; reflexivity.
Qed.

(** C6, second half: the same holds for every later request of the two
    probes that send several: the create, get, update and delete
    requests of the application probe and the second request of the AI
    probe. *)
Lemma probes_report_later_transport_errors (st : Tester) (e : Error) :
  (create_reply st = Rejected e ->
   records_failure (fst (testApplicationEndpoints server st))
     "createApplication" "Create application" e) /\
  (carries_id (create_reply st) = true -> get_reply st = Rejected e ->
   records_failure (fst (testApplicationEndpoints server st))
     "getApplication" "Get application" e) /\
  (carries_id (create_reply st) = true -> update_reply st = Rejected e ->
   records_failure (fst (testApplicationEndpoints server st))
     "updateApplication" "Update application" e) /\
  (carries_id (create_reply st) = true -> delete_reply st = Rejected e ->
   records_failure (fst (testApplicationEndpoints server st))
     "deleteApplication" "Delete application" e) /\
  (recommendations_reply st = Rejected e ->
   records_failure (fst (testAIEndpoints server st))
     "getRecommendations" "Get AI recommendations" e).
Proof.
  split; [| split; [| split; [| split]]].
  - intro H; rewrite (applications_create_rejected st e H).
    apply finish_records_failure; cbn [fst snd]; split; [apply lookup_set_same |].
    apply in_or_app; right; left; reflexivity.
  - intros Hid H; destruct (applications_with_id st Hid) as (r & _ & ->); rewrite H.
    apply finish_records_failure.
    apply record_keeps; [reflexivity |].
    apply record_keeps; [reflexivity |].
    apply record_rejected.
  - intros Hid H; destruct (applications_with_id st Hid) as (r & _ & ->); rewrite H.
    apply finish_records_failure.
    apply record_keeps; [reflexivity |].
    apply record_rejected.
  - intros Hid H; destruct (applications_with_id st Hid) as (r & _ & ->); rewrite H.
    apply finish_records_failure.
    apply record_rejected.
  - intro H; rewrite ai_results, H.
    apply finish_records_failure.
    apply record_rejected.
Qed.

(** C6: no probe of [BackendApiTester] throws, whatever the backend
    answers and whatever state the tester is in: each returns a result.
    When the transport rejects a request of a probe with error [e], the
    result is a failure: [false] for connectivity, [success: false] with
    [e.response?.data?.message || e.message] for authentication,
    [success: false] with [e.message] for GraphQL, and for the endpoint
    groups [success: false], a [false] entry under the key of the
    request and [e.message] recorded in [errors].  This holds for each
    of the eleven requests the probes send: the first request of every
    probe, the create, get, update and delete requests of the
    application probe (the last three are sent when the create response
    carries an id) and the second request of the AI probe. *)
Theorem C6_probes_never_throw (st : Tester) (credentials : value) :
  (exists b, fst (testConnectivity server st) = Ok b) /\
  (exists r, fst (testAuthentication server credentials st) = Ok r) /\
  (exists r, fst (testApplicationEndpoints server st) = Ok r) /\
  (exists r, fst (testDeploymentEndpoints server st) = Ok r) /\
  (exists r, fst (testAIEndpoints server st) = Ok r) /\
  (exists r, fst (testGraphQLEndpoint server st) = Ok r) /\
  (forall e,
     (first_reply st GET "/health" Undefined = Rejected e ->
      fst (testConnectivity server st) = Ok false) /\
     (first_reply st POST "/auth/login" credentials = Rejected e ->
      fst (testAuthentication server credentials st) =
        Ok (mkAuthResult false Undefined
              (JS.or (error_response_data_message e) (Str (message e))))) /\
     (first_reply st GET "/api/v1/applications" Undefined = Rejected e ->
      exists r, fst (testApplicationEndpoints server st) = Ok r /\
        ep_success r = false /\
        JS.lookup "listApplications" (ep_results r) = Some false /\
        In ("List applications failed: " ++ message e)%string (ep_errors r)) /\
     (first_reply st GET "/api/v1/deployments" Undefined = Rejected e ->
      fst (testDeploymentEndpoints server st) =
        Ok (mkEndpointsResult false [("listDeployments", false)]
              [("List deployments failed: " ++ message e)%string])) /\
     (first_reply st GET "/api/v1/ai/insights" Undefined = Rejected e ->
      exists r, fst (testAIEndpoints server st) = Ok r /\
        ep_success r = false /\
        JS.lookup "getInsights" (ep_results r) = Some false /\
        In ("Get AI insights failed: " ++ message e)%string (ep_errors r)) /\
     (first_reply st POST "/graphql" graphqlQuery = Rejected e ->
      fst (testGraphQLEndpoint server st) =
        Ok (mkGraphQLResult false (Str (message e)))) /\
     (create_reply st = Rejected e ->
      records_failure (fst (testApplicationEndpoints server st))
        "createApplication" "Create application" e) /\
     (carries_id (create_reply st) = true -> get_reply st = Rejected e ->
      records_failure (fst (testApplicationEndpoints server st))
        "getApplication" "Get application" e) /\
     (carries_id (create_reply st) = true -> update_reply st = Rejected e ->
      records_failure (fst (testApplicationEndpoints server st))
        "updateApplication" "Update application" e) /\
     (carries_id (create_reply st) = true -> delete_reply st = Rejected e ->
      records_failure (fst (testApplicationEndpoints server st))
        "deleteApplication" "Delete application" e) /\
     (recommendations_reply st = Rejected e ->
      records_failure (fst (testAIEndpoints server st))
        "getRecommendations" "Get AI recommendations" e)).
Proof.
  split; [apply total_testConnectivity |].
  split; [apply total_testAuthentication |].
  split; [apply total_testApplicationEndpoints |].
  split; [apply total_testDeploymentEndpoints |].
  split; [apply total_testAIEndpoints |].
  split; [apply total_testGraphQLEndpoint |].
  intro e.
  destruct (probes_report_transport_errors st credentials e)
    as (H1 & H2 & H3 & H4 & H5 & H6).
  repeat (split; [assumption |]).
  apply probes_report_later_transport_errors.
Qed.

(** C10: [testApplicationEndpoints] always returns; its [success] is the
    conjunction of the entries its [results] record holds.  When the
    create response carries an id, the get, update and delete requests
    for that id follow and the record has five keys; when the create
    request fails or carries no id, no further request is sent and the
    record has the keys [listApplications] and [createApplication]
    only. *)
Theorem C10_application_subprobes_need_id (st : Tester) :
  exists res new,
    testApplicationEndpoints server st =
      (Ok res, mkTester (authToken st) (new ++ sent st)) /\
    ep_success res = forallb (fun b => b) (JS.values (ep_results res)) /\
    if carries_id (create_reply st) then
      map fst (ep_results res) =
        ["listApplications"; "createApplication"; "getApplication";
         "updateApplication"; "deleteApplication"] /\
      exists id,
        map method_url new =
          [(DELETE, "/api/v1/applications/" ++ toString id);
           (PUT, "/api/v1/applications/" ++ toString id);
           (GET, "/api/v1/applications/" ++ toString id);
           (POST, "/api/v1/applications");
           (GET, "/api/v1/applications")]%string
    else
      map fst (ep_results res) = ["listApplications"; "createApplication"] /\
      map method_url new =
        [(POST, "/api/v1/applications"); (GET, "/api/v1/applications")].
Proof.
  run_probe.
  repeat split_reply;
    eexists; eexists; (split; [new_requests |]).
  all: simpl; repeat split; eauto.
  all: eexists; reflexivity.
Qed.

End ProbeResults.

(* ================================================================== *)
(** * runFullIntegrationTest *)
(* ================================================================== *)

Section FullRun.
Import JS BackendApiTester.

Definition Method_eqb (a b : Method) : bool :=
  match a, b with
  | GET, GET | POST, POST | PUT, PUT | DELETE, DELETE => true
  | _, _ => false
  end.

(** A request with method and URL [x] is among [log]. *)
Definition attempted (log : list Request) (x : Method * string) : bool :=
  existsb (fun q => Method_eqb (method q) (fst x) && (url q =? snd x)%string) log.

Lemma attempted_app log1 log2 x :
  attempted (log1 ++ log2) x = attempted log1 x || attempted log2 x.
Proof. apply existsb_app. Qed.

Lemma forallb_attempted_l log1 log2 xs :
  forallb (attempted log2) xs = true -> forallb (attempted (log1 ++ log2)) xs = true.
Proof.
  rewrite !forallb_forall; intros H x Hx.
  rewrite attempted_app, (H x Hx); apply orb_true_r.
Qed.

Lemma forallb_attempted_r log1 log2 xs :
  forallb (attempted log1) xs = true -> forallb (attempted (log1 ++ log2)) xs = true.
Proof.
  rewrite !forallb_forall; intros H x Hx.
  rewrite attempted_app, (H x Hx); reflexivity.
Qed.

Variable server : list Request -> Request -> Reply.

(** [m] returns normally from every state and sends, among others, the
    requests [xs]. *)
Definition emits {A} (m : M A) (xs : list (Method * string)) : Prop :=
  forall st, exists a st' new,
    m st = (Ok a, st') /\ sent st' = new ++ sent st /\
    forallb (attempted new) xs = true.

Lemma emits_bind {A B} (m : M A) (k : A -> M B) xs ys :
  emits m xs -> (forall a, emits (k a) ys) -> emits (bind m k) (xs ++ ys).
Proof.
  intros Hm Hk st; unfold bind.
  destruct (Hm st) as (a & st1 & new1 & -> & L1 & F1).
  destruct (Hk a st1) as (b & st2 & new2 & -> & L2 & F2).
  exists b, st2, (new2 ++ new1); split; [reflexivity |]; split.
  - rewrite L2, L1, app_assoc; reflexivity.
  - rewrite forallb_app; apply andb_true_intro; split.
    + now apply forallb_attempted_l.
    + now apply forallb_attempted_r.
Qed.

Lemma emits_ret {A} (a : A) : emits (ret a) [].
Proof. intro st; exists a, st, []; auto. Qed.

Ltac run_probe :=
  unfold testConnectivity, testAuthentication, testApplicationEndpoints,
    testDeploymentEndpoints, testAIEndpoints, testGraphQLEndpoint, createBlock,
    check, finish, try_catch, bind, ret, throw, prop, setAuthToken, get_opt,
    client_get, client_post, client_put, client_delete, request;
  simpl.

Ltac split_reply :=
  match goal with
  | |- context [match server ?h ?q with _ => _ end] =>
      destruct (server h q); simpl
  | |- context [match get ?v ?k with _ => _ end] =>
      destruct (get v k); simpl
  | |- context [if truthy ?v then _ else _] =>
      destruct (truthy v); simpl
  | |- context [if (?a =? ?b)%Z then _ else _] =>
      destruct (a =? b)%Z; simpl
  end.

Ltac prefix_of l base :=
  match l with
  | base => constr:(@nil Request)
  | ?x :: ?l' => let p := prefix_of l' base in constr:(x :: p)
  end.

Ltac emitted :=
  intro st; run_probe; repeat split_reply;
  eexists; eexists; eexists;
  (split; [reflexivity |]);
  (split; [simpl; match goal with
           | |- ?l = ?n ++ ?base =>
               let p := prefix_of l base in unify n p; reflexivity
           end |]);
  reflexivity.

Lemma emits_testAuthentication credentials :
  emits (testAuthentication server credentials) [(POST, "/auth/login")].
Proof. emitted. Qed.

Lemma emits_testApplicationEndpoints :
  emits (testApplicationEndpoints server)
    [(GET, "/api/v1/applications"); (POST, "/api/v1/applications")].
Proof. emitted. Qed.

Lemma emits_testDeploymentEndpoints :
  emits (testDeploymentEndpoints server) [(GET, "/api/v1/deployments")].
Proof. emitted. Qed.

Lemma emits_testAIEndpoints :
  emits (testAIEndpoints server)
    [(GET, "/api/v1/ai/insights"); (GET, "/api/v1/ai/recommendations")].
Proof. emitted. Qed.

Lemma emits_testGraphQLEndpoint :
  emits (testGraphQLEndpoint server) [(POST, "/graphql")].
Proof. emitted. Qed.

(** The requests of the five categories that follow connectivity. *)
Definition later_categories : list (Method * string) :=
  [(POST, "/auth/login");
   (GET, "/api/v1/applications"); (POST, "/api/v1/applications");
   (GET, "/api/v1/deployments");
   (GET, "/api/v1/ai/insights"); (GET, "/api/v1/ai/recommendations");
   (POST, "/graphql")].

(** The successes a [results] record holds, in the order of the run. *)
Definition recorded_successes (r : Results) : list bool :=
  connectivity r ::
  (match authentication r with Some a => [auth_success a] | None => [] end) ++
  (match applications r with Some a => [ep_success a] | None => [] end) ++
  (match deployments r with Some a => [ep_success a] | None => [] end) ++
  (match ai r with Some a => [ep_success a] | None => [] end) ++
  (match graphql r with Some g => [gql_success g] | None => [] end).

(** Every category of the run has an entry in [results]. *)
Definition all_recorded (r : Results) : bool :=
  match authentication r, applications r, deployments r, ai r, graphql r with
  | Some _, Some _, Some _, Some _, Some _ => true
  | _, _, _, _, _ => false
  end.

(** The part of [runFullIntegrationTest] after the connectivity gate. *)
Definition later_probes (conn : bool) : M FullResult :=
  auth <- testAuthentication server defaultCredentials ;;
  apps <- testApplicationEndpoints server ;;
  deps <- testDeploymentEndpoints server ;;
  aiR <- testAIEndpoints server ;;
  gql <- testGraphQLEndpoint server ;;
  let overallSuccess :=
    conn && auth_success auth && ep_success apps && ep_success deps in
  ret (mkFullResult overallSuccess
         (mkResults conn (Some auth) (Some apps) (Some deps) (Some aiR) (Some gql))
         (if overallSuccess then summary_pass else summary_fail)).

Lemma runFullIntegrationTest_unfold (st : Tester) :
  runFullIntegrationTest server st =
    match testConnectivity server st with
    | (Ok conn, st1) =>
        if negb conn then
          (Ok (mkFullResult false (mkResults conn None None None None None)
                 summary_unreachable), st1)
        else later_probes conn st1
    | (Throw e, st1) => (Throw e, st1)
    end.
Proof.
  unfold runFullIntegrationTest, bind at 1.
  destruct (testConnectivity server st) as [[conn | e] st1]; [| reflexivity].
  destruct conn; reflexivity.
Qed.

Lemma emits_later_probes conn : emits (later_probes conn) later_categories.
Proof.
  change later_categories with
    ([(POST, "/auth/login")] ++
     [(GET, "/api/v1/applications"); (POST, "/api/v1/applications")] ++
     [(GET, "/api/v1/deployments")] ++
     [(GET, "/api/v1/ai/insights"); (GET, "/api/v1/ai/recommendations")] ++
     [(POST, "/graphql")] ++ []).
  unfold later_probes.
  apply emits_bind; [apply emits_testAuthentication | intro].
  apply emits_bind; [apply emits_testApplicationEndpoints | intro].
  apply emits_bind; [apply emits_testDeploymentEndpoints | intro].
  apply emits_bind; [apply emits_testAIEndpoints | intro].
  apply emits_bind; [apply emits_testGraphQLEndpoint | intro].
  apply emits_ret.
Qed.

Lemma later_probes_result conn st r st' :
  later_probes conn st = (Ok r, st') ->
  connectivity (results r) = conn /\
  all_recorded (results r) = true /\
  exists auth apps deps,
    authentication (results r) = Some auth /\
    applications (results r) = Some apps /\
    deployments (results r) = Some deps /\
    success r = conn && auth_success auth && ep_success apps && ep_success deps.
Proof.
  unfold later_probes, bind, ret.
  destruct (testAuthentication _ _ st) as [[auth | ?] ?]; [| discriminate].
  destruct (testApplicationEndpoints _ _) as [[apps | ?] ?]; [| discriminate].
  destruct (testDeploymentEndpoints _ _) as [[deps | ?] ?]; [| discriminate].
  destruct (testAIEndpoints _ _) as [[? | ?] ?]; [| discriminate].
  destruct (testGraphQLEndpoint _ _) as [[? | ?] ?]; [| discriminate].
  intro H; inversion H; subst; simpl.
  split; [reflexivity |]; split; [reflexivity |].
  exists auth, apps, deps; auto.
Qed.

Lemma testConnectivity_result (st : Tester) :
  exists conn,
    testConnectivity server st =
      (Ok conn, mkTester (authToken st)
                  (interceptor st GET "/health" Undefined :: sent st)).
Proof.
  unfold testConnectivity, try_catch, bind, ret, client_get, request.
  destruct (server _ _); simpl; eauto.
Qed.

(** Each category of the run after the gate holds the result of its
    own probe, run from the state the probe before it left. *)
Lemma later_probes_own_results conn st r st' :
  later_probes conn st = (Ok r, st') ->
  exists auth apps deps aiR gql st2 st3 st4 st5,
    testAuthentication server defaultCredentials st = (Ok auth, st2) /\
    testApplicationEndpoints server st2 = (Ok apps, st3) /\
    testDeploymentEndpoints server st3 = (Ok deps, st4) /\
    testAIEndpoints server st4 = (Ok aiR, st5) /\
    testGraphQLEndpoint server st5 = (Ok gql, st') /\
    results r = mkResults conn (Some auth) (Some apps) (Some deps) (Some aiR) (Some gql).
Proof.
  unfold later_probes, bind, ret.
  destruct (testAuthentication _ _ st) as [[auth | ?] st2] eqn:E1; [| discriminate].
  destruct (testApplicationEndpoints _ st2) as [[apps | ?] st3] eqn:E2; [| discriminate].
  destruct (testDeploymentEndpoints _ st3) as [[deps | ?] st4] eqn:E3; [| discriminate].
  destruct (testAIEndpoints _ st4) as [[aiR | ?] st5] eqn:E4; [| discriminate].
  destruct (testGraphQLEndpoint _ st5) as [[gql | ?] st6] eqn:E5; [| discriminate].
  intros [= <- <-]; exists auth, apps, deps, aiR, gql, st2, st3, st4, st5.
  repeat split; assumption.
Qed.

(** C2, as amended: [runFullIntegrationTest] always returns.  When the
    connectivity probe fails it returns at once: only [connectivity] is
    recorded and only the health request was sent.  When it succeeds,
    every later category is attempted and recorded whatever the outcome
    of the categories before it: the login, list and create application,
    list deployments, both AI requests and the GraphQL request are all
    sent, also when authentication fails, and each entry of [results]
    holds what its own probe returned: the five probes run one after the
    other, each from the state the one before it left, and none of their
    results stops the next. *)
Theorem C2_failures_after_connectivity_do_not_abort (st : Tester) :
  exists r st' new,
    runFullIntegrationTest server st = (Ok r, st') /\
    sent st' = new ++ sent st /\
    attempted new (GET, "/health") = true /\
    fst (testConnectivity server st) = Ok (connectivity (results r)) /\
    if connectivity (results r) then
      all_recorded (results r) = true /\
      forallb (attempted new) later_categories = true /\
      exists auth apps deps aiR gql st1 st2 st3 st4 st5,
        testConnectivity server st = (Ok true, st1) /\
        testAuthentication server defaultCredentials st1 = (Ok auth, st2) /\
        testApplicationEndpoints server st2 = (Ok apps, st3) /\
        testDeploymentEndpoints server st3 = (Ok deps, st4) /\
        testAIEndpoints server st4 = (Ok aiR, st5) /\
        testGraphQLEndpoint server st5 = (Ok gql, st') /\
        results r =
          mkResults true (Some auth) (Some apps) (Some deps) (Some aiR) (Some gql)
    else
      results r = mkResults false None None None None None /\
      success r = false /\
      map method_url new = [(GET, "/health")].
Proof.
  rewrite runFullIntegrationTest_unfold.
  destruct (testConnectivity_result st) as (conn & Ec); rewrite Ec.
  destruct conn; cbn [negb].
  - match goal with |- context [later_probes true ?s] =>
      destruct (emits_later_probes true s) as (r & st' & new & E & L & F)
    end.
    rewrite E.
    destruct (later_probes_result _ _ _ _ E) as (Hc & Ha & _).
    destruct (later_probes_own_results _ _ _ _ E)
      as (auth & apps & deps & aiR & gql & st2 & st3 & st4 & st5 &
          E1 & E2 & E3 & E4 & E5 & Hr).
    exists r, st', (new ++ [interceptor st GET "/health" Undefined]).
    split; [reflexivity |].
    split; [rewrite L; simpl; rewrite <- app_assoc; reflexivity |].
    split; [rewrite attempted_app; simpl; apply orb_true_r |].
    rewrite Hc; split; [reflexivity |].
    cbv iota; split; [exact Ha |]; split; [now apply forallb_attempted_r |].
    exists auth, apps, deps, aiR, gql; eexists; exists st2, st3, st4, st5.
    split; [reflexivity |]; auto 10.
  - eexists; eexists; exists [interceptor st GET "/health" Undefined].
    simpl; repeat split.
Qed.

End FullRun.

(** ** Sample backends *)

Section SampleBackends.
Import JS BackendApiTester.

Definition connection_refused : Error :=
  mkError "connect ECONNREFUSED 127.0.0.1:8000" None.

(** Nothing listens on the port. *)
Definition unreachable_backend (_ : list Request) (_ : Request) : Reply :=
  Rejected connection_refused.

(** A backend on which every endpoint works. *)
Definition healthy_backend (_ : list Request) (q : Request) : Reply :=
  if (url q =? "/auth/login")%string then
    Resolved (mkResponse 200 (Obj [("access_token", Str "secret-token")]))
  else if (url q =? "/api/v1/applications")%string && Method_eqb (method q) POST then
    Resolved (mkResponse 201 (Obj [("data", Obj [("id", Num 7)])]))
  else if (url q =? "/graphql")%string then
    Resolved (mkResponse 200 (Obj [("data", Obj [("applications", Arr [])])]))
  else Resolved (mkResponse 200 (Obj [("data", Arr [])])).

(** The same backend with GraphQL switched off. *)
Definition backend_without_graphql (h : list Request) (q : Request) : Reply :=
  if (url q =? "/graphql")%string then
    Rejected (mkError "Request failed with status code 404"
                (Some (mkResponse 404 (Str "Not Found"))))
  else healthy_backend h q.

(** The same backend rejecting the default credentials. *)
Definition backend_rejecting_login (h : list Request) (q : Request) : Reply :=
  if (url q =? "/auth/login")%string then
    Rejected (mkError "Request failed with status code 401"
                (Some (mkResponse 401 (Obj [("message", Str "Invalid credentials")]))))
  else healthy_backend h q.

End SampleBackends.

Section FullRunExamples.
Import JS BackendApiTester.

(** C2, counterexample: with an unreachable backend the run stops after
    the connectivity probe; no other category is attempted or recorded. *)
Lemma C2_unreachable_backend_aborts :
  fst (runFullIntegrationTest unreachable_backend create) =
    Ok (mkFullResult false (mkResults false None None None None None)
          summary_unreachable) /\
  map method_url (sent (snd (runFullIntegrationTest unreachable_backend create))) =
    [(GET, "/health")] /\
  attempted (sent (snd (runFullIntegrationTest unreachable_backend create)))
    (GET, "/api/v1/applications") = false.
Proof. repeat split. Qed.

(** A rejected login does not stop the run: the application probes are
    attempted, carry no token and are recorded. *)
Example rejected_login_run :
  exists r st',
    runFullIntegrationTest backend_rejecting_login create = (Ok r, st') /\
    authentication (results r) =
      Some (mkAuthResult false Undefined (Str "Invalid credentials")) /\
    (exists a, applications (results r) = Some a /\ ep_success a = true) /\
    success r = false /\
    map method_url (sent st') =
      [(POST, "/graphql");
       (GET, "/api/v1/ai/recommendations"); (GET, "/api/v1/ai/insights");
       (GET, "/api/v1/deployments");
       (DELETE, "/api/v1/applications/7"); (PUT, "/api/v1/applications/7");
       (GET, "/api/v1/applications/7");
       (POST, "/api/v1/applications"); (GET, "/api/v1/applications");
       (POST, "/auth/login"); (GET, "/health")] /\
    Forall (fun q => authorization q = None) (sent st').
Proof.
  eexists; eexists; split; [vm_compute; reflexivity |].
  repeat split; simpl; eauto.
  repeat constructor.
Qed.

(** What the code computes: the flag is the conjunction of the first
    four categories. *)
Lemma overall_success_is_and_of_four server st r st' :
  runFullIntegrationTest server st = (Ok r, st') ->
  connectivity (results r) = true ->
  exists auth apps deps,
    authentication (results r) = Some auth /\
    applications (results r) = Some apps /\
    deployments (results r) = Some deps /\
    success r = auth_success auth && ep_success apps && ep_success deps.
Proof.
  rewrite runFullIntegrationTest_unfold.
  destruct (testConnectivity_result server st) as (conn & ->).
  destruct conn; cbn [negb].
  - intros H _; apply later_probes_result in H.
    destruct H as (_ & _ & auth & apps & deps & ? & ? & ? & ?).
    exists auth, apps, deps; auto.
  - intro H; inversion H; subst; discriminate.
Qed.

(** C3, at the failing input: on a backend whose GraphQL endpoint is
    gone the GraphQL category is recorded as failed, yet the overall
    flag is [true] and the summary announces that all tests passed; the
    conjunction of the recorded successes is [false]. *)
Theorem C3_overall_success_leaves_out_graphql :
  exists r st',
    runFullIntegrationTest backend_without_graphql create = (Ok r, st') /\
    graphql (results r) =
      Some (mkGraphQLResult false (Str "Request failed with status code 404")) /\
    success r = true /\
    summary r = summary_pass /\
    forallb (fun b => b) (recorded_successes (results r)) = false.
Proof.
  eexists; eexists; split; [vm_compute; reflexivity |].
  repeat split.
Qed.

End FullRunExamples.

(* ================================================================== *)
(** * The stored bearer token *)
(* ================================================================== *)

Section Token.
Import JS BackendApiTester.

(** A call of one of the six probes on a tester. *)
Inductive Call :=
| CallConnectivity
| CallAuthentication (credentials : value)
| CallApplications
| CallDeployments
| CallAI
| CallGraphQL.

Variable server : list Request -> Request -> Reply.

(** The tester after the call. *)
Definition perform (st : Tester) (c : Call) : Tester :=
  match c with
  | CallConnectivity => snd (testConnectivity server st)
  | CallAuthentication credentials => snd (testAuthentication server credentials st)
  | CallApplications => snd (testApplicationEndpoints server st)
  | CallDeployments => snd (testDeploymentEndpoints server st)
  | CallAI => snd (testAIEndpoints server st)
  | CallGraphQL => snd (testGraphQLEndpoint server st)
  end.

(** The call is a [testAuthentication] that returns [success: true]. *)
Definition login_succeeds (st : Tester) (c : Call) : bool :=
  match c with
  | CallAuthentication credentials =>
      match fst (testAuthentication server credentials st) with
      | Ok r => auth_success r
      | Throw _ => false
      end
  | _ => false
  end.

(** The token the backend hands out in reply to the login request the
    call sends from [st]: [response.data.access_token], when the request
    resolves and that member is truthy. *)
Definition login_token (st : Tester) (c : Call) : option value :=
  match c with
  | CallAuthentication credentials =>
      match first_reply server st POST "/auth/login" credentials with
      | Resolved r =>
          if truthy (get_opt (data r) "access_token")
          then Some (get_opt (data r) "access_token")
          else None
      | Rejected _ => None
      end
  | _ => None
  end.

(** A new tester after a sequence of calls. *)
Definition history (cs : list Call) : Tester := fold_left perform cs create.

Lemma header_for_token_ok st m u b :
  token_ok st -> authorization (interceptor st m u b) = header_for (authToken st).
Proof.
  unfold token_ok, interceptor, header_for; simpl.
  intros [-> | H]; [reflexivity |].
  rewrite H; destruct (authToken st); simpl in *; congruence.
Qed.

Lemma quiet_testConnectivity : quiet (testConnectivity server).
Proof.
  apply quiet_try_catch; [| intro; apply quiet_ret].
  apply quiet_bind; [apply quiet_request | intro; apply quiet_ret].
Qed.

Lemma quiet_testDeploymentEndpoints : quiet (testDeploymentEndpoints server).
Proof.
  apply quiet_bind; [| intro; apply quiet_ret].
  apply quiet_check, quiet_request.
Qed.

Lemma quiet_testAIEndpoints : quiet (testAIEndpoints server).
Proof.
  apply quiet_bind; [apply quiet_check, quiet_request | intro].
  apply quiet_bind; [apply quiet_check, quiet_request | intro; apply quiet_ret].
Qed.

Lemma quiet_testGraphQLEndpoint : quiet (testGraphQLEndpoint server).
Proof.
  apply quiet_try_catch; [| intro; apply quiet_ret].
  apply quiet_bind; [apply quiet_request | intro r].
  apply quiet_bind.
  - destruct (status r =? 200); [| apply quiet_ret].
    apply quiet_bind; [apply quiet_prop | intro; apply quiet_ret].
  - intro; apply quiet_bind; [apply quiet_prop | intro; apply quiet_ret].
Qed.

Lemma quiet_createBlock l st :
  exists new,
    snd (createBlock server l st) = mkTester (authToken st) (new ++ sent st) /\
    Forall (fun q => authorization q =
                     authorization (interceptor st GET EmptyString Undefined)) new.
Proof.
  unfold createBlock.
  destruct (quiet_request server POST "/api/v1/applications" createData st)
    as (n1 & E1 & F1).
  unfold client_post.
  destruct (request server POST _ _ st) as [[r | e] st1]; simpl in E1; subst st1;
    [| exists n1; auto].
  destruct (quiet_prop (data r) "data" (mkTester (authToken st) (n1 ++ sent st)))
    as (n2 & E2 & F2).
  destruct (prop (data r) "data" _) as [[d | e] st2]; simpl in E2, F2; subst st2;
    [| exists (n2 ++ n1); simpl; rewrite <- app_assoc; split; auto;
       apply Forall_app; auto].
  destruct (truthy (get_opt d "id"));
    [| exists (n2 ++ n1); simpl; rewrite <- app_assoc; split; auto;
       apply Forall_app; auto].
  set (path := ("/api/v1/applications/" ++ toString (get_opt d "id"))%string).
  set (l1 := (JS.set "createApplication" (status r =? 201) (fst l), snd l)).
  set (s2 := mkTester (authToken st) (n2 ++ n1 ++ sent st)).
  destruct (quiet_check (client_get server path) "getApplication" 200
              "Get application" l1 (quiet_request server GET path Undefined) s2)
    as (n3 & E3 & F3).
  destruct (check (client_get server path) _ _ _ l1 s2) as [[l2 | e] s3];
    simpl in E3, F3; subst s3;
    [| exists (n3 ++ n2 ++ n1); simpl; rewrite <- !app_assoc; split; auto;
       repeat (apply Forall_app; split); auto].
  set (s3 := mkTester (authToken st) (n3 ++ n2 ++ n1 ++ sent st)).
  destruct (quiet_check (client_put server path updateData) "updateApplication" 200
              "Update application" l2 (quiet_request server PUT path updateData) s3)
    as (n4 & E4 & F4).
  destruct (check (client_put server path updateData) _ _ _ l2 s3) as [[l3 | e] s4];
    simpl in E4, F4; subst s4;
    [| exists (n4 ++ n3 ++ n2 ++ n1); simpl; rewrite <- !app_assoc; split; auto;
       repeat (apply Forall_app; split); auto].
  set (s4 := mkTester (authToken st) (n4 ++ n3 ++ n2 ++ n1 ++ sent st)).
  destruct (quiet_check (client_delete server path) "deleteApplication" 200
              "Delete application" l3 (quiet_request server DELETE path Undefined) s4)
    as (n5 & E5 & F5).
  destruct (check (client_delete server path) _ _ _ l3 s4) as [[l4 | e] s5];
    simpl in E5, F5; subst s5;
    exists (n5 ++ n4 ++ n3 ++ n2 ++ n1); simpl; rewrite <- !app_assoc; split; auto;
    repeat (apply Forall_app; split); auto.
Qed.

Lemma quiet_testApplicationEndpoints : quiet (testApplicationEndpoints server).
Proof.
  apply quiet_bind; [apply quiet_check, quiet_request | intros l1 st].
  destruct (quiet_createBlock l1 st) as (new & E & F).
  exists new.
  destruct (createBlock server l1 st) as [[[u | e] l2] st2]; simpl in *; auto.
Qed.

Lemma testAuthentication_token credentials st :
  exists r tok,
    testAuthentication server credentials st =
      (Ok r, mkTester tok (interceptor st POST "/auth/login" credentials :: sent st)) /\
    ((auth_success r = true /\ truthy tok = true) \/
     (auth_success r = false /\ tok = authToken st)).
Proof.
  unfold testAuthentication, try_catch, bind, ret, client_post, request, prop, throw,
    setAuthToken.
  destruct (server _ _) as [r | e]; simpl;
    [destruct (get (data r) _) as [tok | ]; simpl;
     [destruct (truthy tok) eqn:E; simpl | ] | ];
    eexists; eexists; (split; [reflexivity |]); simpl;
    first [ left; split; [reflexivity | assumption]
          | right; split; reflexivity ].
Qed.

Lemma perform_token st c :
  (login_succeeds st c = true /\ truthy (authToken (perform st c)) = true) \/
  (login_succeeds st c = false /\ authToken (perform st c) = authToken st).
Proof.
  destruct c; simpl;
    try (right; split; [reflexivity |];
         match goal with
         | |- authToken (snd (?m st)) = _ =>
             let H := fresh in
             assert (H : quiet m) by
               first [ apply quiet_testConnectivity
                     | apply quiet_testApplicationEndpoints
                     | apply quiet_testDeploymentEndpoints
                     | apply quiet_testAIEndpoints
                     | apply quiet_testGraphQLEndpoint ];
             destruct (H st) as (new & -> & _); reflexivity
         end).
  destruct (testAuthentication_token credentials st) as (r & tok & -> & [[? ?] | [? ?]]);
    simpl; auto.
Qed.

Lemma perform_log st c :
  token_ok st ->
  exists new,
    sent (perform st c) = new ++ sent st /\
    Forall (fun q => authorization q = header_for (authToken st)) new.
Proof.
  intro Hok.
  assert (Hh : authorization (interceptor st GET EmptyString Undefined) =
               header_for (authToken st)) by now apply header_for_token_ok.
  destruct c; simpl;
    try (match goal with
         | |- exists _, sent (snd (?m st)) = _ /\ _ =>
             let H := fresh in
             assert (H : quiet m) by
               first [ apply quiet_testConnectivity
                     | apply quiet_testApplicationEndpoints
                     | apply quiet_testDeploymentEndpoints
                     | apply quiet_testAIEndpoints
                     | apply quiet_testGraphQLEndpoint ];
             destruct (H st) as (new & -> & F); exists new; simpl;
             rewrite <- Hh; auto
         end).
  destruct (testAuthentication_token credentials st) as (r & tok & -> & _).
  exists [interceptor st POST "/auth/login" credentials]; simpl; split; auto.
Qed.

Lemma token_ok_perform st c : token_ok st -> token_ok (perform st c).
Proof.
  intro H; destruct (perform_token st c) as [[_ Ht] | [_ Ht]].
  - right; exact Ht.
  - unfold token_ok; rewrite Ht; exact H.
Qed.

Lemma token_ok_history cs : token_ok (history cs).
Proof.
  unfold history; induction cs using rev_ind.
  - left; reflexivity.
  - rewrite fold_left_app; simpl; now apply token_ok_perform.
Qed.

Lemma truthy_not_undefined v : truthy v = true -> v <> Undefined.
Proof. intros H ->; discriminate. Qed.

Lemma history_snoc cs c : history (cs ++ [c]) = perform (history cs) c.
Proof. unfold history; rewrite fold_left_app; reflexivity. Qed.

Lemma token_stored_iff_login cs :
  authToken (history cs) <> Undefined <->
  exists before c after,
    cs = before ++ c :: after /\ login_succeeds (history before) c = true.
Proof.
  induction cs as [| c cs IH] using rev_ind.
  - split.
    + intro H; exfalso; apply H; reflexivity.
    + intros (before & c & after & E & _); destruct before; discriminate.
  - rewrite history_snoc.
    destruct (perform_token (history cs) c) as [[Hl Ht] | [Hl Ht]].
    + split; [| intro; now apply truthy_not_undefined].
      intros _; exists cs, c, []; auto.
    + rewrite Ht, IH; split.
      * intros (before & c0 & after & -> & H).
        exists before, c0, (after ++ [c]); rewrite <- app_assoc; auto.
      * intros (before & c0 & after & E & H).
        destruct after as [| a after] using rev_ind.
        -- apply app_inj_tail in E; destruct E as [-> ->].
           rewrite Hl in H; discriminate.
        -- clear IHafter.
           rewrite app_comm_cons, app_assoc in E.
           apply app_inj_tail in E; destruct E as [-> ->].
           exists before, c0, after; auto.
Qed.

(** What [testAuthentication] returns and stores, read off the reply to
    its request. *)
Lemma testAuthentication_response credentials st :
  exists a st',
    testAuthentication server credentials st = (Ok a, st') /\
    match login_token st (CallAuthentication credentials) with
    | Some tok => a = mkAuthResult true tok Undefined /\ authToken st' = tok
    | None =>
        auth_success a = false /\ auth_token a = Undefined /\
        authToken st' = authToken st
    end.
Proof.
  unfold login_token, first_reply, testAuthentication, try_catch, bind, ret,
    client_post, request, prop, throw, setAuthToken, get_opt.
  destruct (server _ _) as [r | e]; simpl;
    [destruct (get (data r) "access_token") as [tok |]; simpl;
     [destruct (truthy tok); simpl |] |];
    eexists; eexists; (split; [reflexivity |]); simpl; auto.
Qed.

Lemma perform_login_token st c :
  login_succeeds st c =
    match login_token st c with Some _ => true | None => false end /\
  authToken (perform st c) =
    match login_token st c with Some tok => tok | None => authToken st end.
Proof.
  destruct c as [| credentials | | | |];
    try (match goal with
         | |- context [perform st ?c] =>
             destruct (perform_token st c) as [[H _] | [_ H]];
             [discriminate H | split; [reflexivity | exact H]]
         end).
  cbn [login_succeeds perform].
  destruct (testAuthentication_response credentials st) as (a & st' & -> & H).
  cbn [fst snd].
  destruct (login_token st (CallAuthentication credentials)) as [tok |].
  - destruct H as [-> ->]; split; reflexivity.
  - destruct H as (-> & _ & ->); split; reflexivity.
Qed.

(** The stored token was handed out by the backend: it is absent, or it
    is the access token of the reply to an earlier login. *)
Lemma token_from_login cs :
  authToken (history cs) = Undefined \/
  exists before c after,
    cs = before ++ c :: after /\
    login_token (history before) c = Some (authToken (history cs)).
Proof.
  induction cs as [| c cs IH] using rev_ind; [left; reflexivity |].
  rewrite history_snoc.
  destruct (perform_login_token (history cs) c) as [_ ->].
  destruct (login_token (history cs) c) as [tok |] eqn:E.
  - right; exists cs, c, []; split; [reflexivity | exact E].
  - destruct IH as [-> | (before & c0 & after & -> & H)]; [left; reflexivity |].
    right; exists before, c0, (after ++ [c]).
    rewrite <- app_assoc; split; [reflexivity | exact H].
Qed.

(** C9: starting from a new tester and after any sequence of probe
    calls, a token is stored exactly when some earlier
    [testAuthentication] returned [success: true]; a call that is not a
    successful login leaves the stored token as it was; and every
    request the next call sends carries [Authorization: Bearer] with the
    stored token when one is stored, and no such header otherwise.
    Success is read off the response: a login succeeds exactly when its
    request resolves with a truthy [access_token]; it then returns that
    token and stores it, and any other call, a rejected or token-less
    login included, leaves the stored token as it is.  So the stored
    token is always the [access_token] of the reply to an earlier
    login. *)
Theorem C9_token_set_only_by_successful_login (cs : list Call) :
  let st := history cs in
  (authToken st <> Undefined <->
   exists before c after,
     cs = before ++ c :: after /\ login_succeeds (history before) c = true) /\
  (forall c, login_succeeds st c = false ->
             authToken (perform st c) = authToken st) /\
  (forall c, exists new,
     sent (perform st c) = new ++ sent st /\
     Forall (fun q => authorization q = header_for (authToken st)) new) /\
  (forall c,
     login_succeeds st c =
       match login_token st c with Some _ => true | None => false end) /\
  (forall c,
     authToken (perform st c) =
       match login_token st c with Some tok => tok | None => authToken st end) /\
  (forall credentials tok,
     login_token st (CallAuthentication credentials) = Some tok ->
     fst (testAuthentication server credentials st) =
       Ok (mkAuthResult true tok Undefined)) /\
  (authToken st = Undefined \/
   exists before c after,
     cs = before ++ c :: after /\
     login_token (history before) c = Some (authToken st)).
Proof.
  intro st; split; [apply token_stored_iff_login |]; split; [| split].
  - intros c H; destruct (perform_token st c) as [[Hl _] | [_ Ht]]; auto.
    rewrite Hl in H; discriminate.
  - intro c; apply perform_log, token_ok_history.
  - split; [intro c; apply perform_login_token |].
    split; [intro c; apply perform_login_token |].
    split; [| apply token_from_login].
    intros credentials tok H.
    destruct (testAuthentication_response credentials st) as (a & st' & -> & Ha).
    rewrite H in Ha; destruct Ha as [-> _]; reflexivity.
Qed.

End Token.

(* ================================================================== *)
(** * Start-up of the child processes *)
(* ================================================================== *)

Section Startup.
Import JS IntegrationTestRunner.

(** While the backend promise is pending the banner has not been seen. *)
Definition backend_waiting (s : Startup) : Prop :=
  promise s = Pending -> includes (output s) backend_banner = false.

Lemma backend_waiting_event s e :
  backend_waiting s -> backend_waiting (backend_on_event s e).
Proof.
  unfold backend_waiting; destruct e as [d | d | m]; simpl; auto.
  - destruct (includes (output s ++ d) backend_banner) eqn:E; auto.
    destruct (promise s); simpl; intros; discriminate.
  - destruct (promise s); simpl; intros; discriminate.
Qed.

Lemma backend_waiting_events evs s :
  backend_waiting s -> backend_waiting (fold_left backend_on_event evs s).
Proof.
  revert s; induction evs as [| e evs IH]; simpl; auto.
  intros s H; apply IH, backend_waiting_event, H.
Qed.

Lemma backend_event_settled s e :
  promise s <> Pending -> promise (backend_on_event s e) <> Pending.
Proof.
  destruct e as [d | d | m]; simpl; auto.
  - destruct (includes _ _); auto; destruct (promise s); simpl; congruence.
  - destruct (promise s); simpl; congruence.
Qed.

Lemma backend_events_settled evs s :
  promise s <> Pending -> promise (fold_left backend_on_event evs s) <> Pending.
Proof.
  revert s; induction evs as [| e evs IH]; simpl; auto.
  intros s H; apply IH, backend_event_settled, H.
Qed.

(** Once its timeout callback has run, the backend promise is settled,
    whatever the child printed. *)
Lemma startBackend_always_settles (c : Child) :
  startBackend_promise c <> Pending.
Proof.
  unfold startBackend_promise, startup_run.
  apply backend_events_settled.
  assert (H : backend_waiting
                (fold_left backend_on_event (before_timeout backend_timeout_ms c)
                   startup_init))
    by (apply backend_waiting_events; intro; reflexivity).
  unfold backend_on_timeout.
  destruct (includes (output _) backend_banner) eqn:E; simpl.
  - intro P; apply H in P; congruence.
  - destruct (promise _); simpl; congruence.
Qed.

(** A dev server that comes up on another port: the banner is printed,
    the port 3000 never is. *)
Definition frontend_on_other_port : Child :=
  [(4100, Stdout "- Local: http://localhost:3001");
   (5000, Stdout " Ready in 2.3s");
   (61500, Stdout " Compiled / in 1.1s");
   (70000, Stderr "warning")].

(** C4, at the failing input: the frontend prints its banner without the
    port 3000.  The promise of [startFrontend] is not resolved by the
    output handler, which asks for both, and not rejected by the timeout
    callback, which only asks for the banner: it stays pending after the
    60 seconds and after everything the child prints later.  The backend
    promise, whose two conditions agree, is settled in every case. *)
Theorem C4_startFrontend_can_stay_pending :
  promise (frontend_on_timeout
             (fold_left frontend_on_event
                (before_timeout frontend_timeout_ms frontend_on_other_port)
                startup_init)) = Pending /\
  startFrontend_promise frontend_on_other_port = Pending /\
  (forall c, startBackend_promise c <> Pending).
Proof.
  split; [reflexivity |]; split; [reflexivity |].
  exact startBackend_always_settles.
Qed.

End Startup.

(* ================================================================== *)
(** * waitForUrl *)
(* ================================================================== *)

Section WaitForUrl.
Import JS IntegrationTestRunner.

(** The time spent on attempts [i], ..., [i + k - 1] when all of them
    fail: each request, then the pause of one poll interval. *)
Fixpoint span (polls : nat -> Attempt) (i k : nat) : Z :=
  match k with
  | O => 0
  | S k' => snd (axios_get (polls i)) + pause (polls i) + span polls (S i) k'
  end.

(** The time spent before attempt [k] when the attempts before it fail. *)
Definition elapsed_before (polls : nat -> Attempt) (k : nat) : Z := span polls 0 k.

(** No attempt gets a 2xx response. *)
Definition never_2xx (polls : nat -> Attempt) : Prop :=
  forall i, fst (axios_get (polls i)) = false.

(** Attempt [k] is the first to get a 2xx response. *)
Definition first_2xx (polls : nat -> Attempt) (k : nat) : Prop :=
  (forall j, (j < k)%nat -> fst (axios_get (polls j)) = false) /\
  fst (axios_get (polls k)) = true.

(** No timer of the run fires more than [lag] milliseconds late. *)
Definition timers_within (lag : Z) (polls : nat -> Attempt) : Prop :=
  forall i, Z.of_N (timeout_lag (polls i)) <= lag /\ Z.of_N (pause_lag (polls i)) <= lag.

Lemma axios_get_duration a :
  0 <= snd (axios_get a) <= request_timeout_ms + Z.of_N (timeout_lag a).
Proof.
  unfold axios_get, request_timeout_ms; cbv zeta.
  destruct (Z.of_N (latency a) <? 5000 + Z.of_N (timeout_lag a)) eqn:E; cbn [snd].
  - apply Z.ltb_lt in E; lia.
  - pose proof (N2Z.is_nonneg (timeout_lag a)); lia.
Qed.

Lemma pause_lower a : poll_interval_ms <= pause a.
Proof. unfold pause; lia. Qed.

Lemma span_lower polls i k : Z.of_nat k * poll_interval_ms <= span polls i k.
Proof.
  revert i; induction k as [| k IH]; intro i; [simpl; lia |].
  cbn [span]; specialize (IH (S i)).
  pose proof (axios_get_duration (polls i)).
  pose proof (pause_lower (polls i)).
  unfold poll_interval_ms in *; lia.
Qed.

Lemma span_snoc polls k :
  forall i, span polls i (S k) =
            span polls i k + (snd (axios_get (polls (i + k)%nat)) + pause (polls (i + k)%nat)).
Proof.
  induction k as [| k IH]; intro i.
  - cbn [span]; rewrite Nat.add_0_r; lia.
  - change (span polls i (S (S k)))
      with (snd (axios_get (polls i)) + pause (polls i) + span polls (S i) (S k)).
    rewrite IH; cbn [span].
    replace (S i + k)%nat with (i + S k)%nat by lia; lia.
Qed.

(** Against a target that never answers with a 2xx status the loop
    throws at the first test of the clock made once the timeout has
    elapsed: after some number [k] of failed attempts, the last of
    which started before the timeout. *)
Lemma loop_times_out polls url timeout start :
  never_2xx polls ->
  forall fuel now i,
    timeout - (now - start) <= poll_interval_ms * Z.of_nat fuel ->
    exists msg k,
      waitForUrl_loop (S fuel) polls url timeout start now i =
        Some (NotReady msg, now + span polls i k) /\
      timeout <= now + span polls i k - start /\
      (k = 0%nat \/
       exists k', k = S k' /\ now + span polls i k' - start < timeout).
Proof.
  intros Hn; induction fuel as [| fuel IH]; intros now i Hfuel.
  - cbn [waitForUrl_loop].
    destruct (now - start <? timeout) eqn:E.
    + apply Z.ltb_lt in E; unfold poll_interval_ms in *; lia.
    + apply Z.ltb_ge in E; eexists; exists 0%nat; cbn [span].
      rewrite Z.add_0_r; split; [reflexivity |]; split; [lia | left; reflexivity].
  - remember (S fuel) as f; cbn [waitForUrl_loop].
    destruct (now - start <? timeout) eqn:E.
    + apply Z.ltb_lt in E.
      pose proof (Hn i) as Hi; pose proof (axios_get_duration (polls i)) as Hd.
      pose proof (pause_lower (polls i)) as Hp.
      destruct (axios_get (polls i)) as [ok d] eqn:Ei; simpl in Hi, Hd; subst ok f.
      destruct (IH (now + d + pause (polls i)) (S i)) as (msg & k & -> & Hlow & Hlast);
        [unfold poll_interval_ms in *; lia |].
      exists msg, (S k); cbn [span]; rewrite Ei; cbn [snd].
      split; [f_equal; f_equal; lia |]; split; [lia |].
      right; destruct Hlast as [-> | (k' & -> & Hk')].
      * exists 0%nat; cbn [span]; split; [reflexivity | lia].
      * exists (S k'); cbn [span]; rewrite Ei; cbn [snd]; split; [reflexivity | lia].
    + apply Z.ltb_ge in E; eexists; exists 0%nat; cbn [span].
      rewrite Z.add_0_r; split; [reflexivity |]; split; [lia | left; reflexivity].
Qed.

Lemma loop_ready polls url timeout start :
  forall k fuel now i,
    (forall j, (j < k)%nat -> fst (axios_get (polls (i + j)%nat)) = false) ->
    fst (axios_get (polls (i + k)%nat)) = true ->
    now - start + span polls i k < timeout ->
    (k < fuel)%nat ->
    waitForUrl_loop fuel polls url timeout start now i =
      Some (Ready, now + span polls i k + snd (axios_get (polls (i + k)%nat))).
Proof.
  induction k as [| k IH]; intros fuel now i Hfail Hok Ht Hfuel;
    (destruct fuel as [| fuel]; [lia |]); cbn [waitForUrl_loop span] in *.
  - rewrite Nat.add_0_r in *.
    replace (now - start <? timeout) with true by (symmetry; apply Z.ltb_lt; lia).
    destruct (axios_get (polls i)) as [ok d]; simpl in *; subst ok.
    f_equal; f_equal; lia.
  - pose proof (span_lower polls (S i) k) as Hs.
    pose proof (axios_get_duration (polls i)) as Hd.
    pose proof (pause_lower (polls i)) as Hp.
    replace (now - start <? timeout) with true
      by (symmetry; apply Z.ltb_lt; unfold poll_interval_ms in *; lia).
    pose proof (Hfail 0%nat ltac:(lia)) as H0; rewrite Nat.add_0_r in H0.
    destruct (axios_get (polls i)) as [ok d] eqn:Ei; simpl in H0, Hd; subst ok.
    rewrite (IH fuel (now + d + pause (polls i)) (S i)).
    + replace (S i + k)%nat with (i + S k)%nat by lia.
      simpl; f_equal; f_equal; lia.
    + intros j Hj; replace (S i + j)%nat with (i + S j)%nat by lia.
      apply Hfail; lia.
    + replace (S i + k)%nat with (i + S k)%nat by lia; exact Hok.
    + simpl in Ht; lia.
    + lia.
Qed.

Lemma loop_total polls url timeout start :
  forall fuel now i,
    timeout - (now - start) <= poll_interval_ms * Z.of_nat fuel ->
    exists r t, waitForUrl_loop (S fuel) polls url timeout start now i = Some (r, t).
Proof.
  induction fuel as [| fuel IH]; intros now i Hfuel.
  - cbn [waitForUrl_loop].
    destruct (now - start <? timeout) eqn:E; [| eauto].
    apply Z.ltb_lt in E; unfold poll_interval_ms in *; lia.
  - remember (S fuel) as f; cbn [waitForUrl_loop].
    destruct (now - start <? timeout) eqn:E; [| eauto].
    pose proof (axios_get_duration (polls i)) as Hd.
    pose proof (pause_lower (polls i)) as Hp.
    destruct (axios_get (polls i)) as [[|] d]; [eauto |]; subst f.
    apply IH; simpl in Hd; unfold poll_interval_ms in *; lia.
Qed.

Lemma enough_fuel timeout :
  0 <= timeout ->
  timeout <= poll_interval_ms * Z.of_nat (S (Z.to_nat (timeout / poll_interval_ms))).
Proof.
  intro Ht; unfold poll_interval_ms.
  pose proof (Z.div_pos timeout 1000 Ht ltac:(lia)).
  pose proof (Z.mod_pos_bound timeout 1000 ltac:(lia)).
  pose proof (Z.div_mod timeout 1000 ltac:(lia)).
  lia.
Qed.

(** The loop of [waitForUrl] always ends. *)
Lemma waitForUrl_total polls url timeout now :
  0 <= timeout -> exists r t, waitForUrl polls url timeout now = Some (r, t).
Proof.
  intro Ht; unfold waitForUrl.
  replace (Z.to_nat (timeout / poll_interval_ms) + 2)%nat
    with (S (S (Z.to_nat (timeout / poll_interval_ms)))) by lia.
  apply loop_total; pose proof (enough_fuel timeout Ht); lia.
Qed.

(** C5, as amended: with a timeout that is not negative, [waitForUrl]
    always ends.  When no attempt gets a 2xx response it raises the
    not-ready error at the first test of the clock made once the
    timeout has elapsed: after [k] failed attempts, no earlier than the
    timeout, and with the last attempt started before the timeout.  The
    error is therefore late by less than one attempt and its pause: when
    no timer fires more than [lag] ms late, by less than the request
    timeout (5000 ms) plus the poll interval (1000 ms) plus twice [lag].
    When attempt [k] is the first to get a 2xx response and starts before
    the timeout has elapsed, [waitForUrl] returns. *)
Theorem C5_waitForUrl_ends polls url timeout now (Ht : 0 <= timeout) :
  (never_2xx polls ->
   exists msg k,
     waitForUrl polls url timeout now =
       Some (NotReady msg, now + elapsed_before polls k) /\
     timeout <= elapsed_before polls k /\
     (k = 0%nat \/ exists k', k = S k' /\ elapsed_before polls k' < timeout) /\
     (forall lag, timers_within lag polls ->
        elapsed_before polls k <
          timeout + request_timeout_ms + poll_interval_ms + 2 * lag)) /\
  (forall k,
     first_2xx polls k -> elapsed_before polls k < timeout ->
     waitForUrl polls url timeout now =
       Some (Ready, now + elapsed_before polls k + snd (axios_get (polls k)))).
Proof.
  unfold waitForUrl; split.
  - intro Hn.
    replace (Z.to_nat (timeout / poll_interval_ms) + 2)%nat
      with (S (S (Z.to_nat (timeout / poll_interval_ms)))) by lia.
    destruct (loop_times_out polls url timeout now Hn
                (S (Z.to_nat (timeout / poll_interval_ms))) now 0%nat)
      as (msg & k & E & Hlow & Hlast);
      [pose proof (enough_fuel timeout Ht); lia |].
    exists msg, k; unfold elapsed_before.
    split; [exact E |]; split; [lia |]; split.
    + destruct Hlast as [-> | (k' & -> & Hk')]; [left; reflexivity |].
      right; exists k'; split; [reflexivity | lia].
    + intros lag Hlag.
      destruct Hlast as [-> | (k' & -> & Hk')]; [cbn [span] in *; destruct (Hlag 0%nat) as [H1 _];
         pose proof (N2Z.is_nonneg (timeout_lag (polls 0%nat)));
         unfold request_timeout_ms, poll_interval_ms; lia |].
      rewrite span_snoc; rewrite Nat.add_0_l.
      pose proof (axios_get_duration (polls k')) as Hd.
      destruct (Hlag k') as [H1 H2].
      unfold pause, request_timeout_ms, poll_interval_ms in *; lia.
  - intros k [Hfail Hok] He; unfold elapsed_before in *.
    apply (loop_ready polls url timeout now k _ now 0%nat); auto.
    + lia.
    + pose proof (span_lower polls 0 k) as Hs; unfold poll_interval_ms in *.
      assert (Z.of_nat k <= timeout / 1000).
      { apply Z.div_le_lower_bound; lia. }
      lia.
Qed.

(** A target that lets every request run for 4.5 seconds before it
    fails. *)
Definition slow_target (_ : nat) : Attempt := mkAttempt false 4500 0 0.

(** A target that answers at the third attempt. *)
Definition late_target (i : nat) : Attempt :=
  mkAttempt (2 <=? i)%nat 20 0 0.

Lemma C5_waitForUrl_ends_witness :
  0 <= 30000 /\
  (exists msg,
     waitForUrl slow_target "http://localhost:3000" 30000 0 = Some (NotReady msg, 33000)) /\
  waitForUrl late_target "http://localhost:3000" 30000 0 = Some (Ready, 2060).
Proof.
  assert (Ht : 0 <= 30000) by lia.
  destruct (C5_waitForUrl_ends late_target "http://localhost:3000" 30000 0 Ht)
    as [_ Hready].
  split; [exact Ht |]; split.
  - eexists; vm_compute; reflexivity.
  - rewrite (Hready 2%nat).
    + reflexivity.
    + split; [| reflexivity].
      intros j Hj; destruct j as [| [| j]]; [reflexivity | reflexivity | lia].
    + vm_compute; reflexivity.
Defined.

(** Timers that fire late add to the overshoot: with a timeout of 1 ms
    and both timers 9 ms late, the error comes 6018 ms after the
    start. *)
Definition late_timers (_ : nat) : Attempt := mkAttempt false 9000 9 9.

Example late_timers_overshoot :
  timers_within 9 late_timers /\
  exists msg,
    waitForUrl late_timers "http://localhost:3000" 1 0 = Some (NotReady msg, 6018).
Proof.
  split; [intro i; cbn; lia |].
  eexists; vm_compute; reflexivity.
Qed.

(** C5, counterexample: against the slow target and with the default
    timeout the error is raised 33000 ms after the start, more than one
    poll interval past the timeout. *)
Lemma C5_timeout_overshoots_poll_interval :
  never_2xx slow_target /\
  (exists msg,
     waitForUrl slow_target "http://localhost:3000" 30000 0 = Some (NotReady msg, 33000)) /\
  ~ (33000 - 0 <= 30000 + poll_interval_ms).
Proof.
  split; [intro i; reflexivity |]; split.
  - eexists; vm_compute; reflexivity.
  - unfold poll_interval_ms; lia.
Qed.

End WaitForUrl.

(* ================================================================== *)
(** * The run of the orchestrator *)
(* ================================================================== *)

Section RunFacts.
Import JS IntegrationTestRunner.

(** ** Sample environments *)

(** The backend prints its banner after two seconds. *)
Definition ready_backend : Child :=
  [(1500, Stderr "INFO: Started server process");
   (2000, Stdout "INFO: Uvicorn running on http://0.0.0.0:8000")].

(** The frontend prints its banner, with the port 3000, after five
    seconds. *)
Definition ready_frontend : Child :=
  [(4100, Stdout "- Local: http://localhost:3000");
   (5000, Stdout " Ready in 2.3s")].

(** [npm] is not installed: the child emits an error event. *)
Definition failing_frontend : Child := [(10, ErrorEvent "spawn npm ENOENT")].

(** A backend that prints its banner one second too late. *)
Definition late_backend : Child :=
  [(31000, Stdout "INFO: Uvicorn running on http://0.0.0.0:8000")].

(** Banners that arrive in time resolve the start-up; a banner that
    arrives after the 30 seconds finds the promise rejected. *)
Example startup_scenarios :
  startBackend_promise ready_backend = Fulfilled /\
  startFrontend_promise ready_frontend = Fulfilled /\
  startFrontend_promise failing_frontend =
    Rejected "Failed to start frontend: spawn npm ENOENT" /\
  startBackend_promise late_backend =
    Rejected "Backend failed to start within 30 seconds".
Proof. repeat split. Qed.

Definition quick_target (_ : nat) : Attempt := mkAttempt true 20 0 0.

(** Everything is in place and every phase passes. *)
Definition healthy_env : Env :=
  mkEnv true true true (CmdOk EmptyString) ready_backend ready_frontend
    (inr healthy_backend) (CmdOk EmptyString) 0 quick_target quick_target
    (CmdOk EmptyString) None.

(** The backend comes up, the frontend cannot be spawned. *)
Definition env_frontend_fails : Env :=
  mkEnv true true true (CmdOk EmptyString) ready_backend failing_frontend
    (inr healthy_backend) (CmdOk EmptyString) 0 quick_target quick_target
    (CmdOk EmptyString) None.

(** The backend directory is missing. *)
Definition env_no_backend_dir : Env :=
  mkEnv false true true (CmdOk EmptyString) ready_backend ready_frontend
    (inr healthy_backend) (CmdOk EmptyString) 0 quick_target quick_target
    (CmdOk EmptyString) None.

(** The fields of the runner that the test phases leave alone. *)
Definition processes (st : Runner) : option Proc * option Proc * list Proc * list Proc * nat :=
  (backendProcess st, frontendProcess st, spawned st, killed st, cleanups st).

Variable env : Env.

Lemma runApiTests_done st :
  exists st', runApiTests env st = (Done tt, st') /\ processes st' = processes st.
Proof.
  unfold runApiTests, try_catch, set_integration, modify, throw.
  destruct (apiTesting env) as [msg | server]; [eauto |].
  destruct (BackendApiTester.runFullIntegrationTest _ _) as [[r | e] t]; eauto.
Qed.

Lemma runFrontendTests_done st :
  exists st', runFrontendTests env st = (Done tt, st') /\ processes st' = processes st.
Proof.
  unfold runFrontendTests, try_catch, bind, set_frontend, modify, execCommand, throw, ret.
  destruct (npmTest env); eauto.
Qed.

Lemma awaitUrl_settles polls url now st :
  (exists t, awaitUrl polls url now st = (Done t, st)) \/
  (exists msg, awaitUrl polls url now st = (Thrown msg, st)).
Proof.
  unfold awaitUrl.
  destruct (waitForUrl_total polls url default_timeout now) as (r & t & ->);
    [unfold default_timeout; lia |].
  destruct r; [left | right]; eexists; reflexivity.
Qed.

Lemma runE2ETests_done st :
  exists st', runE2ETests env st = (Done tt, st') /\ processes st' = processes st.
Proof.
  unfold runE2ETests, waitForServices, try_catch, bind.
  destruct (awaitUrl_settles (healthPolls env) (backendUrl ++ "/health")%string
              (clockAtWait env) st) as [[t ->] | [msg ->]];
    [| unfold set_e2e, modify; eauto].
  destruct (awaitUrl_settles (frontendPolls env) frontendUrl t st) as [[t' ->] | [msg ->]];
    [| unfold set_e2e, modify; eauto].
  unfold ret, execCommand, throw, set_e2e, modify.
  destruct (playwright env); simpl; eexists; split; reflexivity.
Qed.

Definition with_console (st : Runner) (lines : list string) : Runner :=
  mkRunner (backendProcess st) (frontendProcess st) (testResults st)
    (spawned st) (killed st) (cleanups st) (console st ++ lines) (reportFile st).

Definition with_report (st : Runner) (text : string) : Runner :=
  mkRunner (backendProcess st) (frontendProcess st) (testResults st)
    (spawned st) (killed st) (cleanups st) (console st) (Some text).

Lemma log_all_spec lines st : log_all lines st = (Done tt, with_console st lines).
Proof.
  revert st; induction lines as [| l lines IH]; intro st.
  - unfold with_console; simpl; rewrite app_nil_r; destruct st; reflexivity.
  - cbn [log_all]; unfold bind, log, modify; rewrite IH.
    unfold with_console; simpl; rewrite <- app_assoc; reflexivity.
Qed.

(** The lines [generateReport] prints. *)
Definition report_lines (t : TestResults) : list string :=
  flat_map summary_lines (phases t) ++
  [if overallSuccess t then all_passed_line else some_failed_line].

Lemma generateReport_spec st :
  generateReport env st =
    let st1 := with_console st (report_lines (testResults st)) in
    match writeError env, Json.stringify (TestResults_toJS (testResults st)) with
    | Some msg, _ => (Thrown msg, st1)
    | None, None => (Thrown "The data argument must be of type string", st1)
    | None, Some text => (Done tt, with_report st1 text)
    end.
Proof.
  unfold generateReport; cbv zeta.
  remember (Json.stringify (TestResults_toJS (testResults st))) as js.
  unfold bind; rewrite log_all_spec.
  unfold report_lines, writeFileSync, with_console, with_report, log, modify, throw; simpl.
  destruct (overallSuccess (testResults st)); simpl; rewrite <- app_assoc;
    destruct (writeError env); destruct js; reflexivity.
Qed.

(** C7: [generateReport] derives the overall success from exactly the
    three phase results: it is the conjunction of the [success] values
    of the API-integration, frontend and end-to-end results, and the
    report announces that all tests passed exactly when that conjunction
    holds, that is when all three are true. *)
Theorem C7_overall_success_is_and_of_three_phases (st : Runner) :
  let t := testResults st in
  overallSuccess t =
    truthy (field "success" (integration t)) &&
    truthy (field "success" (frontend t)) &&
    truthy (field "success" (e2e t)) /\
  console (snd (generateReport env st)) =
    console st ++ flat_map summary_lines (phases t) ++
    [if overallSuccess t then all_passed_line else some_failed_line] /\
  (overallSuccess t = true <->
   truthy (field "success" (integration t)) = true /\
   truthy (field "success" (frontend t)) = true /\
   truthy (field "success" (e2e t)) = true).
Proof.
  intro t.
  assert (H : overallSuccess t =
              truthy (field "success" (integration t)) &&
              truthy (field "success" (frontend t)) &&
              truthy (field "success" (e2e t))).
  { unfold overallSuccess, phases; simpl; rewrite andb_true_r, andb_assoc; reflexivity. }
  split; [exact H |]; split.
  - rewrite generateReport_spec; fold t; unfold report_lines; cbv zeta.
    destruct (writeError env);
      destruct (Json.stringify (TestResults_toJS t)); reflexivity.
  - rewrite H, !andb_true_iff; tauto.
Qed.

Lemma generateReport_processes st :
  processes (snd (generateReport env st)) = processes st /\
  ((exists u, fst (generateReport env st) = Done u) \/
   (exists msg, fst (generateReport env st) = Thrown msg)).
Proof.
  rewrite generateReport_spec; cbv zeta.
  destruct (writeError env);
    destruct (Json.stringify (TestResults_toJS (testResults st)));
    simpl; split; eauto.
Qed.

Lemma checkPrerequisites_state st :
  snd (checkPrerequisites env st) = st /\
  ((exists u, fst (checkPrerequisites env st) = Done u) \/
   (exists msg, fst (checkPrerequisites env st) = Thrown msg)).
Proof.
  unfold checkPrerequisites, bind, execCommand, throw, ret.
  destruct (backendDirExists env); simpl; eauto.
  destruct (requirementsExists env); simpl; eauto.
  destruct (nodeModulesExists env); simpl; eauto.
  destruct (npmInstall env); simpl; eauto.
Qed.

(** What a run does to the processes, by the way it ends: when it
    completes, [cleanup] ran once and killed both children; when it ends
    in [process.exit(1)] or waits for ever, [cleanup] did not run and
    nothing was killed.  No error leaves [run]. *)
Lemma run_outcomes :
  match run env create with
  | (Done _, st) =>
      cleanups st = 1%nat /\
      spawned st = [BackendProc; FrontendProc] /\
      killed st = [BackendProc; FrontendProc]
  | (Exited code, st) => code = 1 /\ cleanups st = 0%nat /\ killed st = []
  | (Hung, st) => cleanups st = 0%nat /\ killed st = []
  | (Thrown _, _) => False
  end.
Proof.
  unfold run, try_catch_finally, try_catch, process_exit.
  unfold bind at 1.
  destruct (checkPrerequisites_state create) as [Es [[u Eo] | [msg Eo]]];
    destruct (checkPrerequisites env create) as [o st0]; simpl in Es, Eo;
    subst o st0; [| simpl; auto].
  unfold bind at 1, startBackend, bind at 1, modify, await.
  destruct (startBackend_promise (backendChild env)); simpl; auto.
  unfold bind at 1, startFrontend, bind at 1, modify, await.
  destruct (startFrontend_promise (frontendChild env)); simpl; auto.
  unfold bind at 1.
  match goal with |- context [runApiTests env ?s] =>
    destruct (runApiTests_done s) as (st1 & -> & P1)
  end.
  unfold bind at 1; destruct (runFrontendTests_done st1) as (st2 & -> & P2).
  unfold bind at 1; destruct (runE2ETests_done st2) as (st3 & -> & P3).
  rewrite P2, P1 in P3.
  destruct (generateReport_processes st3) as [P4 [[u' Eo] | [msg Eo]]];
    destruct (generateReport env st3) as [o st4]; simpl in P4, Eo; subst o;
    rewrite P3 in P4; unfold processes in P4; simpl in P4;
    inversion P4 as [[Hb Hf Hs Hk Hc]].
  - unfold cleanup, bind, modify, kill; rewrite Hb, Hf; simpl.
    rewrite Hc, Hs, Hk; auto.
  - simpl; auto.
Qed.

End RunFacts.

Section RunExamples.
Import JS IntegrationTestRunner.

(** C1, at the failing input: the backend is spawned and comes up, the
    frontend fails to start.  The error reaches the [catch] clause of
    [run], whose [process.exit(1)] ends the process before the [finally]
    block: [cleanup] is not invoked and the backend process is not
    killed.  The same happens when the prerequisites fail.  On a run
    that completes, [cleanup] is invoked once and kills both children. *)
Theorem C1_cleanup_skipped_on_fatal_error :
  (exists st,
     run env_frontend_fails create = (Exited 1, st) /\
     cleanups st = 0%nat /\
     spawned st = [BackendProc; FrontendProc] /\
     backendProcess st = Some BackendProc /\
     killed st = []) /\
  (exists st,
     run env_no_backend_dir create = (Exited 1, st) /\ cleanups st = 0%nat) /\
  (exists st,
     run healthy_env create = (Done tt, st) /\
     cleanups st = 1%nat /\
     killed st = [BackendProc; FrontendProc]).
Proof.
  split; [| split]; eexists; (split; [vm_compute; reflexivity |]);
    repeat split.
Qed.

End RunExamples.

(* ================================================================== *)
(** * Reading back what JSON.stringify wrote *)
(* ================================================================== *)

Section JsonText.
Import JS Json.

Lemma append_assoc (a b c : string) : ((a ++ b) ++ c = a ++ (b ++ c))%string.
Proof. induction a as [| x a IH]; simpl; [reflexivity | now rewrite IH]. Qed.

Lemma append_nil_r (a : string) : (a ++ EmptyString)%string = a.
Proof. induction a as [| x a IH]; simpl; [reflexivity | now rewrite IH]. Qed.

Lemma length_append (a b : string) :
  String.length (a ++ b)%string = (String.length a + String.length b)%nat.
Proof. induction a as [| x a IH]; simpl; [reflexivity | now rewrite IH]. Qed.

(** ** String literals *)

Lemma parse_chars_escape (c : ascii) (t : string) :
  parse_chars (escape c ++ t)%string = cons_char c (parse_chars t).
Proof.
  destruct c as [[] [] [] [] [] [] [] []]; reflexivity.
Qed.

Lemma parse_chars_quoted (s rest : string) :
  parse_chars (escape_all s ++ String dquote rest)%string = Some (s, rest).
Proof.
  induction s as [| c s IH]; [reflexivity |].
  cbn [escape_all]; rewrite append_assoc, parse_chars_escape, IH; reflexivity.
Qed.

(** ** White space *)

Fixpoint all_ws (s : string) : bool :=
  match s with
  | EmptyString => true
  | String c r => is_ws c && all_ws r
  end.

Lemma all_ws_app a b : all_ws (a ++ b)%string = all_ws a && all_ws b.
Proof.
  induction a as [| x a IH]; simpl; [reflexivity |].
  now rewrite IH, andb_assoc.
Qed.

Lemma skip_ws_app w t : all_ws w = true -> skip_ws (w ++ t)%string = skip_ws t.
Proof.
  induction w as [| x w IH]; simpl; [reflexivity |].
  intro H; apply andb_true_iff in H; destruct H as [Hx Hw].
  rewrite Hx; auto.
Qed.

Lemma all_ws_indent ind : all_ws ind = true -> all_ws (ind ++ gap)%string = true.
Proof. intro H; rewrite all_ws_app, H; reflexivity. Qed.

Lemma all_ws_nl_indent ind : all_ws ind = true -> all_ws (nl ++ ind)%string = true.
Proof. intro H; rewrite all_ws_app, H; reflexivity. Qed.

Lemma parse_value_skip_ws fuel w t :
  all_ws w = true -> parse_value fuel (w ++ t)%string = parse_value fuel t.
Proof.
  intro H; destruct fuel; [reflexivity |].
  cbn [parse_value]; rewrite skip_ws_app; auto.
Qed.

(** ** Integer literals *)

Fixpoint all_digits (s : string) : bool :=
  match s with
  | EmptyString => true
  | String c r => is_digit c && all_digits r
  end.

(** What may follow a value: not a digit. *)
Definition ends_number (rest : string) : bool :=
  match rest with
  | EmptyString => true
  | String c _ => negb (is_digit c)
  end.

Lemma span_digits_app d rest :
  all_digits d = true -> ends_number rest = true ->
  span_digits (d ++ rest)%string = (d, rest).
Proof.
  intros Hd Hr; induction d as [| c d IH]; simpl in *.
  - destruct rest as [| c r]; [reflexivity |]; simpl in *.
    destruct (is_digit c); [discriminate | reflexivity].
  - apply andb_true_iff in Hd; destruct Hd as [Hc Hd].
    rewrite Hc, (IH Hd); reflexivity.
Qed.

Lemma all_digits_app a b : all_digits (a ++ b)%string = all_digits a && all_digits b.
Proof.
  induction a as [| x a IH]; simpl; [reflexivity |].
  now rewrite IH, andb_assoc.
Qed.

Lemma all_digits_uint (d : Decimal.uint) :
  all_digits (NilEmpty.string_of_uint d) = true.
Proof. induction d; simpl; auto. Qed.

Lemma all_digits_uint_zero (d : Decimal.uint) :
  all_digits (NilZero.string_of_uint d) = true.
Proof. destruct d; try reflexivity; apply (all_digits_uint (_ _)). Qed.

Lemma uint_text_nonempty (d : Decimal.uint) :
  exists c t, NilZero.string_of_uint d = String c t /\ is_digit c = true.
Proof. destruct d; simpl; eauto. Qed.

Lemma to_int_proper (z : Z) :
  Z.to_int z <> Decimal.Pos Decimal.Nil /\ Z.to_int z <> Decimal.Neg Decimal.Nil.
Proof.
  destruct z; simpl; split; try discriminate;
    intro H; injection H; apply DecimalPos.Unsigned.to_uint_nonnil.
Qed.

Lemma parse_number_printed (z : Z) (rest : string) :
  ends_number rest = true ->
  parse_number (NilZero.string_of_int (Z.to_int z) ++ rest)%string = Some (Num z, rest).
Proof.
  intro Hr.
  assert (Hlit : forall lit,
            lit = NilZero.string_of_int (Z.to_int z) ->
            match NilZero.int_of_string lit with
            | Some i =>
                if (NilZero.string_of_int (Z.to_int (Z.of_int i)) =? lit)%string
                then Some (Num (Z.of_int i), rest) else None
            | None => None
            end = Some (Num z, rest)).
  { intros lit ->.
    destruct (to_int_proper z) as [H1 H2].
    rewrite NilZero.isi by assumption.
    rewrite DecimalZ.of_to, String.eqb_refl; reflexivity. }
  unfold parse_number.
  destruct (Z.to_int z) as [u | u] eqn:Ez; cbn [NilZero.string_of_int] in *.
  - destruct (uint_text_nonempty u) as (c & t & Eu & Hc).
    assert (Hsp : span_digits (NilZero.string_of_uint u ++ rest)%string =
                  (NilZero.string_of_uint u, rest))
      by (apply span_digits_app; auto using all_digits_uint_zero).
    rewrite Eu in *; cbn [append] in *.
    assert (Hm : c <> "-"%char) by (intros ->; discriminate).
    destruct c as [[] [] [] [] [] [] [] []]; try discriminate Hc;
      rewrite Hsp; apply Hlit; reflexivity.
  - cbn [append].
    rewrite span_digits_app by auto using all_digits_uint_zero.
    apply Hlit; reflexivity.
Qed.

(** ** Values *)

(** Induction on values that reaches the elements and members. *)
Lemma value_induction (P : value -> Prop) :
  P Undefined -> P Null -> (forall b, P (Bool b)) -> (forall z, P (Num z)) ->
  (forall s, P (Str s)) ->
  (forall vs, Forall P vs -> P (Arr vs)) ->
  (forall fs, Forall (fun kv => P (snd kv)) fs -> P (Obj fs)) ->
  forall v, P v.
Proof.
  intros HU HN HB HZ HS HA HO.
  fix IH 1; intro v; destruct v as [| | b | z | s | vs | fs].
  - exact HU.
  - exact HN.
  - apply HB.
  - apply HZ.
  - apply HS.
  - apply HA; induction vs as [| x vs IHvs]; constructor; [apply IH | exact IHvs].
  - apply HO; induction fs as [| kv fs IHfs]; constructor; [apply IH | exact IHfs].
Qed.

(** The number of values and members a parser has to read. *)
Fixpoint size (v : value) : nat :=
  match v with
  | Arr vs => S (list_sum (map (fun x => S (size x)) vs))
  | Obj fs =>
      S (list_sum (map (fun kv => if is_undefined (snd kv) then 0%nat
                                  else S (size (snd kv))) fs))
  | _ => 1%nat
  end.

(** The text of an array element. *)
Definition elem_text (ind : string) (x : value) : string :=
  match serialize ind x with Some t => t | None => "null"%string end.

(** The texts of the members of an object. *)
Definition member_texts (ind : string) (fs : list (string * value)) : list string :=
  flat_map (fun kv =>
              match serialize ind (snd kv) with
              | Some t => [(quote (fst kv) ++ ": " ++ t)%string]
              | None => []
              end) fs.

Definition canon_step (acc : list (string * value)) (kv : string * value) :=
  if is_undefined (snd kv) then acc else JS.set (fst kv) (canon (snd kv)) acc.

Lemma serialize_Arr ind vs :
  serialize ind (Arr vs) = Some (wrap "[" "]" ind (map (elem_text (ind ++ gap)) vs)).
Proof. reflexivity. Qed.

Lemma serialize_Obj ind fs :
  serialize ind (Obj fs) = Some (wrap "{" "}" ind (member_texts (ind ++ gap) fs)).
Proof. reflexivity. Qed.

Lemma canon_Obj fs : canon (Obj fs) = Obj (fold_left canon_step fs []).
Proof. reflexivity. Qed.

Lemma serialize_None ind v : serialize ind v = None -> v = Undefined.
Proof. destruct v as [| | [] | | | |]; simpl; congruence. Qed.

Lemma serialize_Some ind v t : serialize ind v = Some t -> is_undefined v = false.
Proof. destruct v; simpl; congruence. Qed.

(** The first character of a value. *)
Definition value_start (c : ascii) : bool :=
  is_digit c || Ascii.eqb c "-" || Ascii.eqb c "{" || Ascii.eqb c "[" ||
  Ascii.eqb c dquote || Ascii.eqb c "t" || Ascii.eqb c "f" || Ascii.eqb c "n".

Lemma wrap_start open close ind partial :
  exists t, wrap (String open EmptyString) close ind partial = String open t.
Proof. destruct partial; simpl; eauto. Qed.

Lemma elem_text_start ind x :
  exists c t, elem_text ind x = String c t /\ value_start c = true.
Proof.
  unfold elem_text; destruct x as [| | [] | z | s | vs | fs];
    try (simpl; eexists; eexists; split; reflexivity).
  - cbn [serialize]; destruct (Z.to_int z) as [u | u]; cbn [NilZero.string_of_int].
    + destruct (uint_text_nonempty u) as (c & t & -> & Hc).
      exists c, t; split; [reflexivity |]; unfold value_start; rewrite Hc; reflexivity.
    + eexists; eexists; split; reflexivity.
  - rewrite serialize_Arr; destruct (wrap_start "[" "]" ind (map (elem_text (ind ++ gap)) vs))
      as (t & ->); eexists; eexists; split; reflexivity.
  - rewrite serialize_Obj; destruct (wrap_start "{" "}" ind (member_texts (ind ++ gap) fs))
      as (t & ->); eexists; eexists; split; reflexivity.
Qed.

Lemma value_start_not_ws c : value_start c = true -> is_ws c = false.
Proof. destruct c as [[] [] [] [] [] [] [] []]; intro H; try discriminate H; reflexivity. Qed.

Lemma skip_ws_value_start w c r :
  all_ws w = true -> value_start c = true ->
  skip_ws (w ++ String c r)%string = String c r.
Proof.
  intros Hw Hc; rewrite skip_ws_app by assumption.
  cbn [skip_ws]; rewrite (value_start_not_ws c Hc); reflexivity.
Qed.

Lemma parse_value_array f w body c r :
  all_ws w = true -> body = String c r -> value_start c = true ->
  parse_value (S f) (String "[" (w ++ body))%string =
    parse_elements f [] (w ++ body)%string.
Proof.
  intros Hw -> Hc; cbn [parse_value skip_ws]; simpl.
  rewrite skip_ws_value_start by assumption.
  destruct c as [[] [] [] [] [] [] [] []]; try discriminate Hc; reflexivity.
Qed.

Lemma parse_value_object f w body r :
  all_ws w = true -> body = String dquote r ->
  parse_value (S f) (String "{" (w ++ body))%string =
    parse_members f [] (w ++ body)%string.
Proof.
  intros Hw ->; cbn [parse_value skip_ws]; simpl.
  rewrite skip_ws_app by assumption; reflexivity.
Qed.

(** ** Elements and members *)

Definition elems_size (vs : list value) : nat :=
  list_sum (map (fun x => S (size x)) vs).

Definition members_size (fs : list (string * value)) : nat :=
  list_sum (map (fun kv => if is_undefined (snd kv) then 0%nat
                           else S (size (snd kv))) fs).

(** The text of [v] as an element, followed by anything that does not
    go on with a digit, reads back as [canon v]. *)
Definition reads_back (v : value) : Prop :=
  forall ind fuel rest,
    all_ws ind = true -> (size v <= fuel)%nat -> ends_number rest = true ->
    parse_value fuel (elem_text ind v ++ rest)%string = Some (canon v, rest).

Lemma elems_size_cons x vs : elems_size (x :: vs) = (S (size x) + elems_size vs)%nat.
Proof. reflexivity. Qed.

Lemma members_size_cons kv fs :
  members_size (kv :: fs) =
    ((if is_undefined (snd kv) then 0 else S (size (snd kv))) + members_size fs)%nat.
Proof. reflexivity. Qed.

Lemma join_two sep (x y : string) l :
  join sep (x :: y :: l) = (x ++ sep ++ join sep (y :: l))%string.
Proof. reflexivity. Qed.

Lemma skip_ws_closing stepback c rest :
  all_ws stepback = true -> is_ws c = false ->
  skip_ws (nl ++ stepback ++ String c rest)%string = String c rest.
Proof.
  intros Hs Hc; rewrite <- append_assoc, skip_ws_app
    by (now apply all_ws_nl_indent).
  cbn [skip_ws]; rewrite Hc; reflexivity.
Qed.

Lemma next_item (x ind J tail : string) :
  ((x ++ ("," ++ nl ++ ind) ++ J) ++ tail)%string =
  (x ++ String "," ((nl ++ ind) ++ J ++ tail))%string.
Proof.
  rewrite !append_assoc; cbn [append]; rewrite ?append_assoc; reflexivity.
Qed.

Lemma parse_elements_next f acc s v r1 r2 :
  parse_value f s = Some (v, r1) -> skip_ws r1 = String "," r2 ->
  parse_elements (S f) acc s = parse_elements f (acc ++ [v]) r2.
Proof. intros H1 H2; cbn [parse_elements]; rewrite H1, H2; reflexivity. Qed.

Lemma parse_elements_last f acc s v r1 r2 :
  parse_value f s = Some (v, r1) -> skip_ws r1 = String "]" r2 ->
  parse_elements (S f) acc s = Some (Arr (acc ++ [v]), r2).
Proof. intros H1 H2; cbn [parse_elements]; rewrite H1, H2; reflexivity. Qed.

Lemma parse_elements_printed vs :
  Forall reads_back vs -> vs <> [] ->
  forall ind stepback fuel acc w rest,
    all_ws ind = true -> all_ws stepback = true -> all_ws w = true ->
    (elems_size vs <= fuel)%nat ->
    parse_elements fuel acc
      (w ++ join ("," ++ nl ++ ind) (map (elem_text ind) vs) ++
       nl ++ stepback ++ String "]" rest)%string =
    Some (Arr (acc ++ map canon vs), rest).
Proof.
  induction 1 as [| x vs Hx Hvs IH]; [congruence |].
  intros _ ind stepback fuel acc w rest Hi Hs Hw Hf.
  rewrite elems_size_cons in Hf.
  destruct fuel as [| f]; [lia |].
  destruct vs as [| y vs'].
  - cbn [map join].
    match goal with
    | |- parse_elements _ _ (w ++ elem_text ind x ++ ?r1)%string = _ =>
        pose proof (Hx ind f r1 Hi ltac:(lia) eq_refl) as Hv
    end.
    rewrite <- (parse_value_skip_ws f w) in Hv by assumption.
    rewrite (parse_elements_last _ _ _ _ _ rest Hv); [reflexivity |].
    apply skip_ws_closing; [assumption | reflexivity].
  - cbn [map]; rewrite join_two, next_item.
    match goal with
    | |- parse_elements _ _ (w ++ elem_text ind x ++ ?r1)%string = _ =>
        pose proof (Hx ind f r1 Hi ltac:(lia) eq_refl) as Hv
    end.
    rewrite <- (parse_value_skip_ws f w) in Hv by assumption.
    rewrite (parse_elements_next _ _ _ _ _ _ Hv eq_refl).
    rewrite IH; [| discriminate | assumption | assumption
                 | now apply all_ws_nl_indent | lia].
    rewrite <- app_assoc; reflexivity.
Qed.

Lemma member_texts_cons_some ind k v fs t :
  serialize ind v = Some t ->
  member_texts ind ((k, v) :: fs) =
    (quote k ++ ": " ++ t)%string :: member_texts ind fs.
Proof. intro E; unfold member_texts; cbn [flat_map fst snd]; rewrite E; reflexivity. Qed.

Lemma member_texts_cons_none ind k v fs :
  serialize ind v = None -> member_texts ind ((k, v) :: fs) = member_texts ind fs.
Proof. intro E; unfold member_texts; cbn [flat_map fst snd]; rewrite E; reflexivity. Qed.

Lemma fold_canon_step_none ind fs acc :
  member_texts ind fs = [] -> fold_left canon_step fs acc = acc.
Proof.
  revert acc; induction fs as [| [k v] fs IH]; intros acc H; [reflexivity |].
  destruct (serialize ind v) as [t |] eqn:E.
  - rewrite (member_texts_cons_some _ _ _ _ _ E) in H; discriminate.
  - rewrite (member_texts_cons_none _ _ _ _ E) in H.
    cbn [fold_left]; unfold canon_step at 2; cbn [fst snd].
    rewrite (serialize_None _ _ E); cbn [is_undefined]; auto.
Qed.

Lemma member_text (k t tail : string) :
  ((quote k ++ ": " ++ t) ++ tail)%string =
  String dquote (escape_all k ++ String dquote (String ":" (String " " (t ++ tail))))%string.
Proof.
  unfold quote; cbn [append]; rewrite ?append_assoc; cbn [append]; reflexivity.
Qed.

Lemma parse_members_key f acc w k body :
  all_ws w = true ->
  parse_members (S f) acc
    (w ++ String dquote (escape_all k ++ String dquote (String ":" (String " " body))))%string =
  match parse_value f body with
  | None => None
  | Some (v, r3) =>
      match skip_ws r3 with
      | String "," r4 => parse_members f (JS.set k v acc) r4
      | String "}" r4 => Some (Obj (JS.set k v acc), r4)
      | _ => None
      end
  end.
Proof.
  intro Hw; cbn [parse_members].
  rewrite skip_ws_app by assumption.
  change (skip_ws (String dquote ?x)) with (String dquote x).
  cbv beta iota.
  replace (Ascii.eqb dquote dquote) with true by reflexivity.
  rewrite parse_chars_quoted.
  change (skip_ws (String ":" ?x)) with (String ":" x).
  cbv beta iota.
  change (String " " body) with (" " ++ body)%string.
  rewrite parse_value_skip_ws by reflexivity.
  reflexivity.
Qed.

Lemma parse_members_printed fs :
  Forall (fun kv => reads_back (snd kv)) fs ->
  forall ind stepback fuel acc w rest,
    all_ws ind = true -> all_ws stepback = true -> all_ws w = true ->
    member_texts ind fs <> [] ->
    (members_size fs <= fuel)%nat ->
    parse_members fuel acc
      (w ++ join ("," ++ nl ++ ind) (member_texts ind fs) ++
       nl ++ stepback ++ String "}" rest)%string =
    Some (Obj (fold_left canon_step fs acc), rest).
Proof.
  induction 1 as [| [k v] fs Hv Hfs IH];
    [intros; exfalso; match goal with H : _ <> _ |- _ => apply H; reflexivity end |].
  intros ind stepback fuel acc w rest Hi Hs Hw Hne Hf.
  rewrite members_size_cons in Hf; cbn [fst snd] in *.
  destruct (serialize ind v) as [t |] eqn:E.
  - rewrite (member_texts_cons_some _ _ _ _ _ E) in *.
    rewrite (serialize_Some _ _ _ E) in Hf.
    cbn [fold_left]; unfold canon_step at 2; cbn [fst snd].
    rewrite (serialize_Some _ _ _ E).
    destruct fuel as [| f]; [lia |].
    assert (Et : elem_text ind v = t) by (unfold elem_text; rewrite E; reflexivity).
    destruct (member_texts ind fs) as [| m ms] eqn:Em.
    + cbn [join]; rewrite member_text, parse_members_key by assumption.
      rewrite <- Et.
      match goal with
      | |- context [parse_value f (elem_text ind v ++ ?r1)%string] =>
          rewrite (Hv ind f r1 Hi ltac:(lia) eq_refl)
      end.
      rewrite skip_ws_closing by (assumption || reflexivity).
      rewrite (fold_canon_step_none ind) by assumption; reflexivity.
    + rewrite join_two, next_item, member_text, parse_members_key by assumption.
      rewrite <- Et.
      match goal with
      | |- context [parse_value f (elem_text ind v ++ ?r1)%string] =>
          rewrite (Hv ind f r1 Hi ltac:(lia) eq_refl)
      end.
      change (skip_ws (String "," ?x)) with (String "," x); cbv beta iota.
      rewrite <- Em.
      apply IH; [assumption | assumption | now apply all_ws_nl_indent
                | rewrite Em; discriminate | lia].
  - rewrite (member_texts_cons_none _ _ _ _ E) in *.
    cbn [fold_left]; unfold canon_step at 2; cbn [fst snd].
    rewrite (serialize_None _ _ E) in *; cbn [is_undefined] in *.
    apply IH; auto; lia.
Qed.

Lemma array_text ind p ps rest :
  (wrap "[" "]" ind (p :: ps) ++ rest)%string =
  String "[" ((nl ++ ind ++ gap) ++
              join ("," ++ nl ++ ind ++ gap) (p :: ps) ++
              nl ++ ind ++ String "]" rest)%string.
Proof. unfold wrap; rewrite !append_assoc; reflexivity. Qed.

Lemma object_text ind p ps rest :
  (wrap "{" "}" ind (p :: ps) ++ rest)%string =
  String "{" ((nl ++ ind ++ gap) ++
              join ("," ++ nl ++ ind ++ gap) (p :: ps) ++
              nl ++ ind ++ String "}" rest)%string.
Proof. unfold wrap; rewrite !append_assoc; reflexivity. Qed.

Lemma member_texts_start ind fs m ms :
  member_texts ind fs = m :: ms -> exists t, m = String dquote t.
Proof.
  induction fs as [| [k x] fs IH]; [discriminate |].
  destruct (serialize ind x) as [tx |] eqn:E.
  - rewrite (member_texts_cons_some _ _ _ _ _ E); intros [= <- _].
    unfold quote; cbn [append]; eauto.
  - rewrite (member_texts_cons_none _ _ _ _ E); exact IH.
Qed.

Lemma join_start sep c t ps tail :
  exists t', (join sep (String c t :: ps) ++ tail)%string = String c t'.
Proof. destruct ps; cbn [join append]; eauto. Qed.

Lemma number_start z :
  exists c t,
    NilZero.string_of_int (Z.to_int z) = String c t /\
    (is_digit c || Ascii.eqb c "-") = true.
Proof.
  destruct (Z.to_int z) as [u | u]; cbn [NilZero.string_of_int].
  - destruct (uint_text_nonempty u) as (c & t & -> & Hc).
    exists c, t; rewrite Hc; auto.
  - eexists; eexists; split; reflexivity.
Qed.

Lemma number_start_not_ws c :
  (is_digit c || Ascii.eqb c "-") = true -> is_ws c = false.
Proof. destruct c as [[] [] [] [] [] [] [] []]; intro H; try discriminate H; reflexivity. Qed.

(** Every value reads back. *)
Lemma reads_back_all (v : value) : reads_back v.
Proof.
  induction v as [| | b | z | s | vs IH | fs IH] using value_induction;
    intros ind fuel rest Hi Hf Hr;
    (destruct fuel as [| f]; [simpl in Hf; lia |]).
  - reflexivity.
  - reflexivity.
  - destruct b; reflexivity.
  - unfold elem_text; cbn [serialize canon].
    destruct (number_start z) as (c & t & Ez & Hc).
    rewrite <- (parse_number_printed z rest Hr).
    rewrite Ez in *; cbn [append parse_value skip_ws].
    rewrite (number_start_not_ws c Hc), Hc; reflexivity.
  - unfold elem_text; cbn [serialize canon]; unfold quote.
    cbn [append parse_value skip_ws]; rewrite append_assoc.
    cbn [append].
    replace (is_ws dquote) with false by reflexivity.
    replace (is_digit dquote || Ascii.eqb dquote "-") with false by reflexivity.
    replace (Ascii.eqb dquote "{") with false by reflexivity.
    replace (Ascii.eqb dquote "[") with false by reflexivity.
    replace (Ascii.eqb dquote dquote) with true by reflexivity.
    rewrite parse_chars_quoted; reflexivity.
  - unfold elem_text; rewrite serialize_Arr; cbn [canon].
    destruct vs as [| x vs]; [reflexivity |].
    cbn [map]; rewrite array_text.
    destruct (elem_text_start (ind ++ gap) x) as (c & t & Ex & Hc).
    destruct (join_start ("," ++ nl ++ ind ++ gap) c t
                (map (elem_text (ind ++ gap)) vs) (nl ++ ind ++ String "]" rest))
      as (t' & Ej).
    rewrite <- Ex in Ej.
    rewrite (parse_value_array f _ _ c t'
               (all_ws_nl_indent _ (all_ws_indent _ Hi)) Ej Hc).
    apply (parse_elements_printed (x :: vs) IH ltac:(discriminate)
             (ind ++ gap)%string ind f [] (nl ++ ind ++ gap)%string rest);
      [now apply all_ws_indent | assumption
      | now apply all_ws_nl_indent, all_ws_indent
      | simpl in Hf; unfold elems_size; simpl; lia].
  - unfold elem_text; rewrite serialize_Obj, canon_Obj.
    destruct (member_texts (ind ++ gap) fs) as [| m ms] eqn:Em.
    + rewrite (fold_canon_step_none (ind ++ gap)) by assumption; reflexivity.
    + rewrite object_text, <- Em.
      assert (Hj : exists t',
                 (join ("," ++ nl ++ ind ++ gap) (member_texts (ind ++ gap) fs) ++
                  nl ++ ind ++ String "}" rest)%string = String dquote t').
      { rewrite Em; destruct (member_texts_start _ _ _ _ Em) as (tm & ->).
        apply join_start. }
      destruct Hj as (t' & Ej).
      rewrite (parse_value_object f _ _ t'
                 (all_ws_nl_indent _ (all_ws_indent _ Hi)) Ej).
      apply (parse_members_printed fs IH (ind ++ gap)%string ind f []
               (nl ++ ind ++ gap)%string rest);
        [now apply all_ws_indent | assumption
        | now apply all_ws_nl_indent, all_ws_indent
        | rewrite Em; discriminate
        | simpl in Hf; unfold members_size; simpl; lia].
Qed.

(** ** The fuel of [parse] suffices *)

Lemma join_length sep ps :
  (1 <= String.length sep)%nat ->
  (list_sum (map (fun p => S (String.length p)) ps) <= S (String.length (join sep ps)))%nat.
Proof.
  intro Hsep; induction ps as [| p [| q ps] IH].
  - simpl; lia.
  - simpl; lia.
  - rewrite join_two, !length_append.
    change (list_sum (map (fun p => S (String.length p)) (p :: q :: ps)))
      with (S (String.length p) +
            list_sum (map (fun p => S (String.length p)) (q :: ps)))%nat.
    lia.
Qed.

Lemma wrap_length open close ind ps :
  (String.length (join ("," ++ nl ++ ind ++ gap) ps) +
   String.length open + String.length close
   <= String.length (wrap open close ind ps))%nat.
Proof.
  destruct ps as [| p ps].
  - simpl; rewrite length_append; lia.
  - unfold wrap; rewrite !length_append; lia.
Qed.

Lemma elems_size_le ind vs :
  Forall (fun x => forall ind, (size x <= String.length (elem_text ind x))%nat) vs ->
  (elems_size vs <=
   list_sum (map (fun p => S (String.length p)) (map (elem_text ind) vs)))%nat.
Proof.
  induction 1 as [| x vs Hx Hvs IH]; [reflexivity |].
  rewrite elems_size_cons; cbn [map].
  change (list_sum (?a :: ?l)) with (a + list_sum l)%nat.
  specialize (Hx ind); lia.
Qed.

Lemma members_size_le ind fs :
  Forall (fun kv => forall ind, (size (snd kv) <= String.length (elem_text ind (snd kv)))%nat) fs ->
  (members_size fs <=
   list_sum (map (fun p => S (String.length p)) (member_texts ind fs)))%nat.
Proof.
  induction 1 as [| [k x] fs Hx Hfs IH]; [reflexivity |].
  rewrite members_size_cons; cbn [fst snd] in *.
  destruct (serialize ind x) as [t |] eqn:E.
  - rewrite (member_texts_cons_some _ _ _ _ _ E), (serialize_Some _ _ _ E).
    cbn [map]; change (list_sum (?a :: ?l)) with (a + list_sum l)%nat.
    specialize (Hx ind); unfold elem_text in Hx; rewrite E in Hx.
    rewrite !length_append; lia.
  - rewrite (member_texts_cons_none _ _ _ _ E), (serialize_None _ _ E).
    cbn [is_undefined]; lia.
Qed.

Lemma size_le_length (v : value) :
  forall ind, (size v <= String.length (elem_text ind v))%nat.
Proof.
  induction v as [| | b | z | s | vs IH | fs IH] using value_induction; intro ind.
  - simpl; lia.
  - simpl; lia.
  - destruct b; simpl; lia.
  - unfold elem_text; cbn [serialize size].
    destruct (number_start z) as (c & t & -> & _); simpl; lia.
  - simpl; lia.
  - unfold elem_text; rewrite serialize_Arr; cbn [size]; fold (elems_size vs).
    pose proof (elems_size_le (ind ++ gap) vs IH) as H1.
    pose proof (join_length ("," ++ nl ++ ind ++ gap)
                  (map (elem_text (ind ++ gap)) vs) ltac:(simpl; lia)) as H2.
    pose proof (wrap_length "[" "]" ind (map (elem_text (ind ++ gap)) vs)) as H3.
    simpl String.length in H3 at 2 3; lia.
  - unfold elem_text; rewrite serialize_Obj; cbn [size]; fold (members_size fs).
    pose proof (members_size_le (ind ++ gap) fs IH) as H1.
    pose proof (join_length ("," ++ nl ++ ind ++ gap)
                  (member_texts (ind ++ gap) fs) ltac:(simpl; lia)) as H2.
    pose proof (wrap_length "{" "}" ind (member_texts (ind ++ gap) fs)) as H3.
    simpl String.length in H3 at 2 3; lia.
Qed.

(** [JSON.parse(JSON.stringify(v, null, 2))] is [canon v]. *)
Theorem parse_stringify (v : value) (t : string) :
  stringify v = Some t -> parse t = Some (canon v).
Proof.
  unfold stringify, parse; intro E.
  assert (Et : elem_text EmptyString v = t) by (unfold elem_text; rewrite E; reflexivity).
  pose proof (reads_back_all v EmptyString (S (String.length t)) EmptyString
                eq_refl) as H.
  rewrite Et, append_nil_r in H.
  rewrite H; [reflexivity | | reflexivity].
  pose proof (size_le_length v EmptyString) as Hs; rewrite Et in Hs; lia.
Qed.

End JsonText.

(* ================================================================== *)
(** * The report file read back *)
(* ================================================================== *)

Section Report.
Import JS IntegrationTestRunner.

(** The shapes a phase result can have once its phase has run, with the
    value [b] of its [success] member. *)
Definition phase_result (o : list (string * value)) (b : bool) : Prop :=
  o = [("success", Bool b)] \/
  (b = false /\ exists msg, o = failure msg) \/
  (exists r, b = BackendApiTester.success r /\ o = BackendApiTester.FullResult_fields r).

(** [JSON.parse(text)[phase].success] *)
Definition parsed_success (v : value) (phase : string) : value :=
  get_opt (get_opt v phase) "success".

(** The line of the console summary for a phase. *)
Definition status_text (name : string) (b : bool) : string :=
  (name ++ ": " ++ (if b then "PASS" else "FAIL"))%string.

Lemma phase_result_field o b : phase_result o b -> field "success" o = Bool b.
Proof.
  intros [-> | [[-> [msg ->]] | [r [-> ->]]]]; reflexivity.
Qed.

Lemma phase_result_canon o b :
  phase_result o b -> get_opt (Json.canon (Obj o)) "success" = Bool b.
Proof.
  intros [-> | [[-> [msg ->]] | [r [-> ->]]]]; reflexivity.
Qed.

Variable env : Env.

Lemma runApiTests_results st :
  exists I b,
    phase_result I b /\
    runApiTests env st =
      (Done tt, set_testResults
                  (fun t => mkTestResults (backend t) (frontend t) I (e2e t)) st).
Proof.
  unfold runApiTests, try_catch, set_integration, modify, throw.
  destruct (apiTesting env) as [msg | server].
  - exists (failure msg), false; split; [right; left; eauto | reflexivity].
  - destruct (BackendApiTester.runFullIntegrationTest _ _) as [[r | e] t].
    + exists (BackendApiTester.FullResult_fields r), (BackendApiTester.success r).
      split; [right; right; eauto | reflexivity].
    + exists (failure (BackendApiTester.message e)), false.
      split; [right; left; eauto | reflexivity].
Qed.

Lemma runFrontendTests_results st :
  frontend (testResults st) = [] ->
  exists F b,
    phase_result F b /\
    runFrontendTests env st =
      (Done tt, set_testResults
                  (fun t => mkTestResults (backend t) F (integration t) (e2e t)) st).
Proof.
  intro H0.
  unfold runFrontendTests, try_catch, bind, set_frontend, modify, execCommand, throw, ret.
  destruct (npmTest env) as [out | msg].
  - exists [("success", Bool true)], true; split; [left; reflexivity |].
    unfold set_testResults; rewrite H0; reflexivity.
  - exists (failure msg), false; split; [right; left; eauto | reflexivity].
Qed.

Lemma runE2ETests_results st :
  e2e (testResults st) = [] ->
  exists E b,
    phase_result E b /\
    runE2ETests env st =
      (Done tt, set_testResults
                  (fun t => mkTestResults (backend t) (frontend t) (integration t) E) st).
Proof.
  intro H0.
  unfold runE2ETests, waitForServices, try_catch, bind.
  destruct (awaitUrl_settles (healthPolls env) (backendUrl ++ "/health")%string
              (clockAtWait env) st) as [[t ->] | [msg ->]];
    [| exists (failure msg), false; split; [right; left; eauto | reflexivity]].
  destruct (awaitUrl_settles (frontendPolls env) frontendUrl t st) as [[t' ->] | [msg ->]];
    [| exists (failure msg), false; split; [right; left; eauto | reflexivity]].
  unfold ret, execCommand, throw, set_e2e, modify.
  destruct (playwright env) as [out | msg].
  - exists [("success", Bool true)], true; split; [left; reflexivity |].
    unfold set_testResults; simpl; rewrite H0; reflexivity.
  - exists (failure msg), false; split; [right; left; eauto | reflexivity].
Qed.

(** A run that wrote the report: what it stored, printed and wrote. *)
Lemma run_report o st text :
  run env create = (o, st) -> reportFile st = Some text ->
  exists I F E bi bf be,
    phase_result I bi /\ phase_result F bf /\ phase_result E be /\
    testResults st = mkTestResults [] F I E /\
    console st = report_lines (testResults st) /\
    Json.stringify (TestResults_toJS (testResults st)) = Some text.
Proof.
  unfold run, try_catch_finally, try_catch, process_exit.
  unfold bind at 1.
  destruct (checkPrerequisites_state env create) as [Es [[u Eo] | [msg Eo]]];
    destruct (checkPrerequisites env create) as [o0 st0]; simpl in Es, Eo;
    subst o0 st0; [| intros [= <- <-]; discriminate].
  unfold bind at 1, startBackend, bind at 1, modify, await.
  destruct (startBackend_promise (backendChild env)); simpl;
    try (intros [= <- <-]; discriminate).
  unfold bind at 1, startFrontend, bind at 1, modify, await.
  destruct (startFrontend_promise (frontendChild env)); simpl;
    try (intros [= <- <-]; discriminate).
  unfold bind at 1.
  match goal with |- context [runApiTests env ?s] =>
    destruct (runApiTests_results s) as (I & bi & HI & ->)
  end.
  unfold bind at 1.
  match goal with |- context [runFrontendTests env ?s] =>
    destruct (runFrontendTests_results s eq_refl) as (F & bf & HF & ->)
  end.
  unfold bind at 1.
  match goal with |- context [runE2ETests env ?s] =>
    destruct (runE2ETests_results s eq_refl) as (E & be & HE & ->)
  end.
  rewrite generateReport_spec; cbv zeta.
  unfold set_testResults; cbn [testResults backend frontend integration e2e
    backendProcess frontendProcess spawned killed cleanups console reportFile].
  destruct (writeError env) as [msg |];
    [intros [= <- <-]; discriminate |].
  destruct (Json.stringify _) as [text' |] eqn:Etext;
    [| intros [= <- <-]; discriminate].
  unfold cleanup, bind, modify, kill, with_report, with_console.
  cbn [testResults backend frontend integration e2e
    backendProcess frontendProcess spawned killed cleanups console reportFile].
  intros [= <- <-]; cbn [reportFile testResults console].
  intros [= <-].
  exists I, F, E, bi, bf, be; repeat split; auto.
Qed.

Lemma status_line_result name o b :
  phase_result o b -> status_line (name, o) = status_text name b.
Proof.
  intro H; unfold status_line, status_text; cbn [fst snd].
  rewrite (phase_result_field o b H); reflexivity.
Qed.

Lemma in_report_lines (t : TestResults) (r : string * list (string * value)) :
  In r (phases t) -> In (status_line r) (report_lines t).
Proof.
  intro H; unfold report_lines; apply in_or_app; left.
  apply in_flat_map; exists r; split; [exact H | left; reflexivity].
Qed.

(** C8: when a run has written the report file, parsing the file
    succeeds, and for each of the three phases the [success] member read
    back is the boolean that the run stored for the phase and that the
    PASS/FAIL line of the console summary shows. *)
Theorem C8_report_reads_back (o : Outcome unit) (st : Runner) (text : string) :
  run env create = (o, st) -> reportFile st = Some text ->
  exists v bi bf be,
    Json.parse text = Some v /\
    parsed_success v "integration" = Bool bi /\
    parsed_success v "frontend" = Bool bf /\
    parsed_success v "e2e" = Bool be /\
    field "success" (integration (testResults st)) = Bool bi /\
    field "success" (frontend (testResults st)) = Bool bf /\
    field "success" (e2e (testResults st)) = Bool be /\
    In (status_text "API Integration" bi) (console st) /\
    In (status_text "Frontend Tests" bf) (console st) /\
    In (status_text "E2E Tests" be) (console st).
Proof.
  intros Hrun Hfile.
  destruct (run_report o st text Hrun Hfile)
    as (I & F & E & bi & bf & be & HI & HF & HE & HT & HC & HS).
  exists (Json.canon (TestResults_toJS (testResults st))), bi, bf, be.
  split; [apply parse_stringify; exact HS |].
  rewrite HC, HT.
  split; [exact (phase_result_canon I bi HI) |].
  split; [exact (phase_result_canon F bf HF) |].
  split; [exact (phase_result_canon E be HE) |].
  cbn [integration frontend e2e].
  split; [now apply phase_result_field |].
  split; [now apply phase_result_field |].
  split; [now apply phase_result_field |].
  rewrite <- (status_line_result "API Integration" I bi HI).
  rewrite <- (status_line_result "Frontend Tests" F bf HF).
  rewrite <- (status_line_result "E2E Tests" E be HE).
  repeat split; apply in_report_lines; simpl; auto.
Qed.

End Report.

Section ReportExample.
Import JS IntegrationTestRunner.

(** The state a run in the healthy environment ends in and the report
    it writes. *)
Definition healthy_final : Runner := snd (run healthy_env create).

Definition healthy_report : string :=
  match reportFile healthy_final with Some t => t | None => EmptyString end.

Lemma C8_report_reads_back_witness :
  run healthy_env create = (Done tt, healthy_final) /\
  reportFile healthy_final = Some healthy_report /\
  exists v bi bf be,
    Json.parse healthy_report = Some v /\
    parsed_success v "integration" = Bool bi /\
    parsed_success v "frontend" = Bool bf /\
    parsed_success v "e2e" = Bool be /\
    field "success" (integration (testResults healthy_final)) = Bool bi /\
    field "success" (frontend (testResults healthy_final)) = Bool bf /\
    field "success" (e2e (testResults healthy_final)) = Bool be /\
    In (status_text "API Integration" bi) (console healthy_final) /\
    In (status_text "Frontend Tests" bf) (console healthy_final) /\
    In (status_text "E2E Tests" be) (console healthy_final).
Proof.
  assert (H1 : run healthy_env create = (Done tt, healthy_final))
    by (vm_compute; reflexivity).
  assert (H2 : reportFile healthy_final = Some healthy_report)
    by (vm_compute; reflexivity).
  split; [exact H1 |]; split; [exact H2 |].
  exact (C8_report_reads_back healthy_env (Done tt) healthy_final healthy_report H1 H2).
Defined.

(** The report of the healthy run parses to three passing phases. *)
Example healthy_report_parsed :
  match Json.parse healthy_report with
  | Some v =>
      parsed_success v "integration" = Bool true /\
      parsed_success v "frontend" = Bool true /\
      parsed_success v "e2e" = Bool true
  | None => False
  end.
Proof. vm_compute; repeat split. Qed.

End ReportExample.

(* ================================================================== *)
(** * Further properties of the API probes *)
(* ================================================================== *)

Section ProbeEdges.
Import JS BackendApiTester.

Variable server : list Request -> Request -> Reply.

Ltac run_probe :=
  unfold create_reply, first_reply, carries_id,
    testConnectivity, testAuthentication, testApplicationEndpoints,
    testDeploymentEndpoints, testAIEndpoints, testGraphQLEndpoint, createBlock,
    check, finish, try_catch, bind, ret, throw, prop, setAuthToken, get_opt,
    client_get, client_post, client_put, client_delete, request;
  simpl.

Ltac split_reply :=
  match goal with
  | |- context [match server ?h ?q with _ => _ end] =>
      let r := fresh "r" in let e := fresh "e" in
      destruct (server h q) as [r | e]; simpl
  | |- context [match get ?v ?k with _ => _ end] =>
      destruct (get v k); simpl
  | |- context [if truthy ?v then _ else _] =>
      destruct (truthy v); simpl
  end.

Ltac split_status :=
  repeat match goal with
         | H : context [(?a =? ?b)%Z] |- _ => destruct (a =? b)%Z; simpl in H
         end.

(** X1: an endpoint group that reports success recorded no error: for
    the application, deployment and AI probes, [success: true] comes
    with an empty [errors] list. *)
Theorem X1_success_means_no_errors (st : Tester) :
  (exists r, fst (testApplicationEndpoints server st) = Ok r /\
             (ep_success r = true -> ep_errors r = [])) /\
  (exists r, fst (testDeploymentEndpoints server st) = Ok r /\
             (ep_success r = true -> ep_errors r = [])) /\
  (exists r, fst (testAIEndpoints server st) = Ok r /\
             (ep_success r = true -> ep_errors r = [])).
Proof.
  repeat split; run_probe; repeat split_reply;
    eexists; (split; [reflexivity |]); simpl; intro H;
    split_status; try reflexivity; try discriminate H.
Qed.

(** X2: when the create request is answered without a body ([data] is
    [null] or [undefined]), reading [createResponse.data.data] throws
    inside the [try] block: [createApplication] is recorded as [false]
    whatever the status was, also 201, an error is pushed, the probe
    fails and the get, update and delete requests are not made. *)
Theorem X2_create_without_body_fails (st : Tester) (r : Response) :
  create_reply server st = Resolved r ->
  data r = Null \/ data r = Undefined ->
  exists res,
    fst (testApplicationEndpoints server st) = Ok res /\
    map fst (ep_results res) = ["listApplications"; "createApplication"] /\
    JS.lookup "createApplication" (ep_results res) = Some false /\
    ep_success res = false /\
    exists msg, In ("Create application failed: " ++ msg)%string (ep_errors res).
Proof.
  intros Hr Hd; revert Hr; run_probe.
  destruct (server (sent st) _) as [r0 | e0]; simpl; intros ->; simpl;
    destruct r as [s d]; simpl in *; destruct Hd as [-> | ->]; simpl;
    eexists; (split; [reflexivity |]); simpl;
    repeat split; try (rewrite andb_false_r; reflexivity);
    eexists; eauto using in_eq, in_cons.
Qed.

(** X3: the GraphQL probe succeeds exactly when the request resolves
    with status 200, the response has a body and the body has no truthy
    [errors] member.  An empty [errors] array is truthy: it makes the
    probe fail, and the reported [error] is [undefined]. *)
Theorem X3_graphql_success (st : Tester) :
  exists g,
    fst (testGraphQLEndpoint server st) = Ok g /\
    (gql_success g = true <->
     exists r,
       first_reply server st POST "/graphql" graphqlQuery = Resolved r /\
       status r = 200 /\
       get (data r) "errors" <> None /\
       truthy (get_opt (data r) "errors") = false) /\
    (forall r,
       first_reply server st POST "/graphql" graphqlQuery = Resolved r ->
       get (data r) "errors" = Some (Arr []) ->
       g = mkGraphQLResult false Undefined).
Proof.
  unfold first_reply, testGraphQLEndpoint, try_catch, bind, ret, throw, prop,
    client_post, request, get_opt.
  destruct (server (sent st) _) as [r | e]; cbn [fst snd].
  - destruct (status r =? 200) eqn:Es;
      destruct (get (data r) "errors") as [errs |] eqn:Ee; cbn [fst snd];
      eexists; (split; [reflexivity |]); cbn [gql_success]; split.
    + split.
      * intro H; exists r; rewrite Ee; repeat split; try congruence.
        -- now apply Z.eqb_eq.
        -- now apply negb_true_iff.
      * intros (r' & [= <-] & _ & _ & H); rewrite Ee in H.
        now apply negb_true_iff.
    + intros r' [= <-] H; rewrite Ee in H; injection H as ->; reflexivity.
    + split; [discriminate |].
      intros (r' & [= <-] & _ & H & _); rewrite Ee in H; congruence.
    + intros r' [= <-] H; rewrite Ee in H; discriminate.
    + split; [discriminate |].
      intros (r' & [= <-] & H & _); apply Z.eqb_eq in H; congruence.
    + intros r' [= <-] H; rewrite Ee in H; injection H as ->; reflexivity.
    + split; [discriminate |].
      intros (r' & [= <-] & H & _); apply Z.eqb_eq in H; congruence.
    + intros r' [= <-] H; rewrite Ee in H; discriminate.
  - eexists; (split; [reflexivity |]); cbn [gql_success]; split.
    + split; [discriminate | intros (r' & H & _); discriminate].
    + intros r' H; discriminate.
Qed.

End ProbeEdges.

Section ProbeEdgeExamples.
Import JS BackendApiTester.

(** A backend that answers the create request with 201 and no body. *)
Definition backend_created_no_body (h : list Request) (q : Request) : Reply :=
  if (url q =? "/api/v1/applications")%string && Method_eqb (method q) POST then
    Resolved (mkResponse 201 Null)
  else healthy_backend h q.

Lemma X2_create_without_body_fails_witness :
  create_reply backend_created_no_body create = Resolved (mkResponse 201 Null) /\
  exists res,
    fst (testApplicationEndpoints backend_created_no_body create) = Ok res /\
    map fst (ep_results res) = ["listApplications"; "createApplication"] /\
    JS.lookup "createApplication" (ep_results res) = Some false /\
    ep_success res = false /\
    exists msg, In ("Create application failed: " ++ msg)%string (ep_errors res).
Proof.
  split; [reflexivity |].
  exact (X2_create_without_body_fails backend_created_no_body create
           (mkResponse 201 Null) eq_refl (or_introl eq_refl)).
Defined.

End ProbeEdgeExamples.

(* ================================================================== *)
(** * The requests of a full integration test *)
(* ================================================================== *)

Section FullRunTrace.
Import JS BackendApiTester.

Variable server : list Request -> Request -> Reply.

(** The header the interceptor attaches in state [st]. *)
Definition header_of (st : Tester) : option value :=
  authorization (interceptor st GET EmptyString Undefined).

(** [m] returns [a] from [st], keeps the token and adds the requests
    [new] (latest first) to the log, each with the header of [st]. *)
Definition sends {A} (m : M A) (st : Tester) (a : A) (new : list Request) : Prop :=
  m st = (Ok a, mkTester (authToken st) (new ++ sent st)) /\
  Forall (fun q => authorization q = header_of st) new.

Ltac run_probe :=
  unfold sends, header_of,
    testConnectivity, testAuthentication, testApplicationEndpoints,
    testDeploymentEndpoints, testAIEndpoints, testGraphQLEndpoint, createBlock,
    check, finish, try_catch, bind, ret, throw, prop, setAuthToken, get_opt,
    client_get, client_post, client_put, client_delete, request;
  simpl.

Ltac split_reply :=
  match goal with
  | |- context [match server ?h ?q with _ => _ end] =>
      let r := fresh "r" in let e := fresh "e" in
      destruct (server h q) as [r | e]; simpl
  | |- context [match get ?v ?k with _ => _ end] =>
      destruct (get v k); simpl
  | |- context [if truthy ?v then _ else _] =>
      is_var v; destruct (truthy v); simpl
  | |- context [if (?a =? ?b)%Z then _ else _] =>
      destruct (a =? b)%Z; simpl
  end.

Ltac prefix_of l base :=
  match l with
  | base => constr:(@nil Request)
  | ?x :: ?l' => let p := prefix_of l' base in constr:(x :: p)
  end.

Ltac sent_requests :=
  eexists; eexists;
  (split; [split; [match goal with
                   | |- (_, mkTester _ ?l) = (_, mkTester _ (?n ++ ?base)) =>
                       let p := prefix_of l base in unify n p; reflexivity
                   end
                  | repeat constructor] |]).

Lemma trace_testApplicationEndpoints st :
  exists res new,
    sends (testApplicationEndpoints server) st res new /\
    exists subs,
      map method_url (rev new) =
        (GET, "/api/v1/applications") :: (POST, "/api/v1/applications") :: subs /\
      (subs = [] \/
       exists id,
         subs = [(GET, "/api/v1/applications/" ++ toString id);
                 (PUT, "/api/v1/applications/" ++ toString id);
                 (DELETE, "/api/v1/applications/" ++ toString id)]%string).
Proof.
  run_probe; repeat split_reply; sent_requests;
    simpl; eexists; (split; [reflexivity |]);
    first [left; reflexivity | right; eexists; reflexivity].
Qed.

Lemma trace_testDeploymentEndpoints st :
  exists res new,
    sends (testDeploymentEndpoints server) st res new /\
    map method_url (rev new) = [(GET, "/api/v1/deployments")].
Proof. run_probe; repeat split_reply; sent_requests; reflexivity. Qed.

Lemma trace_testAIEndpoints st :
  exists res new,
    sends (testAIEndpoints server) st res new /\
    map method_url (rev new) =
      [(GET, "/api/v1/ai/insights"); (GET, "/api/v1/ai/recommendations")].
Proof. run_probe; repeat split_reply; sent_requests; reflexivity. Qed.

Lemma trace_testGraphQLEndpoint st :
  exists res new,
    sends (testGraphQLEndpoint server) st res new /\
    map method_url (rev new) = [(POST, "/graphql")].
Proof. run_probe; repeat split_reply; sent_requests; reflexivity. Qed.

(** The login: one request, sent with the header of [st]; the token of
    the result is stored when the login succeeds. *)
Lemma trace_testAuthentication credentials st :
  exists a,
    testAuthentication server credentials st =
      (Ok a, mkTester (if auth_success a then auth_token a else authToken st)
               (interceptor st POST "/auth/login" credentials :: sent st)) /\
    (auth_success a = true -> truthy (auth_token a) = true).
Proof.
  unfold testAuthentication, try_catch, bind, ret, client_post, request, prop, throw,
    setAuthToken.
  destruct (server _ _) as [r | e]; simpl;
    [destruct (get (data r) _) as [tok | ]; simpl;
     [destruct (truthy tok) eqn:E; simpl | ] | ];
    match goal with |- exists a, (Ok ?x, _) = _ /\ _ => exists x end;
    (split; [reflexivity |]); simpl; congruence.
Qed.

(** The part of [runFullIntegrationTest] after the login. *)
Definition after_login (conn : bool) (auth : AuthResult) : M FullResult :=
  apps <- testApplicationEndpoints server ;;
  deps <- testDeploymentEndpoints server ;;
  aiR <- testAIEndpoints server ;;
  gql <- testGraphQLEndpoint server ;;
  let overallSuccess :=
    conn && auth_success auth && ep_success apps && ep_success deps in
  ret (mkFullResult overallSuccess
         (mkResults conn (Some auth) (Some apps) (Some deps) (Some aiR) (Some gql))
         (if overallSuccess then summary_pass else summary_fail)).

Lemma later_probes_split conn :
  later_probes server conn =
    bind (testAuthentication server defaultCredentials) (after_login conn).
Proof. reflexivity. Qed.

(** The requests that follow the application list and create requests. *)
Definition application_subrequests (subs : list (Method * string)) : Prop :=
  subs = [] \/
  exists id,
    subs = [(GET, "/api/v1/applications/" ++ toString id);
            (PUT, "/api/v1/applications/" ++ toString id);
            (DELETE, "/api/v1/applications/" ++ toString id)]%string.

(** The get, update and delete requests for the application that the
    reply [rep] to the create request names; none when it carries no
    id. *)
Definition created_subrequests (rep : Reply) : list (Method * string) :=
  if carries_id rep then
    [(GET, application_path rep); (PUT, application_path rep);
     (DELETE, application_path rep)]
  else [].

(** The tester as the application probe of a full run finds it: after
    the health check and the login. *)
Definition after_login_state (st : Tester) : Tester :=
  snd (testAuthentication server defaultCredentials (snd (testConnectivity server st))).

Lemma create_reply_canon st :
  create_reply server st =
    server (interceptor st GET "/api/v1/applications" Undefined :: sent st)
      (interceptor
         (mkTester (authToken st)
            (interceptor st GET "/api/v1/applications" Undefined :: sent st))
         POST "/api/v1/applications" createData).
Proof.
  unfold create_reply, first_reply, client_get, request.
  destruct (server (sent st) _); reflexivity.
Qed.

Lemma trace_created_application st :
  exists res new,
    sends (testApplicationEndpoints server) st res new /\
    map method_url (rev new) =
      (GET, "/api/v1/applications") :: (POST, "/api/v1/applications") ::
      created_subrequests (create_reply server st).
Proof.
  rewrite create_reply_canon.
  unfold created_subrequests, application_path, created_id, carries_id.
  run_probe; repeat split_reply; sent_requests; reflexivity.
Qed.

Lemma created_subrequests_shape rep : application_subrequests (created_subrequests rep).
Proof.
  unfold created_subrequests, application_subrequests, application_path.
  destruct (carries_id rep); [right; eexists; reflexivity | left; reflexivity].
Qed.

Lemma sends_then {A B} (m : M A) (k : A -> M B) st a n1 b n2 :
  sends m st a n1 ->
  sends (k a) (mkTester (authToken st) (n1 ++ sent st)) b n2 ->
  sends (bind m k) st b (n2 ++ n1).
Proof.
  unfold sends, header_of, bind; intros [E1 F1] [E2 F2]; rewrite E1, E2.
  simpl in *; rewrite <- app_assoc; split; [reflexivity |].
  apply Forall_app; split; assumption.
Qed.

Lemma after_login_sends conn auth st :
  exists r new subs,
    sends (after_login conn auth) st r new /\
    connectivity (results r) = conn /\
    authentication (results r) = Some auth /\
    application_subrequests subs /\
    map method_url (rev new) =
      (GET, "/api/v1/applications") :: (POST, "/api/v1/applications") :: subs ++
      [(GET, "/api/v1/deployments");
       (GET, "/api/v1/ai/insights"); (GET, "/api/v1/ai/recommendations");
       (POST, "/graphql")] /\
    subs = created_subrequests (create_reply server st).
Proof.
  destruct (trace_created_application st) as (apps & n1 & S1 & T1).
  set (s1 := mkTester (authToken st) (n1 ++ sent st)).
  destruct (trace_testDeploymentEndpoints s1) as (deps & n2 & S2 & T2).
  set (s2 := mkTester (authToken s1) (n2 ++ sent s1)).
  destruct (trace_testAIEndpoints s2) as (aiR & n3 & S3 & T3).
  set (s3 := mkTester (authToken s2) (n3 ++ sent s2)).
  destruct (trace_testGraphQLEndpoint s3) as (gql & n4 & S4 & T4).
  eexists; exists (((([] ++ n4) ++ n3) ++ n2) ++ n1),
    (created_subrequests (create_reply server st));
    split; [| split; [| split; [| split; [| split]]]].
  - unfold after_login.
    eapply sends_then; [exact S1 |].
    eapply sends_then; [exact S2 |].
    eapply sends_then; [exact S3 |].
    eapply sends_then; [exact S4 |].
    split; [simpl; reflexivity | constructor].
  - reflexivity.
  - reflexivity.
  - apply created_subrequests_shape.
  - rewrite app_nil_l, !rev_app_distr, !map_app, T1, T2, T3, T4.
    simpl; rewrite <- ?app_assoc; reflexivity.
  - reflexivity.
Qed.

(** X4: the requests of [runFullIntegrationTest], in the order they are
    sent: the health check; then, only when it passed, the login, list
    and create application, the get, update and delete of the created
    application when the create response carried an id, list
    deployments, the two AI requests and the GraphQL request.  Nothing
    else is sent.  The get, update and delete requests go to
    [/api/v1/applications/] followed by the [data.data.id] of the reply
    the backend gave to the create request of this run. *)
Theorem X4_full_test_requests (st : Tester) :
  exists r st' new subs,
    runFullIntegrationTest server st = (Ok r, st') /\
    sent st' = new ++ sent st /\
    application_subrequests subs /\
    map method_url (rev new) =
      (GET, "/health") ::
      (if connectivity (results r) then
         (POST, "/auth/login") ::
         (GET, "/api/v1/applications") :: (POST, "/api/v1/applications") :: subs ++
         [(GET, "/api/v1/deployments");
          (GET, "/api/v1/ai/insights"); (GET, "/api/v1/ai/recommendations");
          (POST, "/graphql")]
       else []) /\
    subs =
      (if connectivity (results r)
       then created_subrequests (create_reply server (after_login_state st))
       else []).
Proof.
  unfold after_login_state.
  rewrite runFullIntegrationTest_unfold.
  destruct (testConnectivity_result server st) as (conn & Ec); rewrite Ec.
  destruct conn; cbn [negb snd].
  - rewrite later_probes_split; unfold bind at 1.
    match goal with |- context [testAuthentication server defaultCredentials ?s] =>
      destruct (trace_testAuthentication defaultCredentials s) as (a & Ea & _)
    end.
    rewrite Ea; cbn [snd].
    match goal with |- context [after_login true a ?s] =>
      destruct (after_login_sends true a s)
        as (r & new & subs & [E _] & Hc & _ & Hs & T & Hsubs)
    end.
    rewrite E.
    exists r; eexists;
      exists (new ++ [interceptor
                       (mkTester (authToken st)
                          (interceptor st GET "/health" Undefined :: sent st))
                       POST "/auth/login" defaultCredentials;
                     interceptor st GET "/health" Undefined]), subs.
    split; [reflexivity |]; split; [simpl; rewrite <- app_assoc; reflexivity |].
    split; [exact Hs |].
    rewrite Hc, rev_app_distr, map_app, T; split; [reflexivity | exact Hsubs].
  - eexists; eexists; exists [interceptor st GET "/health" Undefined], [].
    split; [reflexivity |]; split; [reflexivity |]; split; [left; reflexivity |].
    split; reflexivity.
Qed.

(** X5: in a full integration test the health check and the login go
    out with the header the tester had before.  The login succeeds
    exactly when the reply to its request carries a truthy
    [access_token]; that token is then returned, stored, and carried as
    [Authorization: Bearer] by every later request of the run.  When the
    login fails the stored token is untouched and the later requests
    still go out with the header the tester had before. *)
Theorem X5_full_test_uses_login_token (st : Tester) :
  exists r st',
    runFullIntegrationTest server st = (Ok r, st') /\
    if connectivity (results r) then
      exists a login health later,
        authentication (results r) = Some a /\
        sent st' = later ++ login :: health :: sent st /\
        authorization health = header_of st /\
        authorization login = header_of st /\
        login_token server (snd (testConnectivity server st))
          (CallAuthentication defaultCredentials) =
          (if auth_success a then Some (auth_token a) else None) /\
        authToken st' = (if auth_success a then auth_token a else authToken st) /\
        Forall (fun q => authorization q =
                         if auth_success a then Some (auth_token a) else header_of st)
          later
    else authToken st' = authToken st.
Proof.
  rewrite runFullIntegrationTest_unfold.
  destruct (testConnectivity_result server st) as (conn & Ec); rewrite Ec.
  destruct conn; cbn [negb snd].
  - rewrite later_probes_split; unfold bind at 1.
    match goal with |- context [testAuthentication server defaultCredentials ?s] =>
      destruct (trace_testAuthentication defaultCredentials s) as (a & Ea & Ht);
      destruct (testAuthentication_response server defaultCredentials s)
        as (a' & st'' & Ea' & Hresp)
    end.
    rewrite Ea in Ea'; injection Ea' as <- <-; rewrite Ea.
    match goal with |- context [after_login true a ?s] =>
      destruct (after_login_sends true a s) as (r & new & subs & [E F] & Hc & Ha & _)
    end.
    rewrite E; exists r; eexists; split; [reflexivity |].
    rewrite Hc; exists a; eexists; eexists; exists new.
    split; [exact Ha |]; split; [reflexivity |].
    split; [reflexivity |]; split; [reflexivity |].
    split.
    { destruct (login_token server _ _) as [tok |].
      - destruct Hresp as [-> _]; reflexivity.
      - destruct Hresp as (-> & _); reflexivity. }
    split; [reflexivity |].
    eapply Forall_impl; [| exact F].
    intros q ->; unfold header_of, interceptor; simpl.
    destruct (auth_success a); [rewrite (Ht eq_refl) |]; reflexivity.
  - eexists; eexists; split; reflexivity.
Qed.

End FullRunTrace.

(* ================================================================== *)
(** * Further properties of the run *)
(* ================================================================== *)

Section RunProperties.
Import JS IntegrationTestRunner.

(** The error [checkPrerequisites] throws, if any. *)
Definition prerequisites_error (env : Env) : option string :=
  if negb (backendDirExists env) then
    Some "Backend directory not found. Please ensure ultimate-paas-base exists in parent directory."
  else if negb (requirementsExists env) then
    Some "Backend requirements.txt not found. Please ensure backend is properly set up."
  else if negb (nodeModulesExists env) then
    match npmInstall env with CmdOk _ => None | CmdError msg => Some msg end
  else None.

Definition cmd_ok (r : CmdResult) : bool :=
  match r with CmdOk _ => true | CmdError _ => false end.

(** The verdict of [runFullIntegrationTest] on a new tester, [false]
    when the module cannot be loaded. *)
Definition api_verdict (env : Env) : bool :=
  match apiTesting env with
  | inl _ => false
  | inr server =>
      match fst (BackendApiTester.runFullIntegrationTest server BackendApiTester.create) with
      | BackendApiTester.Ok r => BackendApiTester.success r
      | BackendApiTester.Throw _ => false
      end
  end.

(** Both readiness polls of [waitForServices] come back ready. *)
Definition services_ready (env : Env) : bool :=
  match waitForUrl (healthPolls env) (backendUrl ++ "/health") default_timeout
          (clockAtWait env) with
  | Some (Ready, t) =>
      match waitForUrl (frontendPolls env) frontendUrl default_timeout t with
      | Some (Ready, _) => true
      | _ => false
      end
  | _ => false
  end.

(** The runner after both children were spawned. *)
Definition started : Runner :=
  mkRunner (Some BackendProc) (Some FrontendProc) (mkTestResults [] [] [] [])
    [BackendProc; FrontendProc] [] 0 [] None.

Variable env : Env.

Lemma checkPrerequisites_result st :
  checkPrerequisites env st =
    (match prerequisites_error env with
     | None => Done tt
     | Some msg => Thrown msg
     end, st).
Proof.
  unfold checkPrerequisites, prerequisites_error, bind, execCommand, throw, ret.
  destruct (backendDirExists env); simpl; [| reflexivity].
  destruct (requirementsExists env); simpl; [| reflexivity].
  destruct (nodeModulesExists env); simpl; [reflexivity |].
  destruct (npmInstall env); reflexivity.
Qed.

Lemma runApiTests_verdict st :
  exists I,
    runApiTests env st =
      (Done tt, set_testResults
                  (fun t => mkTestResults (backend t) (frontend t) I (e2e t)) st) /\
    field "success" I = Bool (api_verdict env).
Proof.
  unfold runApiTests, api_verdict, try_catch, set_integration, modify, throw.
  destruct (apiTesting env) as [msg | server]; [eexists; split; reflexivity |].
  destruct (BackendApiTester.runFullIntegrationTest _ _) as [[r | e] t];
    eexists; split; reflexivity.
Qed.

Lemma runFrontendTests_verdict st :
  frontend (testResults st) = [] ->
  exists F,
    runFrontendTests env st =
      (Done tt, set_testResults
                  (fun t => mkTestResults (backend t) F (integration t) (e2e t)) st) /\
    field "success" F = Bool (cmd_ok (npmTest env)).
Proof.
  intro H0.
  unfold runFrontendTests, try_catch, bind, set_frontend, modify, execCommand, throw, ret.
  destruct (npmTest env) as [out | msg]; [| eexists; split; reflexivity].
  exists [("success", Bool true)]; split; [| reflexivity].
  unfold set_testResults; simpl; rewrite H0; reflexivity.
Qed.

Lemma runE2ETests_verdict st :
  e2e (testResults st) = [] ->
  exists E,
    runE2ETests env st =
      (Done tt, set_testResults
                  (fun t => mkTestResults (backend t) (frontend t) (integration t) E) st) /\
    field "success" E = Bool (services_ready env && cmd_ok (playwright env)).
Proof.
  intro H0.
  unfold runE2ETests, waitForServices, services_ready, try_catch, bind, awaitUrl.
  destruct (waitForUrl_total (healthPolls env) (backendUrl ++ "/health")%string
              default_timeout (clockAtWait env)) as (r1 & t1 & ->);
    [unfold default_timeout; lia |].
  destruct r1 as [| msg1]; [| unfold throw, set_e2e, modify; eexists; split; reflexivity].
  unfold ret at 1.
  destruct (waitForUrl_total (frontendPolls env) frontendUrl default_timeout t1)
    as (r2 & t2 & ->); [unfold default_timeout; lia |].
  destruct r2 as [| msg2]; [| unfold throw, set_e2e, modify; eexists; split; reflexivity].
  unfold ret, execCommand, throw, set_e2e, modify.
  destruct (playwright env) as [out | msg]; [| eexists; split; reflexivity].
  exists [("success", Bool true)]; split; [| reflexivity].
  unfold set_testResults; simpl; rewrite H0; reflexivity.
Qed.

(** The state in which [generateReport] is called when the three
    phases have run from [started]. *)
Lemma phases_from_started :
  exists I F E,
    (runApiTests env ;;; runFrontendTests env ;;; runE2ETests env ;;;
     generateReport env) started =
    generateReport env
      (mkRunner (Some BackendProc) (Some FrontendProc) (mkTestResults [] F I E)
         [BackendProc; FrontendProc] [] 0 [] None) /\
    field "success" I = Bool (api_verdict env) /\
    field "success" F = Bool (cmd_ok (npmTest env)) /\
    field "success" E = Bool (services_ready env && cmd_ok (playwright env)).
Proof.
  unfold bind at 1.
  destruct (runApiTests_verdict started) as (I & -> & HI).
  unfold bind at 1.
  match goal with |- context [runFrontendTests env ?s] =>
    destruct (runFrontendTests_verdict s eq_refl) as (F & -> & HF)
  end.
  unfold bind at 1.
  match goal with |- context [runE2ETests env ?s] =>
    destruct (runE2ETests_verdict s eq_refl) as (E & -> & HE)
  end.
  exists I, F, E; repeat split; assumption.
Qed.

(** What [run] amounts to, by the fatal conditions. *)
Lemma run_cases :
  match prerequisites_error env with
  | Some _ => run env create = (Exited 1, create)
  | None =>
      match startBackend_promise (backendChild env) with
      | Rejected _ =>
          run env create =
            (Exited 1,
             mkRunner (Some BackendProc) None (mkTestResults [] [] [] [])
               [BackendProc] [] 0 [] None)
      | Pending =>
          run env create =
            (Hung,
             mkRunner (Some BackendProc) None (mkTestResults [] [] [] [])
               [BackendProc] [] 0 [] None)
      | Fulfilled =>
          match startFrontend_promise (frontendChild env) with
          | Rejected _ => run env create = (Exited 1, started)
          | Pending => run env create = (Hung, started)
          | Fulfilled =>
              exists I F E,
                field "success" I = Bool (api_verdict env) /\
                field "success" F = Bool (cmd_ok (npmTest env)) /\
                field "success" E =
                  Bool (services_ready env && cmd_ok (playwright env)) /\
                let st3 :=
                  mkRunner (Some BackendProc) (Some FrontendProc)
                    (mkTestResults [] F I E) [BackendProc; FrontendProc] [] 0 [] None in
                run env create =
                  match generateReport env st3 with
                  | (Done _, st4) => cleanup st4
                  | (_, st4) => (Exited 1, st4)
                  end
          end
      end
  end.
Proof.
  destruct (prerequisites_error env) as [msg |] eqn:Ep.
  { unfold run, try_catch_finally, try_catch, process_exit.
    unfold bind at 1; rewrite checkPrerequisites_result, Ep; reflexivity. }
  destruct (startBackend_promise (backendChild env)) eqn:Eb;
    [ | | unfold run, try_catch_finally, try_catch, process_exit;
          unfold bind at 1; rewrite checkPrerequisites_result, Ep; cbv beta iota;
          unfold bind at 1, startBackend, bind at 1, modify, await;
          rewrite Eb; reflexivity ].
  { unfold run, try_catch_finally, try_catch, process_exit.
    unfold bind at 1; rewrite checkPrerequisites_result, Ep; cbv beta iota.
    unfold bind at 1, startBackend, bind at 1, modify, await.
    rewrite Eb; reflexivity. }
  destruct (startFrontend_promise (frontendChild env)) eqn:Ef;
    [ | | unfold run, try_catch_finally, try_catch, process_exit;
          unfold bind at 1; rewrite checkPrerequisites_result, Ep; cbv beta iota;
          unfold bind at 1, startBackend, bind at 1, modify, await;
          rewrite Eb; unfold ret at 1; cbv beta iota;
          unfold bind at 1, startFrontend, bind at 1, modify, await;
          rewrite Ef; reflexivity ].
  { unfold run, try_catch_finally, try_catch, process_exit.
    unfold bind at 1; rewrite checkPrerequisites_result, Ep; cbv beta iota.
    unfold bind at 1, startBackend, bind at 1, modify, await.
    rewrite Eb; unfold ret at 1; cbv beta iota.
    unfold bind at 1, startFrontend, bind at 1, modify, await.
    rewrite Ef; reflexivity. }
  destruct phases_from_started as (I & F & E & Hrun & HI & HF & HE).
  exists I, F, E; split; [exact HI |]; split; [exact HF |]; split; [exact HE |].
  cbv zeta.
  unfold run, try_catch_finally, try_catch, process_exit.
  unfold bind at 1; rewrite checkPrerequisites_result, Ep; cbv beta iota.
  unfold bind at 1, startBackend, bind at 1, modify, await.
  rewrite Eb; unfold ret at 1; cbv beta iota.
  unfold bind at 1, startFrontend, bind at 1, modify, await.
  rewrite Ef; unfold ret at 1; cbv beta iota.
  cbn [backendProcess frontendProcess testResults spawned killed cleanups console
       reportFile create app].
  fold started; rewrite Hrun.
  destruct (generateReport_processes env
              (mkRunner (Some BackendProc) (Some FrontendProc)
                 (mkTestResults [] F I E) [BackendProc; FrontendProc] [] 0 [] None))
    as [_ [[u Eo] | [msg Eo]]];
    destruct (generateReport env _) as [o st4]; simpl in Eo; subst o;
    [destruct u |]; reflexivity.
Qed.

Lemma stringify_testResults (t : TestResults) :
  exists text, Json.stringify (TestResults_toJS t) = Some text.
Proof. unfold Json.stringify, TestResults_toJS; rewrite serialize_Obj; eauto. Qed.

(** What [generateReport] followed by the end of [run] gives. *)
Lemma report_and_finish (st3 : Runner) :
  backendProcess st3 = Some BackendProc ->
  frontendProcess st3 = Some FrontendProc ->
  exists o st,
    match generateReport env st3 with
    | (Done _, st4) => cleanup st4
    | (_, st4) => (Exited 1, st4)
    end = (o, st) /\
    testResults st = testResults st3 /\
    spawned st = spawned st3 /\
    (o = Done tt <-> writeError env = None) /\
    (o = Done tt -> killed st = killed st3 ++ [BackendProc; FrontendProc] /\
                    cleanups st = S (cleanups st3)) /\
    (o <> Done tt -> o = Exited 1 /\ killed st = killed st3 /\
                     cleanups st = cleanups st3 /\ reportFile st = reportFile st3).
Proof.
  intros Hb Hf; rewrite generateReport_spec; cbv zeta.
  destruct (stringify_testResults (testResults st3)) as (text & ->).
  destruct (writeError env) as [msg |].
  - eexists; eexists; split; [reflexivity |]; simpl.
    repeat split; try congruence; try discriminate.
  - unfold cleanup, bind, modify, kill, with_report, with_console; simpl.
    rewrite Hb, Hf; simpl.
    eexists; eexists; split; [reflexivity |]; simpl.
    repeat split; try congruence; try (rewrite <- app_assoc; reflexivity).
Qed.

(** X7: a run completes exactly when the prerequisites hold, both
    start-ups are fulfilled and the report file can be written.  The
    outcome of the API, unit and end-to-end tests plays no part in it:
    failing tests do not change the way the run ends. *)
Theorem X7_run_completes_iff :
  fst (run env create) = Done tt <->
  prerequisites_error env = None /\
  startBackend_promise (backendChild env) = Fulfilled /\
  startFrontend_promise (frontendChild env) = Fulfilled /\
  writeError env = None.
Proof.
  pose proof run_cases as H.
  destruct (prerequisites_error env) as [msg |];
    [rewrite H; simpl; split; [discriminate | intros [? _]; discriminate] |].
  destruct (startBackend_promise (backendChild env));
    try (rewrite H; simpl; split; [discriminate | intros (_ & ? & _); discriminate]).
  destruct (startFrontend_promise (frontendChild env));
    try (rewrite H; simpl; split; [discriminate | intros (_ & _ & ? & _); discriminate]).
  destruct H as (I & F & E & _ & _ & _ & H); cbv zeta in H; rewrite H.
  match goal with |- context [generateReport env ?s] =>
    destruct (report_and_finish s eq_refl eq_refl) as (o & st & -> & _ & _ & Ho & _)
  end.
  simpl; rewrite Ho; tauto.
Qed.

(** X8: when a prerequisite is missing the run ends in
    [process.exit(1)] with the runner exactly as it was created: no
    process spawned, no test run, nothing printed by the report, no
    report file. *)
Theorem X8_missing_prerequisite_stops_everything (msg : string) :
  prerequisites_error env = Some msg -> run env create = (Exited 1, create).
Proof.
  intro H; pose proof run_cases as Hc; rewrite H in Hc; exact Hc.
Qed.

(** X9: with the prerequisites in place, a rejected backend start-up
    ends the run in [process.exit(1)] with the backend spawned and not
    killed, and the frontend never spawned; a rejected frontend start-up
    ends it with both children spawned and not killed.  In both cases no
    test phase has run. *)
Theorem X9_failed_startup_stops_the_run :
  prerequisites_error env = None ->
  (forall reason,
     startBackend_promise (backendChild env) = Rejected reason ->
     run env create =
       (Exited 1,
        mkRunner (Some BackendProc) None (mkTestResults [] [] [] [])
          [BackendProc] [] 0 [] None)) /\
  (forall reason,
     startBackend_promise (backendChild env) = Fulfilled ->
     startFrontend_promise (frontendChild env) = Rejected reason ->
     run env create = (Exited 1, started)).
Proof.
  intro Hp; pose proof run_cases as H; rewrite Hp in H; split.
  - intros reason Hb; rewrite Hb in H; exact H.
  - intros reason Hb Hf; rewrite Hb, Hf in H; exact H.
Qed.

(** X10: once both children are up, the three test phases all run and
    each verdict depends on its own phase only: the integration entry
    holds the verdict of [runFullIntegrationTest] ([false] when the
    module cannot be loaded), the frontend entry says whether the unit
    test command succeeded, the e2e entry whether both readiness polls
    came back ready and the Playwright command succeeded.  This holds
    whether or not the report could be written. *)
Theorem X10_phase_verdicts :
  prerequisites_error env = None ->
  startBackend_promise (backendChild env) = Fulfilled ->
  startFrontend_promise (frontendChild env) = Fulfilled ->
  let t := testResults (snd (run env create)) in
  field "success" (integration t) = Bool (api_verdict env) /\
  field "success" (frontend t) = Bool (cmd_ok (npmTest env)) /\
  field "success" (e2e t) = Bool (services_ready env && cmd_ok (playwright env)).
Proof.
  intros Hp Hb Hf; pose proof run_cases as H; rewrite Hp, Hb, Hf in H.
  destruct H as (I & F & E & HI & HF & HE & H); cbv zeta in H; cbv zeta; rewrite H.
  match goal with |- context [generateReport env ?s] =>
    destruct (report_and_finish s eq_refl eq_refl) as (o & st & -> & Ht & _)
  end.
  cbn [snd]; rewrite Ht; simpl; auto.
Qed.

(** X11: no run ever fills the [backend] entry of the test results: it
    is the empty object in every final state, so also in every report. *)
Theorem X11_backend_entry_stays_empty :
  backend (testResults (snd (run env create))) = [].
Proof.
  pose proof run_cases as H.
  destruct (prerequisites_error env); [rewrite H; reflexivity |].
  destruct (startBackend_promise (backendChild env)); try (rewrite H; reflexivity).
  destruct (startFrontend_promise (frontendChild env)); try (rewrite H; reflexivity).
  destruct H as (I & F & E & _ & _ & _ & H); cbv zeta in H; rewrite H.
  match goal with |- context [generateReport env ?s] =>
    destruct (report_and_finish s eq_refl eq_refl) as (o & st & -> & Ht & _)
  end.
  cbn [snd]; rewrite Ht; reflexivity.
Qed.

End RunProperties.

Section RunPropertyExamples.
Import JS IntegrationTestRunner.

(** The backend prints its banner too late; everything else is fine. *)
Definition env_late_backend : Env :=
  mkEnv true true true (CmdOk EmptyString) late_backend ready_frontend
    (inr healthy_backend) (CmdOk EmptyString) 0 quick_target quick_target
    (CmdOk EmptyString) None.

(** Both children come up; the unit tests fail and the backend answers
    no health check. *)
Definition env_failing_tests : Env :=
  mkEnv true true true (CmdOk EmptyString) ready_backend ready_frontend
    (inr healthy_backend) (CmdError "Command failed: npm run test") 0
    slow_target quick_target (CmdOk EmptyString) None.

Lemma X8_missing_prerequisite_stops_everything_witness :
  prerequisites_error env_no_backend_dir =
    Some "Backend directory not found. Please ensure ultimate-paas-base exists in parent directory." /\
  run env_no_backend_dir create = (Exited 1, create).
Proof.
  split; [reflexivity |].
  exact (X8_missing_prerequisite_stops_everything env_no_backend_dir _ eq_refl).
Defined.

Lemma X9_failed_startup_stops_the_run_witness :
  prerequisites_error env_late_backend = None /\
  run env_late_backend create =
    (Exited 1,
     mkRunner (Some BackendProc) None (mkTestResults [] [] [] [])
       [BackendProc] [] 0 [] None) /\
  run env_frontend_fails create = (Exited 1, started).
Proof.
  split; [reflexivity |]; split.
  - exact (proj1 (X9_failed_startup_stops_the_run env_late_backend eq_refl)
             _ eq_refl).
  - exact (proj2 (X9_failed_startup_stops_the_run env_frontend_fails eq_refl)
             _ eq_refl eq_refl).
Defined.

Lemma X10_phase_verdicts_witness :
  prerequisites_error env_failing_tests = None /\
  startBackend_promise (backendChild env_failing_tests) = Fulfilled /\
  startFrontend_promise (frontendChild env_failing_tests) = Fulfilled /\
  fst (run env_failing_tests create) = Done tt /\
  let t := testResults (snd (run env_failing_tests create)) in
  field "success" (integration t) = Bool true /\
  field "success" (frontend t) = Bool false /\
  field "success" (e2e t) = Bool false.
Proof.
  split; [reflexivity |]; split; [reflexivity |]; split; [reflexivity |].
  split; [vm_compute; reflexivity |].
  exact (X10_phase_verdicts env_failing_tests eq_refl eq_refl eq_refl).
Defined.

End RunPropertyExamples.

(* ================================================================== *)
(** * Further properties of the readiness polls *)
(* ================================================================== *)

Section WaitProperties.
Import JS IntegrationTestRunner.

(** The text of the error [waitForUrl] throws. *)
Definition not_ready_message (url : string) (timeout : Z) : string :=
  ("Service at " ++ url ++ " not ready within " ++
   NilZero.string_of_int (Z.to_int timeout) ++ "ms")%string.

Lemma loop_not_ready_message polls url timeout start :
  forall fuel now i msg t,
    waitForUrl_loop fuel polls url timeout start now i = Some (NotReady msg, t) ->
    msg = not_ready_message url timeout.
Proof.
  induction fuel as [| fuel IH]; intros now i msg t; cbn [waitForUrl_loop];
    [discriminate |].
  destruct (now - start <? timeout).
  - destruct (axios_get (polls i)) as [[|] d]; [discriminate | apply IH].
  - intros [= <- _]; reflexivity.
Qed.

Lemma loop_never_ready polls url timeout start :
  never_2xx polls ->
  forall fuel now i t,
    waitForUrl_loop fuel polls url timeout start now i = Some (Ready, t) -> False.
Proof.
  intros Hn fuel; induction fuel as [| fuel IH]; intros now i t;
    cbn [waitForUrl_loop]; [discriminate |].
  destruct (now - start <? timeout); [| discriminate].
  pose proof (Hn i) as Hi.
  destruct (axios_get (polls i)) as [ok d]; simpl in Hi; subst ok; apply IH.
Qed.

(** When no attempt gets a 2xx response, [waitForUrl] throws its error
    with the expected text. *)
Lemma waitForUrl_never_ready polls url timeout now :
  0 <= timeout -> never_2xx polls ->
  exists t,
    waitForUrl polls url timeout now = Some (NotReady (not_ready_message url timeout), t).
Proof.
  intros Ht Hn.
  destruct (waitForUrl_total polls url timeout now Ht) as (r & t & E).
  exists t; rewrite E; destruct r as [| msg].
  - exfalso; apply loop_never_ready in E; [exact E | exact Hn].
  - apply loop_not_ready_message in E; subst msg; reflexivity.
Qed.

(** X12: when the backend never answers its health check with a 2xx
    response, the end-to-end phase does not throw: it records
    [success: false] with the not-ready error of the health URL,
    whatever the frontend poll and the Playwright command would have
    given, and leaves the other results as they were. *)
Theorem X12_e2e_gated_on_backend_health (env : Env) (st : Runner) :
  never_2xx (healthPolls env) ->
  runE2ETests env st =
    (Done tt,
     set_testResults
       (fun t => mkTestResults (backend t) (frontend t) (integration t)
                   (failure "Service at http://localhost:8000/health not ready within 30000ms"))
       st).
Proof.
  intro Hn; unfold runE2ETests, waitForServices, try_catch, bind, awaitUrl.
  destruct (waitForUrl_never_ready (healthPolls env) (backendUrl ++ "/health")%string
              default_timeout (clockAtWait env)) as (t & ->);
    [unfold default_timeout; lia | exact Hn |].
  reflexivity.
Qed.

(** X13: with a timeout that is zero or negative [waitForUrl] makes no
    attempt at all: it throws at once, also for a target that would
    have answered. *)
Theorem X13_waitForUrl_without_time polls url timeout now :
  timeout <= 0 ->
  waitForUrl polls url timeout now = Some (NotReady (not_ready_message url timeout), now).
Proof.
  intro Ht; unfold waitForUrl.
  replace (Z.to_nat (timeout / poll_interval_ms) + 2)%nat
    with (S (S (Z.to_nat (timeout / poll_interval_ms)))) by lia.
  cbn [waitForUrl_loop].
  replace (now - now <? timeout) with false; [reflexivity |].
  symmetry; apply Z.ltb_ge; lia.
Qed.

Lemma loop_ready_inv polls url timeout start :
  forall fuel now i t,
    waitForUrl_loop fuel polls url timeout start now i = Some (Ready, t) ->
    exists k,
      (forall j, (j < k)%nat -> fst (axios_get (polls (i + j)%nat)) = false) /\
      fst (axios_get (polls (i + k)%nat)) = true /\
      now - start + span polls i k < timeout /\
      t = now + span polls i k + snd (axios_get (polls (i + k)%nat)).
Proof.
  induction fuel as [| fuel IH]; intros now i t; cbn [waitForUrl_loop];
    [discriminate |].
  destruct (now - start <? timeout) eqn:E; [| discriminate].
  apply Z.ltb_lt in E.
  destruct (axios_get (polls i)) as [ok d] eqn:Ei; destruct ok.
  - intros [= <-]; exists 0%nat; rewrite Nat.add_0_r, Ei; cbn [span fst snd].
    split; [intros j Hj; lia |].
    split; [reflexivity |].
    split; lia.
  - intro H; apply IH in H; destruct H as (k & Hfail & Hok & Ht & ->).
    exists (S k); cbn [span]; rewrite Ei; cbn [fst snd].
    replace (i + S k)%nat with (S i + k)%nat by lia.
    split.
    { intros [| j] Hj.
      - rewrite Nat.add_0_r, Ei; reflexivity.
      - replace (i + S j)%nat with (S i + j)%nat by lia; apply Hfail; lia. }
    split; [exact Hok |].
    split; lia.
Qed.

(** X14: [waitForUrl] reports a service ready only when an attempt got
    a 2xx response within the request timeout: there is then a first
    such attempt, it started before the timeout had elapsed, every
    attempt before it failed, and the call returns when that attempt
    resolves. *)
Theorem X14_ready_means_answered polls url timeout now t :
  waitForUrl polls url timeout now = Some (Ready, t) ->
  exists k,
    first_2xx polls k /\
    elapsed_before polls k < timeout /\
    t = now + elapsed_before polls k + snd (axios_get (polls k)).
Proof.
  unfold waitForUrl; intro H; apply loop_ready_inv in H.
  destruct H as (k & Hfail & Hok & Ht & ->).
  exists k; unfold first_2xx, elapsed_before; simpl in *.
  repeat split; try assumption; lia.
Qed.

End WaitProperties.

Section WaitPropertyExamples.
Import JS IntegrationTestRunner.

Lemma X12_e2e_gated_on_backend_health_witness :
  never_2xx (healthPolls env_failing_tests) /\
  runE2ETests env_failing_tests started =
    (Done tt,
     mkRunner (Some BackendProc) (Some FrontendProc)
       (mkTestResults [] [] []
          (failure "Service at http://localhost:8000/health not ready within 30000ms"))
       [BackendProc; FrontendProc] [] 0 [] None).
Proof.
  assert (H : never_2xx (healthPolls env_failing_tests)) by (intro i; reflexivity).
  split; [exact H |].
  exact (X12_e2e_gated_on_backend_health env_failing_tests started H).
Defined.

Lemma X13_waitForUrl_without_time_witness :
  0 <= 0 /\
  waitForUrl quick_target "http://localhost:3000" 0 5 =
    Some (NotReady "Service at http://localhost:3000 not ready within 0ms", 5).
Proof.
  split; [lia |].
  exact (X13_waitForUrl_without_time quick_target "http://localhost:3000" 0 5
           (Z.le_refl 0)).
Defined.

Lemma X14_ready_means_answered_witness :
  waitForUrl late_target "http://localhost:3000" 30000 0 = Some (Ready, 2060) /\
  exists k,
    first_2xx late_target k /\
    elapsed_before late_target k < 30000 /\
    2060 = 0 + elapsed_before late_target k + snd (axios_get (late_target k)).
Proof.
  assert (H : waitForUrl late_target "http://localhost:3000" 30000 0 =
              Some (Ready, 2060)) by (vm_compute; reflexivity).
  split; [exact H |].
  exact (X14_ready_means_answered late_target "http://localhost:3000" 30000 0 2060 H).
Defined.

End WaitPropertyExamples.

(* ================================================================== *)
(** * What decides the start-up promises *)
(* ================================================================== *)

Section StartupOutcome.
Import JS IntegrationTestRunner.

Lemma prefix_app (sub a b : string) :
  String.prefix sub a = true -> String.prefix sub (a ++ b)%string = true.
Proof.
  revert a; induction sub as [| c sub IH]; intros a;
    [intros _; destruct a, b; reflexivity |].
  destruct a as [| c' a]; cbn [String.prefix String.append]; [discriminate |].
  destruct (Ascii.ascii_dec c c'); [apply IH | discriminate].
Qed.

Lemma append_empty_r (a : string) : (a ++ EmptyString)%string = a.
Proof. induction a as [| c a IH]; cbn [String.append]; congruence. Qed.

(** Text that contains [sub] still contains it when more is appended. *)
Lemma includes_app (a b sub : string) :
  includes a sub = true -> includes (a ++ b)%string sub = true.
Proof.
  unfold includes; induction a as [| c a IH].
  - destruct sub as [| c' sub]; cbn [String.index]; [| discriminate].
    intros _; destruct b; reflexivity.
  - cbn [String.append String.index].
    destruct (String.prefix sub (String c a)) eqn:P.
    + intros _.
      change (String c (a ++ b))%string with (String c a ++ b)%string.
      rewrite (prefix_app _ _ b P); reflexivity.
    + destruct (String.prefix sub (String c (a ++ b))); [reflexivity |].
      destruct (String.index 0 sub a); [| discriminate].
      intros _; specialize (IH eq_refl).
      destruct (String.index 0 sub (a ++ b)); [reflexivity | discriminate].
Qed.

Lemma includes_app_false (a b sub : string) :
  includes (a ++ b)%string sub = false -> includes a sub = false.
Proof.
  intro H; destruct (includes a sub) eqn:E; [| reflexivity].
  rewrite (includes_app a b sub E) in H; discriminate.
Qed.

(** Everything the child wrote to its standard output, in order. *)
Fixpoint stdout_text (evs : list ChildEvent) : string :=
  match evs with
  | [] => EmptyString
  | Stdout d :: evs' => (d ++ stdout_text evs')%string
  | _ :: evs' => stdout_text evs'
  end.

(** The child emitted no ['error'] event among [evs]. *)
Fixpoint no_error (evs : list ChildEvent) : bool :=
  match evs with
  | [] => true
  | ErrorEvent _ :: _ => false
  | _ :: evs' => no_error evs'
  end.

Definition settled (p : Promise) : bool :=
  match p with Pending => false | _ => true end.

(** A settled promise is not changed by any handler. *)
Lemma backend_event_keeps s e :
  settled (promise s) = true -> promise (backend_on_event s e) = promise s.
Proof.
  destruct e as [d | d | m]; cbn [backend_on_event promise]; auto.
  - destruct (includes _ _); auto; destruct (promise s); [discriminate | auto ..].
  - destruct (promise s); [discriminate | auto ..].
Qed.

Lemma backend_events_keep evs s :
  settled (promise s) = true -> promise (fold_left backend_on_event evs s) = promise s.
Proof.
  revert s; induction evs as [| e evs IH]; intros s H; cbn [fold_left]; auto.
  rewrite IH; [apply backend_event_keeps, H |].
  rewrite backend_event_keeps; exact H.
Qed.

Lemma frontend_event_keeps s e :
  settled (promise s) = true -> promise (frontend_on_event s e) = promise s.
Proof.
  destruct e as [d | d | m]; cbn [frontend_on_event promise]; auto.
  - destruct (_ && _); auto; destruct (promise s); [discriminate | auto ..].
  - destruct (promise s); [discriminate | auto ..].
Qed.

Lemma frontend_events_keep evs s :
  settled (promise s) = true -> promise (fold_left frontend_on_event evs s) = promise s.
Proof.
  revert s; induction evs as [| e evs IH]; intros s H; cbn [fold_left]; auto.
  rewrite IH; [apply frontend_event_keeps, H |].
  rewrite frontend_event_keeps; exact H.
Qed.

(** The promise as the output handler alone leaves it: resolved exactly
    when the text seen so far satisfies the handler's test. *)
Definition tracks (ready : string -> bool) (s : Startup) : Prop :=
  promise s = if ready (output s) then Fulfilled else Pending.

Definition backend_ready (out : string) : bool := includes out backend_banner.

Definition frontend_ready (out : string) : bool :=
  includes out frontend_banner && includes out frontend_port.

Lemma frontend_ready_app a b :
  frontend_ready a = true -> frontend_ready (a ++ b)%string = true.
Proof.
  unfold frontend_ready; intro H; apply andb_true_iff in H; destruct H as [H1 H2].
  rewrite (includes_app _ b _ H1), (includes_app _ b _ H2); reflexivity.
Qed.

Lemma backend_events_track evs :
  forall s, tracks backend_ready s -> no_error evs = true ->
    output (fold_left backend_on_event evs s) = (output s ++ stdout_text evs)%string /\
    tracks backend_ready (fold_left backend_on_event evs s).
Proof.
  induction evs as [| e evs IH]; intros s T N; cbn [fold_left stdout_text].
  - rewrite append_empty_r; auto.
  - destruct e as [d | d | m]; cbn [no_error] in N; [| apply IH; assumption | discriminate].
    destruct (IH (backend_on_event s (Stdout d))) as [O T']; [| exact N |].
    + unfold tracks in *; cbn [backend_on_event output promise].
      fold (backend_ready (output s ++ d)).
      destruct (backend_ready (output s ++ d)) eqn:E.
      * rewrite T; destruct (backend_ready (output s)); reflexivity.
      * rewrite T; unfold backend_ready in *.
        rewrite (includes_app_false _ _ _ E); reflexivity.
    + split; [| exact T'].
      rewrite O; cbn [backend_on_event output]; apply append_assoc.
Qed.

Lemma frontend_events_track evs :
  forall s, tracks frontend_ready s -> no_error evs = true ->
    output (fold_left frontend_on_event evs s) = (output s ++ stdout_text evs)%string /\
    tracks frontend_ready (fold_left frontend_on_event evs s).
Proof.
  induction evs as [| e evs IH]; intros s T N; cbn [fold_left stdout_text].
  - rewrite append_empty_r; auto.
  - destruct e as [d | d | m]; cbn [no_error] in N; [| apply IH; assumption | discriminate].
    destruct (IH (frontend_on_event s (Stdout d))) as [O T']; [| exact N |].
    + unfold tracks in *; cbn [frontend_on_event output promise].
      fold (frontend_ready (output s ++ d)).
      destruct (frontend_ready (output s ++ d)) eqn:E.
      * rewrite T; destruct (frontend_ready (output s)); reflexivity.
      * rewrite T; destruct (frontend_ready (output s)) eqn:E'; [| reflexivity].
        rewrite (frontend_ready_app _ d E') in E; discriminate.
    + split; [| exact T'].
      rewrite O; cbn [frontend_on_event output]; apply append_assoc.
Qed.

(** X15: what [startBackend] settles to when the child emits no
    ['error'] event in its first 30 seconds: the promise is resolved
    when the text written to standard output in that time contains the
    Uvicorn banner (also when it arrives split over several chunks) and
    rejected with the time-out error otherwise.  Standard error and
    whatever the child does after the 30 seconds have no part in it. *)
Theorem X15_startBackend_outcome (c : Child) :
  no_error (before_timeout backend_timeout_ms c) = true ->
  startBackend_promise c =
    if includes (stdout_text (before_timeout backend_timeout_ms c)) "Uvicorn running on"
    then Fulfilled
    else Rejected "Backend failed to start within 30 seconds".
Proof.
  intro N; unfold startBackend_promise, startup_run.
  destruct (backend_events_track (before_timeout backend_timeout_ms c) startup_init)
    as [O T]; [reflexivity | exact N |].
  cbn [startup_init output String.append] in O.
  unfold tracks, backend_ready in T; rewrite O in T.
  rewrite backend_events_keep.
  - unfold backend_on_timeout; rewrite O.
    change backend_banner with "Uvicorn running on" in *.
    destruct (includes _ "Uvicorn running on"); cbn [negb promise]; [exact T |].
    rewrite T; reflexivity.
  - unfold backend_on_timeout; rewrite O.
    destruct (includes _ backend_banner); cbn [negb promise]; rewrite T; reflexivity.
Qed.

(** X16: an ['error'] event of the child decides [startBackend] when it
    comes before the banner: if, within the 30 seconds, the child emits
    the error after output that does not contain the banner, the promise
    is rejected with that error, whatever follows. *)
Theorem X16_startBackend_spawn_error (c : Child) (pre post : list ChildEvent) (m : string) :
  before_timeout backend_timeout_ms c = pre ++ ErrorEvent m :: post ->
  no_error pre = true ->
  includes (stdout_text pre) "Uvicorn running on" = false ->
  startBackend_promise c = Rejected ("Failed to start backend: " ++ m).
Proof.
  intros B N I; unfold startBackend_promise, startup_run; rewrite B.
  destruct (backend_events_track pre startup_init) as [O T]; [reflexivity | exact N |].
  cbn [startup_init output String.append] in O.
  unfold tracks, backend_ready in T; rewrite O in T.
  change backend_banner with "Uvicorn running on" in T; rewrite I in T.
  rewrite fold_left_app; cbn [fold_left].
  set (s := backend_on_event (fold_left backend_on_event pre startup_init) (ErrorEvent m)).
  assert (P : promise s = Rejected ("Failed to start backend: " ++ m))
    by (unfold s; cbn [backend_on_event promise]; rewrite T; reflexivity).
  assert (P' : promise (fold_left backend_on_event post s) = promise s)
    by (apply backend_events_keep; rewrite P; reflexivity).
  rewrite backend_events_keep.
  - unfold backend_on_timeout; destruct (negb _); cbn [promise]; rewrite P', P; reflexivity.
  - unfold backend_on_timeout; destruct (negb _); cbn [promise]; rewrite P', P; reflexivity.
Qed.

(** X17: what [startFrontend] does when the child emits no ['error']
    event.  With [before] the standard output of the first 60 seconds
    and [total] the whole of it: the promise is resolved when [before]
    contains both the banner and the port; it is rejected with the
    time-out error when [before] does not contain the banner; and when
    [before] contains the banner without the port, the promise is
    resolved only if the port shows up in later output, and is pending
    for good otherwise. *)
Theorem X17_startFrontend_outcome (c : Child) :
  no_error (before_timeout frontend_timeout_ms c) = true ->
  no_error (after_timeout frontend_timeout_ms c) = true ->
  let before := stdout_text (before_timeout frontend_timeout_ms c) in
  let total := (before ++ stdout_text (after_timeout frontend_timeout_ms c))%string in
  startFrontend_promise c =
    if includes before "Ready in" && includes before "3000" then Fulfilled
    else if negb (includes before "Ready in")
    then Rejected "Frontend failed to start within 60 seconds"
    else if includes total "3000" then Fulfilled else Pending.
Proof.
  intros N N' before total; unfold startFrontend_promise, startup_run.
  destruct (frontend_events_track (before_timeout frontend_timeout_ms c) startup_init)
    as [O T]; [reflexivity | exact N |].
  cbn [startup_init output String.append] in O; fold before in O.
  unfold tracks in T; rewrite O in T.
  set (s := fold_left frontend_on_event (before_timeout frontend_timeout_ms c) startup_init)
    in *.
  change (includes before "Ready in" && includes before "3000")
    with (frontend_ready before).
  unfold frontend_on_timeout; rewrite O.
  change frontend_banner with "Ready in".
  destruct (includes before "Ready in") eqn:Eb; cbn [negb].
  - destruct (frontend_events_track (after_timeout frontend_timeout_ms c) s)
      as [O' T']; [unfold tracks; rewrite O; exact T | exact N' |].
    unfold tracks in T'; rewrite O', O in T'; fold total in T'.
    rewrite T'; destruct (frontend_ready before) eqn:Er.
    + unfold total; rewrite (frontend_ready_app _ _ Er); reflexivity.
    + unfold frontend_ready at 1.
      change frontend_banner with "Ready in"; change frontend_port with "3000".
      unfold total at 1; rewrite (includes_app _ _ _ Eb); reflexivity.
  - assert (Er : frontend_ready before = false)
      by (unfold frontend_ready; change frontend_banner with "Ready in";
          rewrite Eb; reflexivity).
    rewrite Er in *; rewrite frontend_events_keep; cbn [promise]; rewrite T; reflexivity.
Qed.

End StartupOutcome.

Section StartupOutcomeExamples.
Import JS IntegrationTestRunner.

(** A backend whose banner arrives split over two chunks, and which
    fails long after it came up. *)
Definition backend_banner_in_two_chunks : Child :=
  [(1800, Stdout "INFO: Uvicorn run");
   (1801, Stdout "ning on http://0.0.0.0:8000");
   (45000, ErrorEvent "read ECONNRESET")].

(** The interpreter cannot be spawned. *)
Definition backend_not_spawned : Child :=
  [(5, Stdout "starting");
   (10, ErrorEvent "spawn python ENOENT");
   (20, Stdout "Uvicorn running on http://0.0.0.0:8000")].

(** A dev server that prints its address more than a minute after its
    banner. *)
Definition frontend_late_address : Child :=
  [(5000, Stdout " Ready in 2.3s");
   (61000, Stdout "- Local: http://localhost:3000")].

Lemma X15_startBackend_outcome_witness :
  no_error (before_timeout backend_timeout_ms backend_banner_in_two_chunks) = true /\
  startBackend_promise backend_banner_in_two_chunks = Fulfilled.
Proof.
  split; [reflexivity |].
  exact (X15_startBackend_outcome backend_banner_in_two_chunks eq_refl).
Defined.

Lemma X16_startBackend_spawn_error_witness :
  before_timeout backend_timeout_ms backend_not_spawned =
    [Stdout "starting"] ++ ErrorEvent "spawn python ENOENT"
      :: [Stdout "Uvicorn running on http://0.0.0.0:8000"] /\
  no_error [Stdout "starting"] = true /\
  includes (stdout_text [Stdout "starting"]) "Uvicorn running on" = false /\
  startBackend_promise backend_not_spawned =
    Rejected "Failed to start backend: spawn python ENOENT".
Proof.
  split; [reflexivity |]; split; [reflexivity |]; split; [reflexivity |].
  exact (X16_startBackend_spawn_error backend_not_spawned [Stdout "starting"]
           [Stdout "Uvicorn running on http://0.0.0.0:8000"] "spawn python ENOENT"
           eq_refl eq_refl eq_refl).
Defined.

Lemma X17_startFrontend_outcome_witness :
  no_error (before_timeout frontend_timeout_ms frontend_late_address) = true /\
  no_error (after_timeout frontend_timeout_ms frontend_late_address) = true /\
  startFrontend_promise frontend_late_address = Fulfilled.
Proof.
  split; [reflexivity |]; split; [reflexivity |].
  exact (X17_startFrontend_outcome frontend_late_address eq_refl eq_refl).
Defined.

End StartupOutcomeExamples.

(* ================================================================== *)
(** * The authentication store *)
(* ================================================================== *)

(** [useAuthStore] of packages/auth: the state of the zustand store and
    its actions.  [set(partial)] replaces the fields named in [partial]
    and keeps the others. *)
Module AuthStore.

Inductive UserRole := ADMIN | DEVELOPER | VIEWER.

(** The string value of each member of the enum. *)
Definition role_value (r : UserRole) : string :=
  match r with
  | ADMIN => "admin"
  | DEVELOPER => "developer"
  | VIEWER => "viewer"
  end.

Record Permission := mkPermission {
  resource : string;
  actions : list string;
}.

Record User := mkUser {
  id : string;
  email : string;
  name : string;
  role : UserRole;
  permissions : list Permission;
  createdAt : string;
  updatedAt : string;
}.

Record AuthState := mkAuthState {
  user : option User;
  token : option string;
  isAuthenticated : bool;
  isLoading : bool;
  error : option string;
}.

Definition initial : AuthState := mkAuthState None None false false None.

Definition setUser (u : User) (s : AuthState) : AuthState :=
  mkAuthState (Some u) (token s) true (isLoading s) None.

Definition setToken (t : string) (s : AuthState) : AuthState :=
  mkAuthState (user s) (Some t) (isAuthenticated s) (isLoading s) (error s).

Definition clearAuth (s : AuthState) : AuthState :=
  mkAuthState None None false (isLoading s) None.

Definition setLoading (b : bool) (s : AuthState) : AuthState :=
  mkAuthState (user s) (token s) (isAuthenticated s) b (error s).

Definition setError (e : option string) (s : AuthState) : AuthState :=
  mkAuthState (user s) (token s) (isAuthenticated s) false e.

(** [permission.actions.includes(action)] *)
Definition actions_include (p : Permission) (action : string) : bool :=
  existsb (String.eqb action) (actions p).

Definition hasPermission (s : AuthState) (res action : string) : bool :=
  match user s with
  | None => false
  | Some u =>
      existsb (fun p => String.eqb (resource p) res && actions_include p action)
        (permissions u)
  end.

Definition hasRole (s : AuthState) (r : string) : bool :=
  match user s with
  | None => false
  | Some u => String.eqb (role_value (role u)) r
  end.

(** What [persist] writes to the storage. *)
Definition partialize (s : AuthState) : option User * option string * bool :=
  (user s, token s, isAuthenticated s).

(** A call of one of the state-changing actions. *)
Inductive Action :=
| SetUser (u : User)
| SetToken (t : string)
| ClearAuth
| SetLoading (b : bool)
| SetError (e : option string).

Definition dispatch (s : AuthState) (a : Action) : AuthState :=
  match a with
  | SetUser u => setUser u s
  | SetToken t => setToken t s
  | ClearAuth => clearAuth s
  | SetLoading b => setLoading b s
  | SetError e => setError e s
  end.

(** The store after a sequence of calls on the freshly created store. *)
Definition after (acts : list Action) : AuthState := fold_left dispatch acts initial.

End AuthStore.

Section AuthStoreFacts.
Import AuthStore.

(** The flag and the user agree. *)
Definition consistent (s : AuthState) : Prop :=
  isAuthenticated s = match user s with Some _ => true | None => false end.

Lemma dispatch_consistent s a : consistent s -> consistent (dispatch s a).
Proof. unfold consistent; destruct a; cbn; auto. Qed.

Lemma after_consistent acts : consistent (after acts).
Proof.
  unfold after.
  assert (H : forall s, consistent s -> consistent (fold_left dispatch acts s)).
  { induction acts as [| a acts IH]; intros s Hs; cbn [fold_left]; auto.
    apply IH, dispatch_consistent, Hs. }
  apply H; reflexivity.
Qed.

(** X6: whatever sequence of actions is called on a new store,
    [isAuthenticated] is true exactly when a user is set, and
    [hasPermission] and [hasRole] answer true only in an authenticated
    store.  The token has no part in it: [setToken] leaves the flag as
    it is. *)
Theorem X6_auth_flag_follows_user (acts : list Action) :
  let s := after acts in
  (isAuthenticated s = true <-> user s <> None) /\
  (forall res action, hasPermission s res action = true -> isAuthenticated s = true) /\
  (forall r, hasRole s r = true -> isAuthenticated s = true) /\
  (forall t, isAuthenticated (setToken t s) = isAuthenticated s).
Proof.
  intro s; pose proof (after_consistent acts) as H; fold s in H.
  unfold consistent in H; unfold hasPermission, hasRole.
  destruct (user s) as [u |]; rewrite H.
  - repeat split; auto; intros; congruence.
  - repeat split; auto; intros; try congruence; discriminate.
Qed.

End AuthStoreFacts.
